(** * Backup of Docker Compose projects: a model of [backup.py] and
      [backup_all.py] and the properties of volume discovery, retention
      and the backup workflow.

    The development follows the two source files:
    - Python values ([pyval]) as [yaml.safe_load] and [json.loads] build
      them, with the exceptions the interpreter raises on ill-typed use;
    - [extract_named_volumes] (volume discovery);
    - [rotate_project_backups] (retention on the remote);
    - [backup_project] and [backup_all_projects] over an explicit world
      (file system and trace of external operations), with the outcome of
      every external operation supplied by an environment. *)

From Stdlib Require Import ZArith Ascii String List DecimalString.
From stdpp Require Import base option strings list gmap sorting.

Open Scope string_scope.
Open Scope list_scope.

(** ** Python values and exceptions *)

(** The values a YAML or JSON document is loaded into.  Strings are
    sequences of characters with code points below 256 (an [ascii] is one
    character), ordered by code point as [str] is; mappings have string
    keys and keep insertion order; floats and dates are left out. *)
#[warnings="-register-all"]
Inductive pyval : Type :=
| PNone
| PBool (b : bool)
| PInt (z : Z)
| PStr (s : string)
| PList (l : list pyval)
| PDict (m : list (string * pyval)).

(** One error of a project run as [str(err)] shows it in a summary: the
    external command that failed, or the Python exception. *)
Inductive command : Type :=
| ComposeVersion (plugin : bool)
| ComposeDown (plugin : bool) (cwd : list string)
| ComposeUp (plugin : bool) (cwd : list string)
| DockerExport (volume_name : string) (temp_dir : list string) (archive_name : string)
| RcloneCopy (file_path : list string) (dest : string)
| RcloneLsjson (target : string)
| RcloneDeletefile (delete_target : string).

#[warnings="-register-all"]
Inductive exn : Type :=
| TypeError
| AttributeError
| ValueError
| KeyError
| YAMLError
| OSError
| FileNotFoundError
| FileExistsError
| CommandFailed (rc : Z) (cmd : command)
| RuntimeError (msg : string)
| CompletedWithFailures (summary : list (string * exn)).

Inductive result (A : Type) : Type :=
| Ok (a : A)
| Raise (e : exn).
Arguments Ok {A} a.
Arguments Raise {A} e.

Definition rbind {A B} (r : result A) (k : A -> result B) : result B :=
  match r with
  | Ok a => k a
  | Raise e => Raise e
  end.

Declare Scope result_scope.
Delimit Scope result_scope with result.
Notation "x <- r ;; k" := (rbind r (fun x => k))
  (at level 100, r at next level, right associativity) : result_scope.

(** Truth value of a Python object, as [if x], [not x] and [x or y] use it. *)
Definition truthy (v : pyval) : bool :=
  match v with
  | PNone => false
  | PBool b => b
  | PInt z => negb (z =? 0)%Z
  | PStr s => negb (String.eqb s "")
  | PList l => match l with [] => false | _ => true end
  | PDict m => match m with [] => false | _ => true end
  end.

(** [x or {}] *)
Definition or_empty_dict (v : pyval) : pyval :=
  if truthy v then v else PDict [].

Fixpoint assoc (m : list (string * pyval)) (k : string) : option pyval :=
  match m with
  | [] => None
  | (k', v) :: m' => if String.eqb k' k then Some v else assoc m' k
  end.

Definition has_key (m : list (string * pyval)) (k : string) : bool :=
  match assoc m k with Some _ => true | None => false end.

(** [d.get(k, default)]: only a dict has [get]. *)
Definition py_get (d : pyval) (k : string) (dflt : pyval) : result pyval :=
  match d with
  | PDict m => Ok (default dflt (assoc m k))
  | _ => Raise AttributeError
  end.

(** [d.items()] *)
Definition py_items (d : pyval) : result (list (string * pyval)) :=
  match d with
  | PDict m => Ok m
  | _ => Raise AttributeError
  end.

Fixpoint chars (s : string) : list pyval :=
  match s with
  | "" => []
  | String a s' => PStr (String a "") :: chars s'
  end.

(** [for x in v]: a list gives its items, a dict its keys, a string its
    characters; the other values are not iterable. *)
Definition py_iter (v : pyval) : result (list pyval) :=
  match v with
  | PList l => Ok l
  | PDict m => Ok (map (fun kv => PStr (fst kv)) m)
  | PStr s => Ok (chars s)
  | _ => Raise TypeError
  end.

(** [==] on the hashable values: [True == 1] and [False == 0]. *)
Definition as_number (v : pyval) : option Z :=
  match v with
  | PBool b => Some (if b then 1 else 0)%Z
  | PInt z => Some z
  | _ => None
  end.

Definition py_eqb (x y : pyval) : bool :=
  match x, y with
  | PNone, PNone => true
  | PStr s, PStr t => String.eqb s t
  | _, _ =>
      match as_number x, as_number y with
      | Some a, Some b => (a =? b)%Z
      | _, _ => false
      end
  end.

Definition hashable (v : pyval) : bool :=
  match v with
  | PList _ | PDict _ => false
  | _ => true
  end.

(** ** String operations used by the scripts *)

Definition slash : ascii := "/"%char.
Definition dot : ascii := "."%char.
Definition tilde : ascii := "~"%char.
Definition colon : ascii := ":"%char.

Fixpoint contains_char (c : ascii) (s : string) : bool :=
  match s with
  | "" => false
  | String a s' => Ascii.eqb a c || contains_char c s'
  end.

Definition starts_with_char (c : ascii) (s : string) : bool :=
  match s with
  | String a _ => Ascii.eqb a c
  | "" => false
  end.

(** [s.split(":", 1)[0]] *)
Fixpoint before_colon (s : string) : string :=
  match s with
  | "" => ""
  | String a s' => if Ascii.eqb a colon then "" else String a (before_colon s')
  end.

(** [s in t] for two strings *)
Fixpoint contains_str (s t : string) : bool :=
  String.prefix s t ||
  match t with
  | "" => false
  | String _ t' => contains_str s t'
  end.

(** [s.endswith(suffix)] *)
Definition ends_with (suffix s : string) : bool :=
  String.prefix (String.rev suffix) (String.rev s).

(** ** Volume discovery: [extract_named_volumes] *)

Inductive mount_outcome : Type :=
| Skipped
| Added (name : pyval).

(** [x in c] for a string [x]: substring of a string, element of a list,
    key of a dict; the other values are not containers. *)
Definition py_in (x : string) (c : pyval) : result bool :=
  match c with
  | PStr t => Ok (contains_str x t)
  | PList l => Ok (existsb (py_eqb (PStr x)) l)
  | PDict m => Ok (has_key m x)
  | _ => Raise TypeError
  end.

(** [top_volumes[volkey]] for a string [volkey] found by [in]. *)
Definition py_index (c : pyval) (k : string) : result pyval :=
  match c with
  | PDict m => match assoc m k with Some v => Ok v | None => Raise KeyError end
  | _ => Raise TypeError
  end.

(** Lines 64-70: the source token of one mount entry. *)
Definition mount_source (v : pyval) : result (option pyval) :=
  match v with
  | PStr s => Ok (Some (PStr (before_colon s)))
  | PDict _ => (k <- py_get v "source" PNone ;; Ok (Some k))%result
  | _ => Ok None
  end.

(** Line 76 on a string: the host paths. *)
Definition host_path (volkey : string) : bool :=
  contains_char slash volkey || starts_with_char dot volkey
  || starts_with_char tilde volkey.

(** Lines 79-89: the name a surviving key resolves to. *)
Definition resolve_volume (top_volumes : pyval) (volkey : string) : result pyval :=
  (found <- py_in volkey top_volumes ;;
   if (found : bool) then
     vol_def <- py_index top_volumes volkey ;;
     match vol_def with
     | PDict d =>
         match assoc d "name" with
         | Some n => Ok n
         | None => Ok (PStr volkey)
         end
     | _ => Ok (PStr volkey)
     end
   else Ok (PStr volkey))%result.

(** Lines 62-89: the body of the inner loop for one mount entry.  A
    truthy source that is not a string passes line 76 only when it is a
    list or dict holding ["/"]; otherwise [in] or [startswith] raises. *)
Definition classify_mount (top_volumes : pyval) (v : pyval) : result mount_outcome :=
  (src <- mount_source v ;;
   match src with
   | None => Ok Skipped
   | Some volkey =>
       if negb (truthy volkey) then Ok Skipped
       else
         match volkey with
         | PStr k =>
             if host_path k then Ok Skipped
             else
               name <- resolve_volume top_volumes k ;;
               if hashable name then Ok (Added name) else Raise TypeError
         | _ =>
             has_slash <- py_in "/" volkey ;;
             if (has_slash : bool) then Ok Skipped else Raise AttributeError
         end
   end)%result.

(** [named_volumes.add(x)] on a set kept as a list without [==]-equal
    elements. *)
Definition set_add (x : pyval) (s : list pyval) : list pyval :=
  if existsb (py_eqb x) s then s else s ++ [x].

Fixpoint scan_mounts (top_volumes : pyval) (svc_vols : list pyval)
    (named_volumes : list pyval) : result (list pyval) :=
  match svc_vols with
  | [] => Ok named_volumes
  | v :: rest =>
      (o <- classify_mount top_volumes v ;;
       match o with
       | Skipped => scan_mounts top_volumes rest named_volumes
       | Added name => scan_mounts top_volumes rest (set_add name named_volumes)
       end)%result
  end.

(** Line 61 and the inner loop for one service. *)
Definition scan_service (top_volumes : pyval) (svc : pyval)
    (named_volumes : list pyval) : result (list pyval) :=
  (vols <- py_get (or_empty_dict svc) "volumes" (PList []) ;;
   svc_vols <- py_iter vols ;;
   scan_mounts top_volumes svc_vols named_volumes)%result.

Fixpoint scan_services (top_volumes : pyval) (services : list (string * pyval))
    (named_volumes : list pyval) : result (list pyval) :=
  match services with
  | [] => Ok named_volumes
  | (_, svc) :: rest =>
      (s <- scan_service top_volumes svc named_volumes ;;
       scan_services top_volumes rest s)%result
  end.

Definition all_strings (l : list pyval) : option (list string) :=
  mapM (fun v => match v with PStr s => Some s | _ => None end) l.

Definition all_numbers (l : list pyval) : bool :=
  forallb (fun v => match as_number v with Some _ => true | None => false end) l.

Definition number_le (x y : pyval) : Prop :=
  match as_number x, as_number y with
  | Some a, Some b => (a <= b)%Z
  | _, _ => True
  end.

Global Instance number_le_dec : RelDecision number_le.
Proof.
  intros x y. unfold number_le.
  destruct (as_number x), (as_number y); apply _.
Defined.

(** [sorted(s)] on a set: strings compare with strings and numbers with
    numbers; any other pair raises, and a sort of two or more elements
    compares every element with some other one. *)
Definition py_sorted (s : list pyval) : result (list pyval) :=
  match s with
  | [] | [_] => Ok s
  | _ =>
      match all_strings s with
      | Some l => Ok (map PStr (merge_sort String.le l))
      | None =>
          if all_numbers s then Ok (merge_sort number_le s)
          else Raise TypeError
      end
  end.

(** Lines 56-91, on the loaded document [data]. *)
Definition named_volumes_of (data : pyval) : result (list pyval) :=
  (services <- py_get (or_empty_dict data) "services" (PDict []) ;;
   top_volumes <- py_get (or_empty_dict data) "volumes" (PDict []) ;;
   items <- py_items services ;;
   named_volumes <- scan_services top_volumes items [] ;;
   py_sorted named_volumes)%result.

(** ** Paths *)

(** A resolved absolute path is the list of its components; [[]] is the
    root.  [path_name] and [path_parent] are [Path.name] and
    [Path.parent]. *)
Abbreviation path := (list string) (only parsing).

Definition path_name (p : path) : string := List.last p "".
Definition path_parent (p : path) : path := removelast p.
Definition path_join (p : path) (name : string) : path := p ++ [name].

(** The text before and after the last ["."] of a name. *)
Fixpoint split_last_dot (s : string) : option (string * string) :=
  match s with
  | "" => None
  | String a s' =>
      match split_last_dot s' with
      | Some (b, e) => Some (String a b, e)
      | None => if Ascii.eqb a dot then Some ("", s') else None
      end
  end.

(** The name of [p.with_suffix(".zip")]: pathlib takes as suffix the text
    from the last dot of the name, unless that dot is its first or last
    character, and replaces it. *)
Definition with_suffix_zip (name : string) : string :=
  match split_last_dot name with
  | Some (String a b, String c e) => String a b +:+ ".zip"
  | _ => name +:+ ".zip"
  end.

(** ** The world: file system and trace *)

(** What a file holds, as far as the scripts look: a text with the value
    [yaml.safe_load] gives for it ([None] when it does not parse), a zip
    archive with the paths it was made from, the export of a volume, or
    anything else. *)
Inductive content : Type :=
| Text (doc : option pyval)
| ZipOf (members : list path)
| TarOf (volume_name : string)
| Blob.

Inductive node : Type :=
| Dir
| File (c : content).

Inductive fs_op : Type :=
| OpMakeArchive (zip : path) (root_dir : path)
| OpMkdir (p : path)
| OpMove (src dst : path)
| OpOpen (p : path)
| OpRmtree (p : path)
| OpUnlink (p : path).

(** The trace of a run: file operations with the exception they raised, if
    any, external commands with their return code ([None]: the executable
    is missing), and the messages the claims speak of. *)
Inductive event : Type :=
| EvFs (op : fs_op) (raised : option exn)
| EvArchived (zip : path) (members : list path)
| EvRun (cmd : command) (rc : option Z)
| EvReport (e : exn) (temp_dir : path) (final_zip : option path)
| EvStart (project_dir : path)
| EvFailed (project_dir : path) (e : exn).

Record world : Type := World {
  fs : gmap path node;
  trace : list event;
}.

(** A naive or an aware [datetime], as a count of microseconds: from
    [datetime.min] for a naive one, of the instant for an aware one. *)
Inductive datetime : Type :=
| Naive (t : N)
| Aware (t : Z).

(** What the scripts take from outside.  Every oracle sees the trace so
    far, so the same operation may fare differently each time. *)
Record env : Type := Env {
  (** [datetime.datetime.now().strftime("%Y%m%d-%H%M%S")] *)
  clock : list event -> string;
  (** [subprocess.run(cmd)]: the return code, [None] when the executable
      does not exist *)
  run : list event -> command -> option Z;
  (** the stripped [stderr] and the value of [json.loads(stdout or "[]")]
      of [rclone lsjson], [None] when the output is not JSON *)
  lsjson_stderr : list event -> string;
  lsjson_stdout : list event -> option pyval;
  (** a file operation that fails for a reason outside the model
      (permissions, a full disk) *)
  io_fails : list event -> fs_op -> bool;
  (** [datetime.datetime.fromisoformat], [None] for [ValueError] *)
  fromisoformat : string -> option datetime;
}.

(** The outcome of a call: a value, an exception, or [sys.exit(code)],
    which [except Exception] does not catch. *)
Inductive outcome (A : Type) : Type :=
| Ret (a : A)
| Exc (e : exn)
| Exit (code : Z).
Arguments Ret {A} a.
Arguments Exc {A} e.
Arguments Exit {A} code.

Definition M (A : Type) : Type := world -> outcome A * world.

Definition ret {A} (a : A) : M A := fun w => (Ret a, w).
Definition raise {A} (e : exn) : M A := fun w => (Exc e, w).
Definition sys_exit {A} (code : Z) : M A := fun w => (Exit code, w).

Definition bind {A B} (m : M A) (k : A -> M B) : M B :=
  fun w =>
    match m w with
    | (Ret a, w') => k a w'
    | (Exc e, w') => (Exc e, w')
    | (Exit c, w') => (Exit c, w')
    end.

Declare Scope m_scope.
Delimit Scope m_scope with M.
Notation "x <- m ;; k" := (bind m (fun x => k))
  (at level 100, m at next level, right associativity) : m_scope.
Notation "m ;; k" := (bind m (fun _ => k))
  (at level 100, right associativity) : m_scope.

(** [try: m except Exception as e: h e] *)
Definition try_except {A} (m : M A) (h : exn -> M A) : M A :=
  fun w =>
    match m w with
    | (Exc e, w') => h e w'
    | r => r
    end.

Definition lift {A} (r : result A) : M A :=
  match r with
  | Ok a => ret a
  | Raise e => raise e
  end.

Definition emit (ev : event) : M unit :=
  fun w => (Ret tt, World (fs w) (trace w ++ [ev])).

Definition get_fs : M (gmap path node) := fun w => (Ret (fs w), w).
Definition set_fs (f : gmap path node) : M unit :=
  fun w => (Ret tt, World f (trace w)).
Definition ask {A} (q : list event -> A) : M A := fun w => (Ret (q (trace w)), w).

(** [p] lies strictly below [d]. *)
Definition below (d p : path) : bool :=
  bool_decide (d `prefix_of` p) && negb (bool_decide (p = d)).

Definition is_dir (f : gmap path node) (p : path) : bool :=
  match f !! p with Some Dir => true | _ => false end.
Definition is_file (f : gmap path node) (p : path) : bool :=
  match f !! p with Some (File _) => true | _ => false end.
Definition exists_ (f : gmap path node) (p : path) : bool :=
  match f !! p with Some _ => true | None => false end.

(** The paths an archive of [root_dir] is made from. *)
Definition tree_members (f : gmap path node) (root_dir : path) : list path :=
  filter (fun p => below root_dir p) (map fst (map_to_list f)).

(** ** File and process primitives *)

(** One file operation: [precheck] gives the exception the operation
    raises on this file system by itself, [effect] what it does when it
    succeeds.  A failed operation leaves the file system as it was. *)
Definition fs_attempt (E : env) (op : fs_op)
    (precheck : gmap path node -> option exn)
    (effect : gmap path node -> gmap path node) : M unit :=
  fun w =>
    match precheck (fs w) with
    | Some e => (Exc e, World (fs w) (trace w ++ [EvFs op (Some e)]))
    | None =>
        if io_fails E (trace w) op
        then (Exc OSError, World (fs w) (trace w ++ [EvFs op (Some OSError)]))
        else (Ret tt, World (effect (fs w)) (trace w ++ [EvFs op None]))
    end.

(** [subprocess.run(cmd)], giving back the return code. *)
Definition subprocess_run (E : env) (cmd : command) : M (option Z) :=
  fun w =>
    let rc := run E (trace w) cmd in
    (Ret rc, World (fs w) (trace w ++ [EvRun cmd rc])).

(** [run_cmd] (lines 17-22); [effect] is what a successful command leaves
    on the file system. *)
Definition run_cmd (E : env) (cmd : command)
    (effect : gmap path node -> gmap path node) : M unit :=
  (rc <- subprocess_run E cmd ;;
   match rc with
   | None => raise FileNotFoundError
   | Some c =>
       if (c =? 0)%Z then (f <- get_fs ;; set_fs (effect f))
       else raise (CommandFailed c cmd)
   end)%M.

(** [shutil.make_archive(base_name=dir/name, format="zip", root_dir)]: the
    archive is written to [dir/name.zip]. *)
Definition make_archive (E : env) (dir : path) (name : string) (root_dir : path)
    : M unit :=
  (f <- get_fs ;;
   let zip := path_join dir (name +:+ ".zip") in
   let members := tree_members f root_dir in
   fs_attempt E (OpMakeArchive zip root_dir) (fun _ => None)
     (fun f => <[zip := File (ZipOf members)]> f) ;;
   emit (EvArchived zip members))%M.

(** [p.mkdir(parents=True, exist_ok=False)] below an existing directory *)
Definition mkdir (E : env) (p : path) : M unit :=
  fs_attempt E (OpMkdir p)
    (fun f => if exists_ f p then Some FileExistsError else None)
    (fun f => <[p := Dir]> f).

(** [src] and everything below it re-rooted at [dst]. *)
Definition move_tree (src dst : path) (f : gmap path node) : gmap path node :=
  list_to_map
    (map (fun pn => (dst ++ drop (length src) (fst pn), snd pn))
       (filter (fun pn => src `prefix_of` fst pn) (map_to_list f)))
  ∪ filter (fun pn => ¬ src `prefix_of` fst pn) f.

(** [shutil.move(src, dst)] *)
Definition move (E : env) (src dst : path) : M unit :=
  fs_attempt E (OpMove src dst)
    (fun f => if exists_ f src then None else Some FileNotFoundError)
    (move_tree src dst).

(** [shutil.rmtree(p)] *)
Definition rmtree (E : env) (p : path) : M unit :=
  fs_attempt E (OpRmtree p)
    (fun f => if exists_ f p then None else Some FileNotFoundError)
    (fun f => filter (fun pn => ¬ p `prefix_of` fst pn) f).

(** [p.unlink()] *)
Definition unlink (E : env) (p : path) : M unit :=
  fs_attempt E (OpUnlink p)
    (fun f => if exists_ f p then None else Some FileNotFoundError)
    (fun f => delete p f).

(** ** [backup.py] *)

(** [find_compose_file] (lines 25-40) *)
Definition candidates : list string :=
  ["docker-compose.yml"; "docker-compose.yaml"; "compose.yml"; "compose.yaml"].

Definition find_compose_file (project_dir : path) : M path :=
  fun w =>
    match filter (fun name => is_file (fs w) (path_join project_dir name)) candidates with
    | name :: _ => (Ret (path_join project_dir name), w)
    | [] => (Exc FileNotFoundError, w)
    end.

(** [yaml.safe_load] of what a file holds *)
Definition safe_load (n : option node) : result pyval :=
  match n with
  | Some (File (Text (Some doc))) => Ok doc
  | _ => Raise YAMLError
  end.

(** [extract_named_volumes] (lines 43-91) *)
Definition extract_named_volumes (E : env) (compose_path : path) : M (list pyval) :=
  (fs_attempt E (OpOpen compose_path) (fun _ => None) (fun f => f) ;;
   f <- get_fs ;;
   data <- lift (safe_load (f !! compose_path)) ;;
   lift (named_volumes_of data))%M.

(** [detect_docker_compose_command] (lines 95-124): [true] for the
    [docker compose] plugin, [false] for [docker-compose]. *)
Definition detect_docker_compose_command (E : env) : M bool :=
  (rc <- subprocess_run E (ComposeVersion true) ;;
   match rc with
   | Some 0%Z => ret true
   | _ =>
       rc' <- subprocess_run E (ComposeVersion false) ;;
       match rc' with
       | Some 0%Z => ret false
       | _ => raise (RuntimeError "Neither 'docker compose' nor 'docker-compose' was found.")
       end
   end)%M.

(** [create_project_zip] (lines 127-144): the archive is written to
    [zip_base] followed by [".zip"]; the path given back is
    [zip_base.with_suffix(".zip")]. *)
Definition create_project_zip (E : env) (project_dir : path) (timestamp : string)
    : M path :=
  let project_name := path_name project_dir in
  let zip_base := project_name +:+ "-project-" +:+ timestamp in
  (make_archive E (path_parent project_dir) zip_base project_dir ;;
   ret (path_join (path_parent project_dir) (with_suffix_zip zip_base)))%M.

(** The components of a relative path written with ["/"]. *)
Fixpoint components_go (cur : string) (s : string) : list string :=
  match s with
  | "" => if String.eqb cur "" || String.eqb cur "." then [] else [String.rev cur]
  | String a s' =>
      if Ascii.eqb a slash
      then (if String.eqb cur "" || String.eqb cur "." then [] else [String.rev cur])
             ++ components_go "" s'
      else components_go (String a cur) s'
  end.
Definition path_div (p : path) (rel : string) : path := p ++ components_go "" rel.

(** [export_volume] (lines 147-163) *)
Definition export_volume (E : env) (volume_name : string) (temp_dir : path)
    (timestamp : string) : M path :=
  let archive_name := "volume-" +:+ volume_name +:+ "-" +:+ timestamp +:+ ".tar.gz" in
  let archive_path := path_div temp_dir archive_name in
  (run_cmd E (DockerExport volume_name temp_dir archive_name)
     (fun f => <[archive_path := File (TarOf volume_name)]> f) ;;
   ret archive_path)%M.

(** [create_final_zip_from_temp] (lines 166-180) *)
Definition create_final_zip_from_temp (E : env) (project_dir temp_dir : path)
    (timestamp : string) : M path :=
  let project_name := path_name project_dir in
  let final_base := project_name +:+ "-" +:+ timestamp in
  (make_archive E project_dir final_base temp_dir ;;
   ret (path_join project_dir (with_suffix_zip final_base)))%M.

Definition remote_target (remote remote_path : string) : string :=
  if String.eqb remote_path "" then remote +:+ ":"
  else remote +:+ ":" +:+ remote_path.

(** [rclone_copy_file] (lines 183-199) *)
Definition rclone_copy_file (E : env) (file_path : path) (remote remote_path : string)
    : M unit :=
  run_cmd E (RcloneCopy file_path (remote_target remote remote_path)) (fun f => f).

(** ** Retention: [rotate_project_backups] (lines 202-262) *)

(** [str(v)]; a list or dict is abbreviated to its brackets, which is all
    that [endswith] below can see of it. *)
Definition py_str (v : pyval) : string :=
  match v with
  | PNone => "None"
  | PBool true => "True"
  | PBool false => "False"
  | PInt z => DecimalString.NilZero.string_of_int (Z.to_int z)
  | PStr s => s
  | PList _ => "[...]"
  | PDict _ => "{...}"
  end.

(** Lines 228-231: the entries that are not directories and whose [Path]
    ends in [".zip"]. *)
Fixpoint select_backups (entries : list pyval) : result (list pyval) :=
  match entries with
  | [] => Ok []
  | entry :: rest =>
      (d <- py_get entry "IsDir" PNone ;;
       chosen <- (if truthy d then Ok false
                  else p <- py_get entry "Path" (PStr "") ;;
                       Ok (ends_with ".zip" (py_str p))) ;;
       rest' <- select_backups rest ;;
       Ok (if (chosen : bool) then entry :: rest' else rest'))%result
  end.

Definition datetime_min : datetime := Naive 0.

(** [s.replace("Z", "+00:00")] *)
Fixpoint replace_Z (s : string) : string :=
  match s with
  | "" => ""
  | String a s' =>
      if Ascii.eqb a "Z"%char then "+00:00" +:+ replace_Z s'
      else String a (replace_Z s')
  end.

(** [_parse_time] (lines 233-240) *)
Definition _parse_time (E : env) (mod_time : pyval) : result datetime :=
  if negb (truthy mod_time) then Ok datetime_min
  else
    match mod_time with
    | PStr s => Ok (default datetime_min (fromisoformat E (replace_Z s)))
    | _ => Raise AttributeError
    end.

(** [a < b] on two [datetime]s: a naive and an aware one do not compare. *)
Definition datetime_lt (a b : datetime) : result bool :=
  match a, b with
  | Naive x, Naive y => Ok (x <? y)%N
  | Aware x, Aware y => Ok (x <? y)%Z
  | _, _ => Raise TypeError
  end.

(** [list.sort(key=...)] is a stable sort that compares keys with [<]
    only, and an exception in a comparison ends it.  It is taken here as
    the insertion of each element, in turn, behind the elements that are
    not later than it. *)
Fixpoint insert_by_key (x : datetime * pyval) (l : list (datetime * pyval))
    : result (list (datetime * pyval)) :=
  match l with
  | [] => Ok [x]
  | y :: l' =>
      (lt <- datetime_lt (fst x) (fst y) ;;
       if (lt : bool) then Ok (x :: y :: l')
       else r <- insert_by_key x l' ;; Ok (y :: r))%result
  end.

Fixpoint sort_by_key (done todo : list (datetime * pyval))
    : result (list (datetime * pyval)) :=
  match todo with
  | [] => Ok done
  | x :: rest => (d <- insert_by_key x done ;; sort_by_key d rest)%result
  end.

Fixpoint with_keys (E : env) (backups : list pyval)
    : result (list (datetime * pyval)) :=
  match backups with
  | [] => Ok []
  | e :: rest =>
      (m <- py_get e "ModTime" PNone ;;
       k <- _parse_time E m ;;
       rest' <- with_keys E rest ;;
       Ok ((k, e) :: rest'))%result
  end.

(** Line 242 *)
Definition sort_backups (E : env) (backups : list pyval) : result (list pyval) :=
  (keyed <- with_keys E backups ;;
   sorted <- sort_by_key [] keyed ;;
   Ok (map snd sorted))%result.

(** Lines 228-248: the entries to delete, oldest first. *)
Definition backups_to_delete (E : env) (entries : pyval) (keep : Z)
    : result (list pyval) :=
  (l <- py_iter entries ;;
   backups <- select_backups l ;;
   sorted <- sort_backups E backups ;;
   if (Z.of_nat (length sorted) <=? keep)%Z then Ok []
   else Ok (take (length sorted - Z.to_nat keep) sorted))%result.

(** [s.rstrip("/")] *)
Fixpoint rstrip_slash (s : string) : string :=
  match s with
  | "" => ""
  | String a s' =>
      match rstrip_slash s' with
      | "" => if Ascii.eqb a slash then "" else String a ""
      | r => String a r
      end
  end.

Definition delete_target (remote remote_path rel_path : string) : string :=
  if String.eqb remote_path "" then remote +:+ ":" +:+ rel_path
  else remote +:+ ":" +:+ rstrip_slash remote_path +:+ "/" +:+ rel_path.

(** Lines 251-262 *)
Fixpoint delete_backups (E : env) (remote remote_path : string)
    (to_delete : list pyval) : M unit :=
  match to_delete with
  | [] => ret tt
  | entry :: rest =>
      (p <- lift (py_get entry "Path" PNone) ;;
       rel_path <- (if truthy p then ret p else lift (py_get entry "Name" PNone)) ;;
       (if negb (truthy rel_path) then ret tt
        else run_cmd E
               (RcloneDeletefile (delete_target remote remote_path (py_str rel_path)))
               (fun f => f)) ;;
       delete_backups E remote remote_path rest)%M
  end.

Definition rotate_project_backups (E : env) (remote remote_path : string) (keep : Z)
    : M unit :=
  if (keep <? 1)%Z then raise ValueError
  else
    (rc <- subprocess_run E (RcloneLsjson (remote_target remote remote_path)) ;;
     match rc with
     | None => raise FileNotFoundError
     | Some c =>
         if negb (c =? 0)%Z then
           err <- ask (lsjson_stderr E) ;;
           raise (RuntimeError ("Failed to list backups via rclone: " +:+
                                (if String.eqb err "" then "unknown error" else err)))
         else
           out <- ask (lsjson_stdout E) ;;
           match out with
           | None => raise (RuntimeError "Unable to parse rclone output as JSON")
           | Some entries =>
               to_delete <- lift (backups_to_delete E entries keep) ;;
               delete_backups E remote remote_path to_delete
           end
     end)%M.

(** ** The workflow: [backup_project] (lines 265-358) *)

(** Lines 316-321 *)
Fixpoint export_volumes (E : env) (volumes : list string) (temp_dir : path)
    (timestamp : string) : M (list path) :=
  match volumes with
  | [] => ret []
  | vol :: rest =>
      (archive_path <- export_volume E vol temp_dir timestamp ;;
       exported <- export_volumes E rest temp_dir timestamp ;;
       ret (archive_path :: exported))%M
  end.

(** [', '.join(volumes)] needs strings. *)
Definition join_names (volumes : list pyval) : result (list string) :=
  match all_strings volumes with
  | Some l => Ok l
  | None => Raise TypeError
  end.

(** Lines 353-358 *)
Definition report {A} (temp_dir : path) (final_zip_path : option path) (e : exn) : M A :=
  (emit (EvReport e temp_dir final_zip_path) ;; raise e)%M.

(** Lines 299-328: up to the final bundle; [final_zip_path] is still
    [None] if anything here raises. *)
Definition stop_export_start_bundle (E : env) (project_dir temp_dir : path)
    (timestamp : string) : M path :=
  (compose_file <- find_compose_file project_dir ;;
   volumes <- extract_named_volumes E compose_file ;;
   names <- lift (join_names volumes) ;;
   docker_compose_cmd <- detect_docker_compose_command E ;;
   run_cmd E (ComposeDown docker_compose_cmd project_dir) (fun f => f) ;;
   export_volumes E names temp_dir timestamp ;;
   run_cmd E (ComposeUp docker_compose_cmd project_dir) (fun f => f) ;;
   create_final_zip_from_temp E project_dir temp_dir timestamp)%M.

(** Lines 331-351 *)
Definition upload_cleanup_rotate (E : env) (temp_dir final_zip_path : path)
    (remote remote_path : string) (backups_to_keep : Z) : M path :=
  (rclone_copy_file E final_zip_path remote remote_path ;;
   rmtree E temp_dir ;;
   f <- get_fs ;;
   (if exists_ f final_zip_path then unlink E final_zip_path else ret tt) ;;
   rotate_project_backups E remote remote_path backups_to_keep ;;
   ret final_zip_path)%M.

(** Lines 286-290 *)
Definition mkdir_or_exit (E : env) (temp_dir : path) : M unit :=
  fun w =>
    match mkdir E temp_dir w with
    | (Exc FileExistsError, w') => (Exit 1, w')
    | r => r
    end.

(** Lines 292-358: the run once the staging directory exists. *)
Definition staged_backup (E : env) (project_dir temp_dir project_zip_outside : path)
    (timestamp rclone_remote remote_path : string) (backups_to_keep : Z) : M path :=
  (let project_zip := path_join temp_dir (path_name project_zip_outside) in
   move E project_zip_outside project_zip ;;
   final_zip_path <-
     try_except (stop_export_start_bundle E project_dir temp_dir timestamp)
       (report temp_dir None) ;;
   try_except
     (upload_cleanup_rotate E temp_dir final_zip_path rclone_remote remote_path
        backups_to_keep)
     (report temp_dir (Some final_zip_path)))%M.

Definition backup_project (E : env) (project_dir : path)
    (rclone_remote remote_path : string) (backups_to_keep : Z) : M path :=
  (f <- get_fs ;;
   if negb (is_dir f project_dir) then raise FileNotFoundError
   else
     timestamp <- ask (clock E) ;;
     project_zip_outside <- create_project_zip E project_dir timestamp ;;
     let temp_dir := path_join project_dir (".docker-backup-temp-" +:+ timestamp) in
     mkdir_or_exit E temp_dir ;;
     staged_backup E project_dir temp_dir project_zip_outside timestamp
       rclone_remote remote_path backups_to_keep)%M.

(** ** The batch: [backup_all.py] *)

(** [iter_project_dirs] (lines 9-13): the directories right below [root],
    by name. *)
Definition child_names (f : gmap path node) (root : path) : list string :=
  omap (fun p => if bool_decide (p <> [] /\ path_parent p = root)
                 then Some (path_name p) else None)
       (map fst (map_to_list f)).

Definition iter_project_dirs (f : gmap path node) (root : path) : list path :=
  filter (fun p => is_dir f p)
    (map (path_join root) (merge_sort String.le (child_names f root))).

(** Lines 34-43, for any per-project workflow [run_project]. *)
Fixpoint run_projects {A} (run_project : path -> M A) (project_dirs : list path)
    (failures : list (path * exn)) : M (list (path * exn)) :=
  match project_dirs with
  | [] => ret failures
  | project_dir :: rest =>
      (emit (EvStart project_dir) ;;
       failures' <-
         try_except (run_project project_dir ;; ret failures)
           (fun exc => emit (EvFailed project_dir exc) ;;
                       ret (failures ++ [(project_dir, exc)])) ;;
       run_projects run_project rest failures')%M
  end.

(** Lines 45-47 *)
Definition summary_of (failures : list (path * exn)) : list (string * exn) :=
  map (fun pe => (path_name (fst pe), snd pe)) failures.

Definition backup_all_with {A} (run_project : path -> M A) (projects_root : path)
    : M unit :=
  (f <- get_fs ;;
   if negb (is_dir f projects_root) then raise FileNotFoundError
   else
     let project_dirs := iter_project_dirs f projects_root in
     match project_dirs with
     | [] => raise FileNotFoundError
     | _ =>
         failures <- run_projects run_project project_dirs [] ;;
         match failures with
         | [] => ret tt
         | _ => raise (CompletedWithFailures (summary_of failures))
         end
     end)%M.

(** [backup_all_projects] (lines 16-47); [backup_project] runs with its
    default [backups_to_keep = 4]. *)
Definition backup_all_projects (E : env) (rclone_remote remote_path : string)
    (projects_root : path) : M unit :=
  backup_all_with (fun project_dir => backup_project E project_dir rclone_remote remote_path 4)
    projects_root.
(** ** What the claims say, in their own words *)

(** The source token of a mount that the specification excludes: it is
    empty, holds ["/"], or starts with ["."] or ["~"]. *)
Definition excluded_source (k : string) : bool :=
  String.eqb k "" || contains_char slash k || starts_with_char dot k
  || starts_with_char tilde k.

(** The mounts the specification excludes: a host path as source, or no
    source at all (an empty one, a mapping without ["source"], an entry
    that is neither a string nor a mapping). *)
Definition excluded_mount (v : pyval) : bool :=
  match v with
  | PStr s => excluded_source (before_colon s)
  | PDict m =>
      match assoc m "source" with
      | None => true
      | Some (PStr k) => excluded_source k
      | Some _ => false
      end
  | _ => true
  end.

(** A descriptor without the excluded mounts of its services. *)
Definition update_key (k : string) (g : pyval -> pyval) (m : list (string * pyval))
    : list (string * pyval) :=
  map (fun kv => if String.eqb (fst kv) k then (fst kv, g (snd kv)) else kv) m.

Definition on_dict (g : list (string * pyval) -> list (string * pyval)) (v : pyval)
    : pyval :=
  match v with
  | PDict m => PDict (g m)
  | _ => v
  end.

Definition prune_volumes (vols : pyval) : pyval :=
  match vols with
  | PList l => PList (filter (fun v => excluded_mount v = false) l)
  | _ => vols
  end.

Definition prune_service (svc : pyval) : pyval :=
  on_dict (update_key "volumes" prune_volumes) svc.

Definition prune_services (services : pyval) : pyval :=
  on_dict (map (fun kv => (fst kv, prune_service (snd kv)))) services.

Definition prune (data : pyval) : pyval :=
  on_dict (update_key "services" prune_services) data.

(** The key of a mount that survives the exclusion. *)
Definition volume_key (v : pyval) : option string :=
  match v with
  | PStr s =>
      if excluded_source (before_colon s) then None else Some (before_colon s)
  | PDict m =>
      match assoc m "source" with
      | Some (PStr k) => if excluded_source k then None else Some k
      | _ => None
      end
  | _ => None
  end.

(** The name a key resolves to: the external name of its top-level
    definition when that has one, the key itself otherwise. *)
Definition resolved_name (top_volumes : list (string * pyval)) (key : string) : string :=
  match assoc top_volumes key with
  | Some (PDict d) =>
      match assoc d "name" with
      | Some (PStr n) => n
      | _ => key
      end
  | _ => key
  end.

Definition services_of (data : pyval) : list (string * pyval) :=
  match data with
  | PDict m => match assoc m "services" with Some (PDict s) => s | _ => [] end
  | _ => []
  end.

Definition volumes_of (data : pyval) : list (string * pyval) :=
  match data with
  | PDict m => match assoc m "volumes" with Some (PDict t) => t | _ => [] end
  | _ => []
  end.

Definition service_mounts (svc : pyval) : list pyval :=
  match svc with
  | PDict sm => match assoc sm "volumes" with Some (PList l) => l | _ => [] end
  | _ => []
  end.

(** [name] is the resolved name of a surviving mount of some service. *)
Definition referenced (data : pyval) (name : string) : Prop :=
  exists svc v key,
    svc ∈ (services_of data).*2 /\ v ∈ service_mounts svc /\
    volume_key v = Some key /\ resolved_name (volumes_of data) key = name.

(** The descriptors of the specification: a mapping of services, each
    empty or a mapping whose ["volumes"] is a list of strings and of
    mappings with a string (or empty) ["source"], and a mapping of volume
    definitions whose ["name"], where there is one, is a string. *)
Definition wf_mount (v : pyval) : bool :=
  match v with
  | PDict m =>
      match assoc m "source" with
      | Some (PStr _) | None => true
      | Some s => negb (truthy s)
      end
  | _ => true
  end.

Definition wf_service (svc : pyval) : bool :=
  match svc with
  | PDict sm =>
      match assoc sm "volumes" with
      | None => true
      | Some (PList l) => forallb wf_mount l
      | Some _ => false
      end
  | _ => negb (truthy svc)
  end.

Definition wf_volume_def (d : pyval) : bool :=
  match d with
  | PDict dm =>
      match assoc dm "name" with
      | Some (PStr _) | None => true
      | Some _ => false
      end
  | _ => true
  end.

Definition wf_descriptor (data : pyval) : bool :=
  match data with
  | PDict m =>
      match assoc m "services" with
      | None => true
      | Some (PDict s) => forallb (fun kv => wf_service (snd kv)) s
      | Some _ => false
      end
      &&
      match assoc m "volumes" with
      | None => true
      | Some (PDict t) => forallb (fun kv => wf_volume_def (snd kv)) t
      | Some _ => false
      end
  | _ => negb (truthy data)
  end.

(** The names of a list of mounts, and a set of names kept as a list. *)
Definition mount_names (t : list (string * pyval)) (l : list pyval) : list string :=
  omap (fun v => resolved_name t <$> volume_key v) l.

Definition add_name (ns : list string) (n : string) : list string :=
  if decide (n ∈ ns) then ns else ns ++ [n].


(** The staging directory and the tree archive of a run with token [ts]. *)
Definition staging_dir (project_dir : path) (ts : string) : path :=
  path_join project_dir (".docker-backup-temp-" +:+ ts).

Definition tree_archive (project_dir : path) (ts : string) : path :=
  path_join (path_parent project_dir)
    ((path_name project_dir +:+ "-project-" +:+ ts) +:+ ".zip").

(** Every entry of the file system lies in an entry. *)
Definition fs_wf (f : gmap path node) : bool :=
  forallb (fun p => exists_ f (path_parent p)) (map fst (map_to_list f)).

(** The creation of a directory. *)
Definition creates_dir (ev : event) : Prop :=
  match ev with
  | EvFs (OpMkdir _) None => True
  | _ => False
  end.

(** The events of the stages of [backup_project]. *)
Definition stage_event (ev : event) : Prop :=
  match ev with
  | EvFs (OpOpen _) _ | EvFs (OpMakeArchive _ _) _ | EvArchived _ _
  | EvRun (ComposeVersion _) _ | EvRun (ComposeDown _ _) _
  | EvRun (ComposeUp _ _) _ | EvRun (DockerExport _ _ _) _ => True
  | _ => False
  end.

Definition rotation_event (ev : event) : Prop :=
  match ev with
  | EvRun (RcloneLsjson _) _ | EvRun (RcloneDeletefile _) _ => True
  | _ => False
  end.


Definition not_mkdir (ev : event) : Prop :=
  match ev with
  | EvFs (OpMkdir _) _ => False
  | _ => True
  end.


(** Every computation appends to the trace; [emits P m] says that what
    [m] appends satisfies [P]. *)
Definition emits {A} (P : event -> Prop) (m : M A) : Prop :=
  forall w, exists evs, trace (m w).2 = trace w ++ evs /\ Forall P evs.


(** Before the upload nothing is deleted and the remote is not touched. *)
Definition before_upload (ev : event) : Prop :=
  match ev with
  | EvFs (OpRmtree _) _ | EvFs (OpUnlink _) _
  | EvRun (RcloneCopy _ _) _ | EvRun (RcloneLsjson _) _
  | EvRun (RcloneDeletefile _) _ => False
  | _ => True
  end.

(** What the handler of lines 353-358 prints. *)
Definition report_events (temp_dir : path) (final_zip_path : option path)
    (o : outcome path) : list event :=
  match o with
  | Exc e => [EvReport e temp_dir final_zip_path]
  | _ => []
  end.

(** The events of lines 331-358 and the outcome of the run: the upload
    fails; the upload succeeds and the staging directory cannot be
    removed; it is removed and the bundle cannot; both are gone (the
    bundle is removed when it exists) and rotation runs. *)
Inductive upload_onwards (temp_dir final_zip_path : path) (dest : string)
    : list event -> outcome path -> Prop :=
| upload_failed rc e :
    rc <> Some 0%Z ->
    upload_onwards temp_dir final_zip_path dest
      [EvRun (RcloneCopy final_zip_path dest) rc;
       EvReport e temp_dir (Some final_zip_path)]
      (Exc e)
| rmtree_failed e :
    upload_onwards temp_dir final_zip_path dest
      [EvRun (RcloneCopy final_zip_path dest) (Some 0%Z);
       EvFs (OpRmtree temp_dir) (Some e);
       EvReport e temp_dir (Some final_zip_path)]
      (Exc e)
| unlink_failed e :
    upload_onwards temp_dir final_zip_path dest
      [EvRun (RcloneCopy final_zip_path dest) (Some 0%Z);
       EvFs (OpRmtree temp_dir) None;
       EvFs (OpUnlink final_zip_path) (Some e);
       EvReport e temp_dir (Some final_zip_path)]
      (Exc e)
| rotated unlinked rot o :
    unlinked = [] \/ unlinked = [EvFs (OpUnlink final_zip_path) None] ->
    Forall rotation_event rot ->
    (o = Ret final_zip_path \/ exists e, o = Exc e) ->
    upload_onwards temp_dir final_zip_path dest
      ([EvRun (RcloneCopy final_zip_path dest) (Some 0%Z);
        EvFs (OpRmtree temp_dir) None]
       ++ unlinked ++ rot ++ report_events temp_dir (Some final_zip_path) o)
      o.

(** A deletion of the cleanup stage that failed. *)
Definition cleanup_failure (ev : event) (e : exn) : Prop :=
  match ev with
  | EvFs (OpRmtree _) (Some e') | EvFs (OpUnlink _) (Some e') => e' = e
  | _ => False
  end.

Definition is_rotation (ev : event) : Prop :=
  match ev with
  | EvRun (RcloneLsjson _) _ | EvRun (RcloneDeletefile _) _ => True
  | _ => False
  end.

(** C8 as the specification states it: after a cleanup failure the run
    still lists the remote for rotation. *)
Definition cleanup_failure_not_escalated (E : env) (project_dir : path)
    (remote remote_path : string) (keep : Z) (w : world) : Prop :=
  forall evs ev e,
    trace (backup_project E project_dir remote remote_path keep w).2
    = trace w ++ evs ->
    ev ∈ evs -> cleanup_failure ev e ->
    exists target rc, EvRun (RcloneLsjson target) rc ∈ evs.

(** The world after the banner of a project and after the record of its
    failure (lines 36-38 and 42-43). *)
Definition started (p : path) (w : world) : world :=
  World (fs w) (trace w ++ [EvStart p]).
Definition recorded (p : path) (e : exn) (w : world) : world :=
  World (fs w) (trace w ++ [EvFailed p e]).

(** The batch as the specification describes it: the workflow runs for
    one project after the other, each from the world the one before left;
    a project succeeds ([None]) or fails with an exception that is
    recorded. *)
Inductive batch_runs {A} (run_project : path -> M A)
    : list path -> world -> list (path * option exn) -> world -> Prop :=
| batch_done w : batch_runs run_project [] w [] w
| batch_succeeded p rest w a w1 results w' :
    run_project p (started p w) = (Ret a, w1) ->
    batch_runs run_project rest w1 results w' ->
    batch_runs run_project (p :: rest) w ((p, None) :: results) w'
| batch_failed p rest w e w1 results w' :
    run_project p (started p w) = (Exc e, w1) ->
    batch_runs run_project rest (recorded p e w1) results w' ->
    batch_runs run_project (p :: rest) w ((p, Some e) :: results) w'.

(** The failed projects, by name, with their errors. *)
Definition failed_projects (results : list (path * option exn)) : list (string * exn) :=
  omap (fun r => (fun e => (path_name (fst r), e)) <$> snd r) results.

(** C9 as the specification states it: every subdirectory is run, and the
    batch succeeds when none failed and otherwise raises the aggregate of
    the failures. *)
Definition batch_isolates_failures (E : env) (remote remote_path : string)
    (root : path) (w : world) : Prop :=
  let r := backup_all_projects E remote remote_path root w in
  exists results,
    batch_runs (fun p => backup_project E p remote remote_path 4)
      (iter_project_dirs (fs w) root) w results r.2 /\
    r.1 = match failed_projects results with
          | [] => Ret tt
          | failures => Exc (CompletedWithFailures failures)
          end.

(** ** Order of the sort keys *)

Definition same_kind (a b : datetime) : bool :=
  match a, b with
  | Naive _, Naive _ | Aware _, Aware _ => true
  | _, _ => false
  end.

(** [a <= b] for two keys of the same kind. *)
Definition datetime_le (a b : datetime) : Prop :=
  match a, b with
  | Naive x, Naive y => (x <= y)%N
  | Aware x, Aware y => (x <= y)%Z
  | _, _ => False
  end.

Definition key_le (x y : datetime * pyval) : Prop := datetime_le (fst x) (fst y).

Global Instance datetime_eq_dec : EqDecision datetime.
Proof. solve_decision. Defined.

(** The entries with key [k], in the order of the list. *)
Definition with_key (k : datetime) (l : list (datetime * pyval))
    : list (datetime * pyval) :=
  filter (fun x => fst x = k) l.

(** A list whose keys are all of the kind of [k]. *)
Definition of_kind (k : datetime) (l : list (datetime * pyval)) : Prop :=
  Forall (fun y => same_kind k (fst y) = true) l.


(** The entries rotation looks at: a file (no truthy [IsDir]) whose
    [Path] ends in [".zip"]. *)
Definition is_zip_file (entry : pyval) : bool :=
  match entry with
  | PDict m =>
      negb (truthy (default PNone (assoc m "IsDir")))
      && ends_with ".zip" (py_str (default (PStr "") (assoc m "Path")))
  | _ => false
  end.

(** The [Path] of an entry. *)
Definition entry_path (entry : pyval) : string :=
  match entry with
  | PDict m => py_str (default PNone (assoc m "Path"))
  | _ => ""
  end.

(** The command that deletes an entry. *)
Definition deletion (remote remote_path : string) (entry : pyval) : event :=
  EvRun (RcloneDeletefile (delete_target remote remote_path (entry_path entry)))
    (Some 0%Z).

(** ** Worked inputs *)

Definition stamp : string := "20240101-120000".

(** [fromisoformat] at the times of the examples: midnight UTC of the
    first days of January 2024, day 738885 after [datetime.min].  Every
    other string is rejected, as Python before 3.11 rejects the fractions
    of nine digits that rclone prints. *)
Definition january (day : Z) : datetime := Aware ((738884 + day) * 86400000000).

Definition example_times : list (string * datetime) :=
  [("2024-01-01T00:00:00+00:00", january 1);
   ("2024-01-02T00:00:00+00:00", january 2);
   ("2024-01-03T00:00:00+00:00", january 3);
   ("2024-01-04T00:00:00+00:00", january 4);
   ("2024-01-05T00:00:00+00:00", january 5);
   ("2024-01-06T00:00:00+00:00", january 6)].

Definition example_fromisoformat (s : string) : option datetime :=
  snd <$> List.find (fun kv => String.eqb (fst kv) s) example_times.

(** An environment in which every command and file operation succeeds
    and the remote lists [entries]. *)
Definition E_listing (entries : pyval) : env := {|
  clock := fun _ => stamp;
  run := fun _ _ => Some 0%Z;
  lsjson_stderr := fun _ => "";
  lsjson_stdout := fun _ => Some entries;
  io_fails := fun _ _ => false;
  fromisoformat := example_fromisoformat |}.

Definition E_ok : env := E_listing (PList []).

(** The export of volume [logs] fails. *)
Definition E_export_fails : env := {|
  clock := fun _ => stamp;
  run := fun _ cmd =>
           match cmd with
           | DockerExport "logs" _ _ => Some 1%Z
           | _ => Some 0%Z
           end;
  lsjson_stderr := fun _ => "";
  lsjson_stdout := fun _ => Some (PList []);
  io_fails := fun _ _ => false;
  fromisoformat := example_fromisoformat |}.

(** The staging directory cannot be removed. *)
Definition E_rmtree_fails : env := {|
  clock := fun _ => stamp;
  run := fun _ _ => Some 0%Z;
  lsjson_stderr := fun _ => "";
  lsjson_stdout := fun _ => Some (PList []);
  io_fails := fun _ op => match op with OpRmtree _ => true | _ => false end;
  fromisoformat := example_fromisoformat |}.

(** The project [shop] of the specification. *)
Definition shop : pyval :=
  PDict [("services", PDict [
     ("web", PDict [("volumes", PList [PStr "data:/var/data"])]);
     ("db", PDict [("volumes",
                    PList [PStr "dbdata:/var/lib/db"; PStr "./conf:/etc/conf"])])]);
    ("volumes", PDict [("data", PNone);
                       ("dbdata", PDict [("name", PStr "shop_dbdata")])])].

Definition fs_shop : gmap path node :=
  list_to_map [([], Dir); (["srv"], Dir); (["srv"; "shop"], Dir);
    (["srv"; "shop"; "docker-compose.yml"], File (Text (Some shop)))].

(** A project whose directory name has a dot, with two volumes; next to
    it and in it lies a file [my.zip]. *)
Definition two_volumes : pyval :=
  PDict [("services", PDict [
     ("web", PDict [("volumes", PList [PStr "data:/var/data"; PStr "logs:/var/log"])])])].

Definition fs_dotted : gmap path node :=
  list_to_map [([], Dir); (["srv"], Dir); (["srv"; "my.app"], Dir);
    (["srv"; "my.zip"], File Blob); (["srv"; "my.app"; "my.zip"], File Blob);
    (["srv"; "my.app"; "docker-compose.yml"], File (Text (Some two_volumes)))].

Definition dotted_staging : path := ["srv"; "my.app"; ".docker-backup-temp-20240101-120000"].

(** Two projects [a] and [b]; the staging directory of [a] for the token
    of the run exists already. *)
Definition fs_collision : gmap path node :=
  list_to_map [([], Dir); (["srv"], Dir);
    (["srv"; "a"], Dir);
    (["srv"; "a"; "docker-compose.yml"], File (Text (Some shop)));
    (["srv"; "a"; ".docker-backup-temp-20240101-120000"], Dir);
    (["srv"; "b"], Dir);
    (["srv"; "b"; "docker-compose.yml"], File (Text (Some shop)))].

(** Two projects; [a] has no compose file. *)
Definition fs_two_projects : gmap path node :=
  list_to_map [([], Dir); (["srv"], Dir);
    (["srv"; "a"], Dir);
    (["srv"; "b"], Dir);
    (["srv"; "b"; "docker-compose.yml"], File (Text (Some shop)))].

(** A root without subdirectories. *)
Definition fs_no_projects : gmap path node :=
  list_to_map [([], Dir); (["srv"], Dir); (["srv"; "notes.txt"], File Blob)].

(** Remote listings, as [rclone lsjson] prints them. *)
Definition remote_entry (name mod_time : string) : pyval :=
  PDict [("Path", PStr name); ("Name", PStr name); ("ModTime", PStr mod_time);
         ("IsDir", PBool false)].

Definition listing_missing_time : pyval :=
  PList [remote_entry "a.zip" ""; remote_entry "b.zip" "2024-01-01T00:00:00Z"].

Definition listing_unparseable_time : pyval :=
  PList [remote_entry "old.zip" "2024-01-01T00:00:00Z";
         remote_entry "new.zip" "2024-01-02T00:00:00Z";
         remote_entry "odd.zip" "2024-01-03T10:30:00.123456789Z"].

Definition listing_six : pyval :=
  PList [remote_entry "c.zip" "2024-01-03T00:00:00Z";
         remote_entry "a.zip" "2024-01-01T00:00:00Z";
         remote_entry "notes.txt" "2024-01-01T00:00:00Z";
         remote_entry "f.zip" "2024-01-06T00:00:00Z";
         PDict [("Path", PStr "old.zip"); ("IsDir", PBool true)];
         remote_entry "b.zip" "2024-01-02T00:00:00Z";
         remote_entry "e.zip" "2024-01-05T00:00:00Z";
         remote_entry "d.zip" "2024-01-04T00:00:00Z"].

(** What a trace shows. *)
Definition uploads (t : list event) : list path :=
  omap (fun ev => match ev with
                  | EvRun (RcloneCopy file_path _) _ => Some file_path
                  | _ => None
                  end) t.

Definition stops (t : list event) : nat :=
  length (List.filter (fun ev => match ev with
                                 | EvRun (ComposeDown _ _) _ => true
                                 | _ => false
                                 end) t).

Definition starts (t : list event) : nat :=
  length (List.filter (fun ev => match ev with
                                 | EvRun (ComposeUp _ _) _ => true
                                 | _ => false
                                 end) t).

Definition deletions (t : list event) : list string :=
  omap (fun ev => match ev with
                  | EvRun (RcloneDeletefile target) _ => Some target
                  | _ => None
                  end) t.

(** The deletion of a local artifact, attempted or done. *)
Definition local_deletion (ev : event) : Prop :=
  match ev with
  | EvFs (OpRmtree _) _ | EvFs (OpUnlink _) _ => True
  | _ => False
  end.

(** ** More of the two scripts *)

(** A descriptor with services [s] and top-level volume definitions [t]. *)
Definition descriptor (s t : list (string * pyval)) : pyval :=
  PDict [("services", PDict s); ("volumes", PDict t)].

(** A probe for the compose command. *)
Definition is_probe (ev : event) : Prop :=
  match ev with
  | EvRun (ComposeVersion _) _ => True
  | _ => False
  end.

(** The exception of [run_cmd] for what [subprocess.run] gave. *)
Definition cmd_error (cmd : command) (rc : option Z) : exn :=
  match rc with
  | Some c => CommandFailed c cmd
  | None => FileNotFoundError
  end.

(** The export command of a volume and its successful run. *)
Definition export_cmd (temp_dir : path) (ts : string) (vol : string) : command :=
  DockerExport vol temp_dir ("volume-" +:+ vol +:+ "-" +:+ ts +:+ ".tar.gz").

Definition exported (temp_dir : path) (ts : string) (vol : string) : event :=
  EvRun (export_cmd temp_dir ts vol) (Some 0%Z).

(** A name with a dot that is neither its first nor its last character:
    [with_suffix] takes the text from the last such dot as a suffix. *)
Definition inner_dot (name : string) : bool :=
  match split_last_dot name with
  | Some (String _ _, String _ _) => true
  | _ => false
  end.

(** Reading the compose file and probing for the compose command. *)
Definition setup_event (ev : event) : Prop :=
  match ev with
  | EvFs (OpOpen _) _ | EvRun (ComposeVersion _) _ => True
  | _ => False
  end.

(** The services of a project brought down and up again. *)
Definition down (plugin : bool) (project_dir : path) : event :=
  EvRun (ComposeDown plugin project_dir) (Some 0%Z).
Definition up (plugin : bool) (project_dir : path) : event :=
  EvRun (ComposeUp plugin project_dir) (Some 0%Z).

(** Where [create_final_zip_from_temp] writes the bundle, and the path
    it gives back. *)
Definition final_bundle (project_dir : path) (ts : string) : path :=
  path_join project_dir ((path_name project_dir +:+ "-" +:+ ts) +:+ ".zip").
Definition final_zip (project_dir : path) (ts : string) : path :=
  path_join project_dir (with_suffix_zip (path_name project_dir +:+ "-" +:+ ts)).

(** The events of lines 299-328 and their outcome: the run fails before
    the services are touched; stopping them fails; they are stopped and
    an export fails; all exports are made and the restart fails; the
    services are back and the bundle cannot be written; it is written. *)
Inductive stage_run (project_dir temp_dir : path) (ts : string)
    : list event -> outcome path -> Prop :=
| stage_setup_failed setup e :
    Forall setup_event setup ->
    stage_run project_dir temp_dir ts setup (Exc e)
| stage_down_failed setup plugin rc :
    Forall setup_event setup -> rc <> Some 0%Z ->
    stage_run project_dir temp_dir ts
      (setup ++ [EvRun (ComposeDown plugin project_dir) rc])
      (Exc (cmd_error (ComposeDown plugin project_dir) rc))
| stage_export_failed setup plugin before vol rc :
    Forall setup_event setup -> rc <> Some 0%Z ->
    stage_run project_dir temp_dir ts
      (setup ++ down plugin project_dir :: map (exported temp_dir ts) before
         ++ [EvRun (export_cmd temp_dir ts vol) rc])
      (Exc (cmd_error (export_cmd temp_dir ts vol) rc))
| stage_up_failed setup plugin names rc :
    Forall setup_event setup -> rc <> Some 0%Z ->
    stage_run project_dir temp_dir ts
      (setup ++ down plugin project_dir :: map (exported temp_dir ts) names
         ++ [EvRun (ComposeUp plugin project_dir) rc])
      (Exc (cmd_error (ComposeUp plugin project_dir) rc))
| stage_bundle_failed setup plugin names e :
    Forall setup_event setup ->
    stage_run project_dir temp_dir ts
      (setup ++ down plugin project_dir :: map (exported temp_dir ts) names
         ++ [up plugin project_dir;
             EvFs (OpMakeArchive (final_bundle project_dir ts) temp_dir) (Some e)])
      (Exc e)
| stage_bundled setup plugin names members :
    Forall setup_event setup ->
    stage_run project_dir temp_dir ts
      (setup ++ down plugin project_dir :: map (exported temp_dir ts) names
         ++ [up plugin project_dir;
             EvFs (OpMakeArchive (final_bundle project_dir ts) temp_dir) None;
             EvArchived (final_bundle project_dir ts) members])
      (Ret (final_zip project_dir ts)).

(** A file operation or its message: no command. *)
Definition local_event (ev : event) : Prop :=
  match ev with
  | EvFs (OpMakeArchive _ _) _ | EvFs (OpMkdir _) _ | EvFs (OpMove _ _) _
  | EvArchived _ _ => True
  | _ => False
  end.

Definition is_export (ev : event) : Prop :=
  match ev with
  | EvRun (DockerExport _ _ _) _ => True
  | _ => False
  end.

Definition is_up (ev : event) : Prop :=
  match ev with
  | EvRun (ComposeUp _ _) _ => True
  | _ => False
  end.

Definition is_upload (ev : event) : Prop :=
  match ev with
  | EvRun (RcloneCopy _ _) _ => True
  | _ => False
  end.

(** How a run ends after the stage of lines 299-328 gave [o]: with the
    report of its error, or with the events of the upload onwards. *)
Definition after_stage (temp_dir : path) (dest : string) (o : outcome path)
    (post : list event) (result : outcome path) : Prop :=
  match o with
  | Ret p => upload_onwards temp_dir p dest post result
  | Exc e => post = [EvReport e temp_dir None] /\ result = Exc e
  | Exit _ => False
  end.

(** ** The entry points *)

(** [main] of [backup.py] (lines 361-397), after the arguments are
    parsed: any exception of the workflow ends the script with status 1. *)
Module backup.
Definition main (E : env) (project_dir : path) (rclone_remote remote_path : string)
    (backups_to_keep : Z) : M unit :=
  try_except
    (backup_project E project_dir rclone_remote remote_path backups_to_keep ;; ret tt)%M
    (fun _ => sys_exit 1).
End backup.

(** [main] of [backup_all.py] (lines 50-76), after the arguments are
    parsed. *)
Module backup_all.
Definition main (E : env) (rclone_remote remote_path : string) (projects_dir : path)
    : M unit :=
  try_except (backup_all_projects E rclone_remote remote_path projects_dir)
    (fun _ => sys_exit 1).
End backup_all.

(** Every project of the list returned. *)
Definition all_returned (dirs : list path) : list (path * option exn) :=
  map (fun p => (p, None)) dirs.

(** A project [blog] with the volumes [data] and [logs]. *)
Definition fs_blog : gmap path node :=
  list_to_map [([], Dir); (["srv"], Dir); (["srv"; "blog"], Dir);
    (["srv"; "blog"; "docker-compose.yml"], File (Text (Some two_volumes)))].

(** The services and the volume definitions of [shop]. *)
Definition shop_services : list (string * pyval) :=
  [("web", PDict [("volumes", PList [PStr "data:/var/data"])]);
   ("db", PDict [("volumes",
                  PList [PStr "dbdata:/var/lib/db"; PStr "./conf:/etc/conf"])])].
Definition shop_volume_defs : list (string * pyval) :=
  [("data", PNone); ("dbdata", PDict [("name", PStr "shop_dbdata")])].

#[local] Set Warnings "-clear-no-such-hyp".

(** * Properties *)

(** ** Volume discovery *)

Lemma assoc_update_key k g m k' :
  assoc (update_key k g m) k' =
  if String.eqb k k' then g <$> assoc m k' else assoc m k'.
Proof.
  induction m as [|[k0 v] m IH]; simpl.
  - by destruct (String.eqb k k').
  - destruct (String.eqb k0 k) eqn:Hk0; simpl.
    + apply String.eqb_eq in Hk0. subst k0.
      destruct (String.eqb k k') eqn:Hk; simpl; [done|].
      rewrite IH. done.
    + destruct (String.eqb k0 k') eqn:Hk'; simpl.
      * apply String.eqb_eq in Hk'. subst k0.
        rewrite String.eqb_sym, Hk0. done.
      * apply IH.
Qed.

Lemma truthy_on_dict_map (h : string * pyval -> string * pyval) v :
  truthy (on_dict (map h) v) = truthy v.
Proof. destruct v as [| | | | |[|kv m]]; done. Qed.

Lemma truthy_update_key k g v :
  truthy (on_dict (update_key k g) v) = truthy v.
Proof. apply truthy_on_dict_map. Qed.

Lemma excluded_mount_skipped top_volumes v :
  excluded_mount v = true -> classify_mount top_volumes v = Ok Skipped.
Proof.
  unfold excluded_mount, classify_mount, excluded_source, host_path.
  destruct v as [| | |s|l|m]; simpl; try done.
  - destruct (String.eqb (before_colon s) ""); simpl; [done|].
    intros ->. done.
  - destruct (assoc m "source") as [[| | |k| |]|]; simpl; try done.
    destruct (String.eqb k ""); simpl; [done|]. intros ->. done.
Qed.

Lemma scan_mounts_prune top_volumes l acc :
  scan_mounts top_volumes (filter (fun v => excluded_mount v = false) l) acc
  = scan_mounts top_volumes l acc.
Proof.
  revert acc. induction l as [|v l IH]; intros acc; [done|].
  rewrite filter_cons. case_decide as Hv; simpl.
  - destruct (classify_mount top_volumes v) as [[|name]|e]; simpl; auto.
  - apply not_false_is_true in Hv.
    rewrite (excluded_mount_skipped _ _ Hv). simpl. apply IH.
Qed.

Lemma scan_service_prune top_volumes svc acc :
  scan_service top_volumes (prune_service svc) acc
  = scan_service top_volumes svc acc.
Proof.
  unfold scan_service, prune_service, or_empty_dict.
  rewrite truthy_update_key.
  destruct (truthy svc) eqn:Ht; [|done].
  destruct svc as [| | | | |m]; try done. simpl.
  rewrite assoc_update_key. simpl.
  destruct (assoc m "volumes") as [[| | | |l|]|]; simpl; try done.
  apply scan_mounts_prune.
Qed.

Lemma scan_services_prune top_volumes m acc :
  scan_services top_volumes (map (fun kv => (fst kv, prune_service (snd kv))) m) acc
  = scan_services top_volumes m acc.
Proof.
  revert acc. induction m as [|[k svc] m IH]; intros acc; [done|]. simpl.
  rewrite scan_service_prune.
  destruct (scan_service top_volumes svc acc); simpl; auto.
Qed.

Lemma named_volumes_of_prune data :
  named_volumes_of (prune data) = named_volumes_of data.
Proof.
  unfold named_volumes_of, prune, or_empty_dict.
  rewrite truthy_update_key.
  destruct (truthy data) eqn:Ht; [|done].
  destruct data as [| | | | |m]; try done. simpl.
  rewrite !assoc_update_key. simpl.
  destruct (assoc m "services") as [services|]; simpl; [|done].
  destruct services as [| | | | |svcs]; simpl; try done.
  rewrite scan_services_prune. done.
Qed.

(** C1: a mount whose source holds ["/"] or starts with ["."] or ["~"],
    and a mount without a source (an empty one, a mapping without
    ["source"], an entry that is neither a string nor a mapping), is
    skipped whatever the top-level volume definitions are, and volume
    discovery gives for a descriptor what it gives for the descriptor
    without these mounts. *)
Theorem C1_host_paths_and_sourceless_mounts_excluded :
  (forall top_volumes v,
     excluded_mount v = true -> classify_mount top_volumes v = Ok Skipped)
  /\ (forall data, named_volumes_of (prune data) = named_volumes_of data).
Proof.
  split; [apply excluded_mount_skipped | apply named_volumes_of_prune].
Qed.

Lemma assoc_Some_elem m k v : assoc m k = Some v -> (k, v) ∈ m.
Proof.
  induction m as [|[k0 v0] m IH]; simpl; [done|].
  destruct (String.eqb k0 k) eqn:Hk.
  - apply String.eqb_eq in Hk. intros [= ->]. subst. left.
  - intros H. right. auto.
Qed.

Lemma existsb_py_eqb_names n ns :
  existsb (py_eqb (PStr n)) (map PStr ns) = bool_decide (n ∈ ns).
Proof.
  induction ns as [|m ns IH]; simpl; [done|].
  rewrite IH. destruct (String.eqb n m) eqn:Hnm; simpl.
  - apply String.eqb_eq in Hnm. subst m.
    symmetry. apply bool_decide_eq_true. left.
  - apply String.eqb_neq in Hnm.
    apply bool_decide_ext. rewrite elem_of_cons. naive_solver.
Qed.

Lemma set_add_names n ns :
  set_add (PStr n) (map PStr ns) = map PStr (add_name ns n).
Proof.
  unfold set_add, add_name. rewrite existsb_py_eqb_names.
  case_bool_decide; case_decide; try done.
  by rewrite map_app.
Qed.

Lemma classify_mount_wf t v :
  forallb (fun kv => wf_volume_def (snd kv)) t = true ->
  wf_mount v = true ->
  classify_mount (PDict t) v =
  Ok (match volume_key v with
      | Some k => Added (PStr (resolved_name t k))
      | None => Skipped
      end).
Proof.
  intros Ht Hv.
  assert (Hstr : forall k,
    (if negb (truthy (PStr k)) then Ok Skipped
     else if host_path k then Ok Skipped
     else (name <- resolve_volume (PDict t) k ;;
           if hashable name then Ok (Added name) else Raise TypeError)%result)
    = Ok (match (if excluded_source k then None else Some k) with
          | Some k => Added (PStr (resolved_name t k))
          | None => Skipped
          end)).
  { intros k. unfold excluded_source, host_path. simpl.
    destruct (String.eqb k ""); simpl; [done|].
    destruct (contains_char slash k || starts_with_char dot k
              || starts_with_char tilde k); [done|].
    unfold resolve_volume, resolved_name. simpl. unfold has_key.
    destruct (assoc t k) as [d|] eqn:Hd; simpl; [|done].
    apply assoc_Some_elem in Hd.
    rewrite forallb_forall in Ht.
    apply list_elem_of_In, Ht in Hd. simpl in Hd.
    destruct d as [| | | | |dm]; simpl; try done.
    unfold wf_volume_def in Hd.
    destruct (assoc dm "name") as [[| | |n| |]|]; simpl; done. }
  unfold classify_mount, volume_key.
  destruct v as [| | |s|l|m]; simpl; try done.
  - apply Hstr.
  - simpl in Hv.
    destruct (assoc m "source") as [src|] eqn:Hs; simpl; [|done].
    destruct src as [| | |k| |]; try (apply negb_true_iff in Hv; simpl in *;
      rewrite ?Hv; done).
    apply Hstr.
Qed.

Lemma scan_mounts_wf t l ns :
  forallb (fun kv => wf_volume_def (snd kv)) t = true ->
  forallb wf_mount l = true ->
  scan_mounts (PDict t) l (map PStr ns)
  = Ok (map PStr (foldl add_name ns (mount_names t l))).
Proof.
  intros Ht. revert ns. induction l as [|v l IH]; intros ns Hl; [done|].
  simpl in Hl. apply andb_true_iff in Hl as [Hv Hl]. simpl.
  rewrite (classify_mount_wf _ _ Ht Hv). unfold mount_names. simpl.
  destruct (volume_key v) as [k|]; simpl.
  - rewrite set_add_names. by apply IH.
  - by apply IH.
Qed.

Lemma scan_service_wf t svc ns :
  forallb (fun kv => wf_volume_def (snd kv)) t = true ->
  wf_service svc = true ->
  scan_service (PDict t) svc (map PStr ns)
  = Ok (map PStr (foldl add_name ns (mount_names t (service_mounts svc)))).
Proof.
  intros Ht Hs. unfold scan_service, or_empty_dict, service_mounts.
  destruct svc as [|[]|z|s'|[|]|sm]; simpl in Hs; try done.
  - simpl. by destruct (z =? 0)%Z.
  - simpl. by destruct (String.eqb s' "").
  - destruct (truthy (PDict sm)) eqn:Htr.
    + simpl. destruct (assoc sm "volumes") as [[| | | |l|]|]; simpl; try done.
      by apply scan_mounts_wf.
    + destruct sm; [done|discriminate].
Qed.

Lemma scan_services_wf t s ns :
  forallb (fun kv => wf_volume_def (snd kv)) t = true ->
  forallb (fun kv => wf_service (snd kv)) s = true ->
  scan_services (PDict t) s (map PStr ns)
  = Ok (map PStr (foldl add_name ns
                    (mount_names t (concat (map service_mounts s.*2))))).
Proof.
  intros Ht. revert ns. induction s as [|[k svc] s IH]; intros ns Hs; [done|].
  simpl in Hs. apply andb_true_iff in Hs as [Hsvc Hs]. simpl.
  rewrite (scan_service_wf _ _ _ Ht Hsvc). simpl.
  rewrite IH by done. unfold mount_names.
  by rewrite omap_app, foldl_app.
Qed.

Lemma foldl_add_name_elem ns names n :
  n ∈ foldl add_name ns names <-> n ∈ ns \/ n ∈ names.
Proof.
  revert ns. induction names as [|m names IH]; intros ns; simpl.
  - rewrite elem_of_nil. naive_solver.
  - rewrite IH, elem_of_cons. unfold add_name. case_decide.
    + naive_solver.
    + rewrite elem_of_app, list_elem_of_singleton. naive_solver.
Qed.

Lemma foldl_add_name_NoDup ns names :
  NoDup ns -> NoDup (foldl add_name ns names).
Proof.
  revert ns. induction names as [|m names IH]; intros ns Hns; simpl; [done|].
  apply IH. unfold add_name. case_decide; [done|].
  apply NoDup_app. split_and!; [done| |apply NoDup_singleton].
  intros x Hx ->%list_elem_of_singleton. done.
Qed.

Lemma all_strings_names ns : all_strings (map PStr ns) = Some ns.
Proof.
  unfold all_strings. induction ns as [|n ns IH]; [done|].
  simpl. change (mapM _ (map PStr ns)) with (all_strings (map PStr ns)) in *.
  unfold all_strings in *. by rewrite IH.
Qed.

Lemma py_sorted_names ns :
  NoDup ns ->
  exists l, py_sorted (map PStr ns) = Ok (map PStr l) /\
            Sorted String.le l /\ NoDup l /\ (forall n, n ∈ l <-> n ∈ ns).
Proof.
  intros Hns. destruct ns as [|a [|b ns]].
  - exists []. split_and!; [done|constructor|constructor|done].
  - exists [a]. split_and!; [done|repeat constructor|done|done].
  - exists (merge_sort String.le (a :: b :: ns)).
    assert (Hp : merge_sort String.le (a :: b :: ns) ≡ₚ a :: b :: ns)
      by apply merge_sort_Permutation.
    split_and!.
    + change (map PStr (a :: b :: ns)) with (PStr a :: PStr b :: map PStr ns).
      unfold py_sorted.
      change (PStr a :: PStr b :: map PStr ns) with (map PStr (a :: b :: ns)).
      by rewrite all_strings_names.
    + apply (Sorted_merge_sort _).
    + by rewrite Hp.
    + intros n. by rewrite Hp.
Qed.

Lemma referenced_mount_names data n :
  referenced data n <->
  n ∈ mount_names (volumes_of data)
        (concat (map service_mounts (services_of data).*2)).
Proof.
  unfold referenced, mount_names. rewrite list_elem_of_omap. split.
  - intros (svc & v & key & Hsvc & Hv & Hk & Hn).
    exists v. rewrite Hk. simpl. split; [|by rewrite Hn].
    apply list_elem_of_In, in_concat. exists (service_mounts svc).
    rewrite <- !list_elem_of_In. split; [|done].
    apply list_elem_of_fmap. eauto.
  - intros (v & Hv & Hn).
    apply list_elem_of_In, in_concat in Hv as (l & Hl & Hv).
    apply list_elem_of_In in Hl, Hv.
    apply list_elem_of_fmap in Hl as (svc & -> & Hsvc).
    destruct (volume_key v) as [key|] eqn:Hk; simpl in Hn; [|done].
    injection Hn as <-. exists svc, v, key. done.
Qed.

(** C2: for a descriptor of the specification, volume discovery returns
    the list of the resolved names of the surviving mounts of all
    services, sorted and without duplicates: a key with a top-level
    definition that carries an external name gives that name, any other
    key gives itself, and a name referenced several times appears once. *)
Theorem C2_sorted_distinct_resolved_names (data : pyval) :
  wf_descriptor data = true ->
  exists l : list string,
    named_volumes_of data = Ok (map PStr l) /\
    Sorted String.le l /\ NoDup l /\
    (forall n, n ∈ l <-> referenced data n).
Proof.
  intros Hwf.
  assert (Hscan : exists ns,
    (services <- py_get (or_empty_dict data) "services" (PDict []) ;;
     top_volumes <- py_get (or_empty_dict data) "volumes" (PDict []) ;;
     items <- py_items services ;;
     scan_services top_volumes items [])%result = Ok (map PStr ns)
    /\ NoDup ns /\ (forall n, n ∈ ns <-> referenced data n)).
  { unfold or_empty_dict.
    destruct (truthy data) eqn:Htr.
    - destruct data as [| | | | |m];
        try (unfold wf_descriptor in Hwf; rewrite Htr in Hwf; discriminate).
      simpl in Hwf. apply andb_true_iff in Hwf as [Hs Ht]. simpl.
      set (s := services_of (PDict m)). set (t := volumes_of (PDict m)).
      assert (Hs' : forallb (fun kv => wf_service (snd kv)) s = true).
      { subst s. simpl. destruct (assoc m "services") as [[| | | | |x]|]; done. }
      assert (Ht' : forallb (fun kv => wf_volume_def (snd kv)) t = true).
      { subst t. simpl. destruct (assoc m "volumes") as [[| | | | |x]|]; done. }
      exists (foldl add_name [] (mount_names t (concat (map service_mounts s.*2)))).
      split_and!.
      + rewrite <- (scan_services_wf t s [] Ht' Hs'). subst s t. simpl.
        destruct (assoc m "services") as [[| | | | |x]|];
          destruct (assoc m "volumes") as [[| | | | |y]|]; done.
      + apply foldl_add_name_NoDup. constructor.
      + intros n. rewrite foldl_add_name_elem, referenced_mount_names.
        rewrite elem_of_nil. naive_solver.
    - exists []. split_and!; [done|constructor|].
      intros n. rewrite referenced_mount_names.
      assert (services_of data = []) as ->.
      { destruct data as [| | | | |[|??]]; done. }
      done. }
  destruct Hscan as (ns & Hscan & Hnd & Hns).
  destruct (py_sorted_names ns Hnd) as (l & Hl & Hsorted & Hndl & Hel).
  exists l. split_and!; [|done|done|].
  - unfold named_volumes_of.
    destruct (py_get (or_empty_dict data) "services" (PDict [])) as [services|];
      simpl in *; [|done].
    destruct (py_get (or_empty_dict data) "volumes" (PDict [])) as [tv|];
      simpl in *; [|done].
    destruct (py_items services) as [items|]; simpl in *; [|done].
    rewrite Hscan. simpl. done.
  - intros n. by rewrite Hel.
Qed.

(** ** Traces of the workflow *)

Section emits.
Context (P : event -> Prop).

Lemma emits_silent {A} (m : M A) :
  (forall w, trace (m w).2 = trace w) -> emits P m.
Proof. intros H w. exists []. by rewrite H, app_nil_r. Qed.

Lemma emits_ret {A} (a : A) : emits P (ret a).
Proof. by apply emits_silent. Qed.
Lemma emits_raise {A} e : emits P (raise (A:=A) e).
Proof. by apply emits_silent. Qed.
Lemma emits_sys_exit {A} c : emits P (sys_exit (A:=A) c).
Proof. by apply emits_silent. Qed.
Lemma emits_lift {A} (r : result A) : emits P (lift r).
Proof. destruct r; by apply emits_silent. Qed.
Lemma emits_get_fs : emits P get_fs.
Proof. by apply emits_silent. Qed.
Lemma emits_set_fs f : emits P (set_fs f).
Proof. by apply emits_silent. Qed.
Lemma emits_ask {A} (q : list event -> A) : emits P (ask q).
Proof. by apply emits_silent. Qed.

Lemma emits_emit ev : P ev -> emits P (emit ev).
Proof. intros H w. exists [ev]. split; [done|]. by constructor. Qed.

Lemma emits_bind {A B} (m : M A) (k : A -> M B) :
  emits P m -> (forall a, emits P (k a)) -> emits P (bind m k).
Proof.
  intros Hm Hk w. unfold bind.
  destruct (Hm w) as (evs & Ht & HP).
  destruct (m w) as [[a|e|c] w1]; simpl in *; [|by eauto..].
  destruct (Hk a w1) as (evs' & Ht' & HP').
  exists (evs ++ evs'). rewrite Ht', Ht, app_assoc. split; [done|].
  by apply Forall_app.
Qed.

Lemma emits_try_except {A} (m : M A) (h : exn -> M A) :
  emits P m -> (forall e, emits P (h e)) -> emits P (try_except m h).
Proof.
  intros Hm Hh w. unfold try_except.
  destruct (Hm w) as (evs & Ht & HP).
  destruct (m w) as [[a|e|c] w1]; simpl in *; [by eauto| |by eauto].
  destruct (Hh e w1) as (evs' & Ht' & HP').
  exists (evs ++ evs'). rewrite Ht', Ht, app_assoc. split; [done|].
  by apply Forall_app.
Qed.

Lemma emits_fs_attempt E op pre eff :
  (forall r, P (EvFs op r)) -> emits P (fs_attempt E op pre eff).
Proof.
  intros H w. unfold fs_attempt.
  destruct (pre (fs w)); [|destruct (io_fails E (trace w) op)];
    eexists [_]; (split; [done|]); by constructor.
Qed.

Lemma emits_subprocess_run E cmd :
  (forall rc, P (EvRun cmd rc)) -> emits P (subprocess_run E cmd).
Proof. intros H w. eexists [_]. split; [done|]. by constructor. Qed.
End emits.

Lemma emits_impl {A} (P Q : event -> Prop) (m : M A) :
  (forall ev, P ev -> Q ev) -> emits P m -> emits Q m.
Proof.
  intros HPQ Hm w. destruct (Hm w) as (evs & Ht & HP).
  exists evs. split; [done|]. by eapply Forall_impl.
Qed.

Create HintDb emits discriminated.
#[local] Hint Resolve emits_ret emits_raise emits_sys_exit emits_lift emits_get_fs
  emits_set_fs emits_ask : emits.

(** One step through a program: a bind, a handler, a primitive, or a
    case distinction of the program. *)
Ltac emits_step :=
  match goal with
  | |- emits _ (bind _ _) => apply emits_bind; [|intros ?]
  | |- emits _ (try_except _ _) => apply emits_try_except; [|intros ?]
  | |- emits _ (emit _) => apply emits_emit; simpl; try done
  | |- emits _ (fs_attempt _ _ _ _) => apply emits_fs_attempt; intros ?; simpl; try done
  | |- emits _ (subprocess_run _ _) => apply emits_subprocess_run; intros ?; simpl; try done
  | |- emits _ (if ?b then _ else _) => destruct b
  | |- emits _ (match ?x with _ => _ end) => destruct x
  | |- emits _ _ => solve [eauto with emits]
  end.
Ltac emits_steps := repeat emits_step.

Lemma emits_run_cmd P E cmd eff :
  (forall rc, P (EvRun cmd rc)) -> emits P (run_cmd E cmd eff).
Proof. intros H. unfold run_cmd. emits_steps. Qed.

Lemma emits_make_archive P E dir name root_dir :
  (forall r, P (EvFs (OpMakeArchive (path_join dir (name +:+ ".zip")) root_dir) r)) ->
  (forall members, P (EvArchived (path_join dir (name +:+ ".zip")) members)) ->
  emits P (make_archive E dir name root_dir).
Proof. intros H1 H2. unfold make_archive. emits_steps. Qed.

Lemma emits_find_compose_file P project_dir : emits P (find_compose_file project_dir).
Proof.
  apply emits_silent. intros w. unfold find_compose_file.
  by destruct (filter _ candidates).
Qed.

Lemma emits_export_volumes E volumes temp_dir timestamp :
  emits stage_event (export_volumes E volumes temp_dir timestamp).
Proof.
  induction volumes as [|vol rest IH]; simpl; [apply emits_ret|].
  unfold export_volume. emits_steps; try by apply emits_run_cmd.
Qed.

Lemma emits_stop_export_start_bundle E project_dir temp_dir timestamp :
  emits stage_event (stop_export_start_bundle E project_dir temp_dir timestamp).
Proof.
  unfold stop_export_start_bundle, extract_named_volumes,
    detect_docker_compose_command, create_final_zip_from_temp.
  emits_steps;
    first [ apply emits_find_compose_file | by apply emits_run_cmd
          | apply emits_export_volumes | by apply emits_make_archive ].
Qed.

Lemma emits_delete_backups E remote remote_path to_delete :
  emits rotation_event (delete_backups E remote remote_path to_delete).
Proof.
  induction to_delete as [|entry rest IH]; simpl; [apply emits_ret|].
  emits_steps; try by apply emits_run_cmd.
Qed.

Lemma emits_rotate_project_backups E remote remote_path keep :
  emits rotation_event (rotate_project_backups E remote remote_path keep).
Proof.
  unfold rotate_project_backups. emits_steps. apply emits_delete_backups.
Qed.

Lemma emits_staged_backup E project_dir temp_dir zip ts remote remote_path keep :
  emits not_mkdir
    (staged_backup E project_dir temp_dir zip ts remote remote_path keep).
Proof.
  unfold staged_backup, move, report, upload_cleanup_rotate, rclone_copy_file,
    rmtree, unlink.
  emits_steps; try (by apply emits_run_cmd).
  - eapply emits_impl; [|apply emits_stop_export_start_bundle].
    by intros [[]| | | | |].
  - eapply emits_impl; [|apply emits_rotate_project_backups].
    by intros [[]| | | | |].
Qed.

(** *** The file system *)

Lemma fs_wf_parent f p :
  fs_wf f = true -> is_Some (f !! p) -> is_Some (f !! path_parent p).
Proof.
  unfold fs_wf. rewrite forallb_forall. intros Hwf [n Hp].
  assert (Hin : In p (map fst (map_to_list f))).
  { apply in_map_iff. exists (p, n). split; [done|].
    apply list_elem_of_In. by apply elem_of_map_to_list. }
  apply Hwf in Hin. unfold exists_ in Hin.
  by destruct (f !! path_parent p).
Qed.

Lemma fs_wf_ancestor f p q :
  fs_wf f = true -> is_Some (f !! (p ++ q)) -> is_Some (f !! p).
Proof.
  intros Hwf. induction q as [|x q IH] using rev_ind.
  - by rewrite app_nil_r.
  - intros H. apply IH. apply (fs_wf_parent _ _ Hwf) in H.
    unfold path_parent in H. by rewrite app_assoc, removelast_last in H.
Qed.

Lemma tree_members_elem f d m :
  m ∈ tree_members f d <-> is_Some (f !! m) /\ d `prefix_of` m /\ m <> d.
Proof.
  unfold tree_members, below. rewrite list_elem_of_filter.
  rewrite list_elem_of_fmap. split.
  - intros [Hb ([p n] & -> & Hp)]. simpl in *.
    apply elem_of_map_to_list in Hp.
    apply Is_true_true, andb_true_iff in Hb as [H1 H2].
    apply bool_decide_eq_true in H1. apply negb_true_iff, bool_decide_eq_false in H2.
    eauto.
  - intros ([n Hn] & Hpre & Hne). split.
    + apply Is_true_true, andb_true_iff. split.
      * by apply bool_decide_eq_true.
      * by apply negb_true_iff, bool_decide_eq_false.
    + exists (m, n). split; [done|]. by apply elem_of_map_to_list.
Qed.

Lemma string_app_length s t : String.length (s +:+ t) = String.length s + String.length t.
Proof. induction s; simpl; auto. Qed.

Lemma tree_archive_outside project_dir ts :
  project_dir <> [] -> ~ project_dir `prefix_of` tree_archive project_dir ts.
Proof.
  intros Hne [k Hk]. unfold tree_archive, path_join, path_parent, path_name in Hk.
  destruct (exists_last Hne) as (d & x & ->).
  rewrite removelast_last, last_last in Hk.
  assert (k = []) as ->.
  { apply (f_equal length) in Hk. rewrite !length_app in Hk. simpl in Hk.
    destruct k; [done|simpl in Hk; lia]. }
  rewrite app_nil_r in Hk. apply app_inj_tail in Hk as [_ Hx].
  apply (f_equal String.length) in Hx. rewrite !string_app_length in Hx.
  simpl in Hx. lia.
Qed.

(** [backup_project] up to the staging directory, step by step. *)
Lemma backup_project_unfold E project_dir remote remote_path keep w :
  backup_project E project_dir remote remote_path keep w =
  let ts := clock E (trace w) in
  let zip := tree_archive project_dir ts in
  let temp_dir := staging_dir project_dir ts in
  let returned :=
    path_join (path_parent project_dir)
      (with_suffix_zip (path_name project_dir +:+ "-project-" +:+ ts)) in
  if is_dir (fs w) project_dir then
    if io_fails E (trace w) (OpMakeArchive zip project_dir) then
      (Exc OSError,
       World (fs w) (trace w ++ [EvFs (OpMakeArchive zip project_dir) (Some OSError)]))
    else
      let f1 := <[zip := File (ZipOf (tree_members (fs w) project_dir))]> (fs w) in
      let t1 := trace w ++ [EvFs (OpMakeArchive zip project_dir) None;
                            EvArchived zip (tree_members (fs w) project_dir)] in
      if exists_ f1 temp_dir then
        (Exit 1, World f1 (t1 ++ [EvFs (OpMkdir temp_dir) (Some FileExistsError)]))
      else if io_fails E t1 (OpMkdir temp_dir) then
        (Exc OSError, World f1 (t1 ++ [EvFs (OpMkdir temp_dir) (Some OSError)]))
      else
        staged_backup E project_dir temp_dir returned ts remote remote_path keep
          (World (<[temp_dir := Dir]> f1) (t1 ++ [EvFs (OpMkdir temp_dir) None]))
  else (Exc FileNotFoundError, w).
Proof.
  destruct w as [f t].
  unfold backup_project, bind, get_fs, ask, create_project_zip, make_archive,
    mkdir_or_exit, mkdir, bind, get_fs, fs_attempt, emit, ret, raise,
    tree_archive, staging_dir.
  cbv beta iota zeta delta [fs trace negb].
  destruct (is_dir f project_dir);
    cbv beta iota zeta delta [fs trace negb]; [|done].
  destruct (io_fails E t _);
    cbv beta iota zeta delta [fs trace negb]; [done|].
  rewrite <- !app_assoc. cbn [app].
  destruct (exists_ _ _);
    cbv beta iota zeta delta [fs trace negb];
    rewrite <- ?app_assoc; cbn [app]; [done|].
  destruct (io_fails E _ _); by rewrite <- ?app_assoc.
Qed.

(** C5: in every run on a project directory other than the root, over a
    file system whose entries lie in entries, either no directory is
    created at all, or the run starts by writing the tree archive, outside
    the project directory and from the paths of the project tree as they
    are then, and creates the staging directory right after it; no member
    of the archive is the staging directory or lies in it, and no other
    directory is created later. *)
Theorem C5_tree_archive_before_staging
    (E : env) (project_dir : path) (remote remote_path : string) (keep : Z)
    (w : world) :
  fs_wf (fs w) = true ->
  project_dir <> [] ->
  let ts := clock E (trace w) in
  let zip := tree_archive project_dir ts in
  let temp_dir := staging_dir project_dir ts in
  exists evs,
    trace (backup_project E project_dir remote remote_path keep w).2
    = trace w ++ evs /\
    (Forall (fun ev => ~ creates_dir ev) evs \/
     exists rest,
       evs = EvFs (OpMakeArchive zip project_dir) None
             :: EvArchived zip (tree_members (fs w) project_dir)
             :: EvFs (OpMkdir temp_dir) None :: rest /\
       ~ project_dir `prefix_of` zip /\
       (forall m, m ∈ tree_members (fs w) project_dir -> ~ temp_dir `prefix_of` m) /\
       Forall (fun ev => ~ creates_dir ev) rest).
Proof.
  intros Hwf Hne ts zip temp_dir.
  rewrite backup_project_unfold. cbv zeta. fold ts. fold zip. fold temp_dir.
  destruct (is_dir (fs w) project_dir).
  2:{ exists []. rewrite app_nil_r. split; [done|]. left. constructor. }
  destruct (io_fails E (trace w) (OpMakeArchive zip project_dir)).
  { eexists [_]. split; [done|]. left. repeat constructor. by intros []. }
  destruct (exists_ (<[zip:=_]> (fs w)) temp_dir) eqn:Hex.
  { eexists [_; _; _]. cbn [snd trace]. rewrite <- !app_assoc. split; [done|].
    left. repeat constructor; by intros []. }
  destruct (io_fails E _ (OpMkdir temp_dir)).
  { eexists [_; _; _]. cbn [snd trace]. rewrite <- !app_assoc. split; [done|].
    left. repeat constructor; by intros []. }
  match goal with |- context [staged_backup ?a ?b ?c ?d ?e ?g ?h ?i ?w1] =>
    destruct (emits_staged_backup a b c d e g h i w1) as (rest & Ht & Hrest) end.
  exists ([EvFs (OpMakeArchive zip project_dir) None;
           EvArchived zip (tree_members (fs w) project_dir);
           EvFs (OpMkdir temp_dir) None] ++ rest).
  split.
  { rewrite Ht. cbn [trace]. by rewrite <- !app_assoc. }
  right. exists rest. split_and!; [done|by apply tree_archive_outside| |].
  - intros m [Hm [Hpre Hne']]%tree_members_elem [q ->].
    apply (fs_wf_ancestor _ _ _ Hwf) in Hm as [n Hn].
    unfold exists_ in Hex.
    destruct (decide (zip = temp_dir)) as [Heq|Hneq].
    + rewrite Heq, lookup_insert_eq in Hex. done.
    + rewrite lookup_insert_ne, Hn in Hex by done. done.
  - eapply Forall_impl; [done|].
    intros ev Hev Hc. by destruct ev as [[] []| | | | |].
Qed.

(** *** From the upload on *)

Lemma never_exits_rotate E remote remote_path keep w c :
  (rotate_project_backups E remote remote_path keep w).1 <> Exit c.
Proof.
  assert (Hdel : forall l w, (delete_backups E remote remote_path l w).1 <> Exit c).
  { induction l as [|entry rest IH]; intros w0; simpl; [done|].
    unfold bind, lift, run_cmd, bind, subprocess_run, get_fs, set_fs, ret, raise.
    destruct (py_get entry "Path" PNone) as [p|]; simpl; [|done].
    destruct (truthy p); simpl.
    - destruct (negb (truthy p)); simpl; [apply IH|].
      destruct (run E _ _) as [rc|]; simpl; [|done].
      destruct (rc =? 0)%Z; simpl; [apply IH|done].
    - destruct (py_get entry "Name" PNone) as [n|]; simpl; [|done].
      destruct (negb (truthy n)); simpl; [apply IH|].
      destruct (run E _ _) as [rc|]; simpl; [|done].
      destruct (rc =? 0)%Z; simpl; [apply IH|done]. }
  unfold rotate_project_backups.
  destruct (keep <? 1)%Z; [done|].
  unfold bind, subprocess_run, ask, raise, lift. simpl.
  destruct (run E _ _) as [rc|]; simpl; [|done].
  destruct (negb (rc =? 0)%Z); simpl; [done|].
  destruct (lsjson_stdout E _); simpl; [|done].
  destruct (backups_to_delete E _ keep); simpl; [apply Hdel|done].
Qed.

Lemma upload_onwards_run E temp_dir final_zip_path remote remote_path keep w :
  let r := try_except
             (upload_cleanup_rotate E temp_dir final_zip_path remote remote_path keep)
             (report temp_dir (Some final_zip_path)) w in
  exists evs,
    trace r.2 = trace w ++ evs /\
    upload_onwards temp_dir final_zip_path (remote_target remote remote_path)
      evs r.1.
Proof.
  destruct w as [f t].
  unfold try_except, upload_cleanup_rotate, rclone_copy_file, run_cmd, rmtree,
    unlink, report, bind, subprocess_run, fs_attempt, get_fs, set_fs, emit,
    ret, raise.
  cbv beta iota zeta delta [fs trace].
  set (dest := remote_target remote remote_path).
  destruct (run E t (RcloneCopy final_zip_path dest)) as [rc|] eqn:Hrun;
    cbv beta iota zeta delta [fs trace].
  2:{ eexists [_; _]. rewrite <- !app_assoc. split; [done|].
      by apply upload_failed. }
  destruct (rc =? 0)%Z eqn:Hrc; cbv beta iota zeta delta [fs trace].
  2:{ eexists [_; _]. rewrite <- !app_assoc. split; [done|].
      apply upload_failed. intros [= ->]. done. }
  apply Z.eqb_eq in Hrc as ->.
  destruct (if exists_ f temp_dir then None else Some FileNotFoundError) as [e|];
    cbv beta iota zeta delta [fs trace].
  { eexists [_; _; _]. rewrite <- !app_assoc. split; [done|]. apply rmtree_failed. }
  destruct (io_fails E _ (OpRmtree temp_dir));
    cbv beta iota zeta delta [fs trace].
  { eexists [_; _; _]. rewrite <- !app_assoc. split; [done|]. apply rmtree_failed. }
  set (f1 := filter _ f).
  set (t1 := (t ++ _) ++ _).
  destruct (exists_ f1 final_zip_path) eqn:Hex;
    cbv beta iota zeta delta [fs trace].
  - rewrite Hex. destruct (io_fails E t1 (OpUnlink final_zip_path));
      cbv beta iota zeta delta [fs trace].
    { eexists [_; _; _; _]. subst t1. rewrite <- !app_assoc. split; [done|].
      apply unlink_failed. }
    match goal with |- context [rotate_project_backups ?a ?b ?c ?d ?w1] =>
      destruct (emits_rotate_project_backups a b c d w1) as (rot & Ht & Hrot);
      pose proof (never_exits_rotate a b c d w1) as Hne;
      destruct (rotate_project_backups a b c d w1) as [[[]|e|c0] w2] end;
      cbv beta iota zeta delta [fs trace fst snd] in *.
    + exists ([EvRun (RcloneCopy final_zip_path dest) (Some 0%Z);
               EvFs (OpRmtree temp_dir) None]
              ++ [EvFs (OpUnlink final_zip_path) None] ++ rot
              ++ report_events temp_dir (Some final_zip_path) (Ret final_zip_path)).
      split; [|apply rotated; eauto].
      rewrite Ht. subst t1. simpl. by rewrite <- !app_assoc, app_nil_r.
    + exists ([EvRun (RcloneCopy final_zip_path dest) (Some 0%Z);
               EvFs (OpRmtree temp_dir) None]
              ++ [EvFs (OpUnlink final_zip_path) None] ++ rot
              ++ report_events temp_dir (Some final_zip_path) (Exc e)).
      split; [|apply rotated; eauto].
      rewrite Ht. subst t1. simpl. by rewrite <- !app_assoc.
    + by destruct (Hne c0).
  - match goal with |- context [rotate_project_backups ?a ?b ?c ?d ?w1] =>
      destruct (emits_rotate_project_backups a b c d w1) as (rot & Ht & Hrot);
      pose proof (never_exits_rotate a b c d w1) as Hne;
      destruct (rotate_project_backups a b c d w1) as [[[]|e|c0] w2] end;
      cbv beta iota zeta delta [fs trace fst snd] in *.
    + exists ([EvRun (RcloneCopy final_zip_path dest) (Some 0%Z);
               EvFs (OpRmtree temp_dir) None]
              ++ [] ++ rot
              ++ report_events temp_dir (Some final_zip_path) (Ret final_zip_path)).
      split; [|apply rotated; eauto].
      rewrite Ht. subst t1. simpl. by rewrite <- !app_assoc, app_nil_r.
    + exists ([EvRun (RcloneCopy final_zip_path dest) (Some 0%Z);
               EvFs (OpRmtree temp_dir) None]
              ++ [] ++ rot
              ++ report_events temp_dir (Some final_zip_path) (Exc e)).
      split; [|apply rotated; eauto].
      rewrite Ht. subst t1. simpl. by rewrite <- !app_assoc.
    + by destruct (Hne c0).
Qed.

(** The whole run: it ends before the upload, having deleted nothing and
    not touched the remote, or it reaches the upload. *)
Lemma backup_project_trace E project_dir remote remote_path keep w :
  let r := backup_project E project_dir remote remote_path keep w in
  let temp_dir := staging_dir project_dir (clock E (trace w)) in
  exists evs,
    trace r.2 = trace w ++ evs /\
    (Forall before_upload evs \/
     exists pre rest final_zip_path,
       evs = pre ++ rest /\ Forall before_upload pre /\
       upload_onwards temp_dir final_zip_path (remote_target remote remote_path)
         rest r.1).
Proof.
  intros r temp_dir. subst r. rewrite backup_project_unfold.
  cbv zeta. fold temp_dir.
  set (zip := tree_archive _ _).
  destruct (is_dir (fs w) project_dir).
  2:{ exists []. rewrite app_nil_r. split; [done|]. left. constructor. }
  destruct (io_fails E (trace w) (OpMakeArchive zip project_dir)).
  { eexists [_]. split; [done|]. left. by repeat constructor. }
  destruct (exists_ _ temp_dir).
  { eexists [_; _; _]. cbn [snd trace]. rewrite <- !app_assoc. split; [done|].
    left. by repeat constructor. }
  destruct (io_fails E _ (OpMkdir temp_dir)).
  { eexists [_; _; _]. cbn [snd trace]. rewrite <- !app_assoc. split; [done|].
    left. by repeat constructor. }
  set (pre3 := [EvFs (OpMakeArchive zip project_dir) None;
                EvArchived zip (tree_members (fs w) project_dir);
                EvFs (OpMkdir temp_dir) None]).
  assert (Hpre3 : Forall before_upload pre3) by by repeat constructor.
  match goal with |- context [staged_backup _ _ _ ?z _ _ _ _ ?w1] =>
    set (returned := z);
    assert (Hw1 : trace w1 = trace w ++ pre3)
      by (cbn [trace]; by rewrite <- !app_assoc);
    generalize dependent w1 end.
  intros w1 Hw1.
  destruct (staged_backup _ _ _ _ _ _ _ _ w1) as [o w4] eqn:Hr. cbn [fst snd].
  unfold staged_backup in Hr. unfold bind at 1 in Hr.
  assert (Hmove : emits before_upload
            (move E returned (path_join temp_dir (path_name returned)))).
  { unfold move. by apply emits_fs_attempt. }
  destruct (Hmove w1) as (ev1 & Ht1 & Hev1).
  destruct (move E _ _ w1) as [[[]|e|c] w2]; cbn [fst snd] in *.
  2,3: injection Hr as <- <-; exists (pre3 ++ ev1);
       rewrite Ht1, Hw1, <- app_assoc;
       (split; [done|]); left; by apply Forall_app.
  unfold bind at 1 in Hr.
  assert (HA : emits before_upload
            (try_except
               (stop_export_start_bundle E project_dir temp_dir (clock E (trace w)))
               (report temp_dir None))).
  { apply emits_try_except.
    - eapply emits_impl; [|apply emits_stop_export_start_bundle].
      by intros [[]|? ?|[]| | |].
    - intros e. unfold report. emits_steps. }
  destruct (HA w2) as (ev2 & Ht2 & Hev2).
  destruct (try_except _ _ w2) as [[final_zip_path|e|c] w3]; cbn [fst snd] in *.
  2,3: injection Hr as <- <-; exists (pre3 ++ ev1 ++ ev2);
       rewrite Ht2, Ht1, Hw1, <- !app_assoc;
       (split; [done|]); left; by rewrite !Forall_app.
  destruct (upload_onwards_run E temp_dir final_zip_path remote remote_path keep w3)
    as (rest & Ht3 & Hrest). cbv zeta in Ht3, Hrest.
  rewrite Hr in Ht3, Hrest. cbn [fst snd] in Ht3, Hrest.
  exists ((pre3 ++ ev1 ++ ev2) ++ rest). split.
  { rewrite Ht3, Ht2, Ht1, Hw1. by rewrite <- !app_assoc. }
  right. exists (pre3 ++ ev1 ++ ev2), rest, final_zip_path.
  split_and!; [done|by rewrite !Forall_app|exact Hrest].
Qed.

Lemma last_app_ne {A} (l l' : list A) (d d' : A) :
  l' <> [] -> List.last (l ++ l') d = List.last l' d'.
Proof.
  intros H. destruct (exists_last H) as (l0 & a & ->).
  by rewrite app_assoc, !last_last.
Qed.

Lemma upload_onwards_cleanup_failure temp_dir final_zip_path dest rest o ev e :
  upload_onwards temp_dir final_zip_path dest rest o ->
  ev ∈ rest -> cleanup_failure ev e ->
  o = Exc e /\
  EvRun (RcloneCopy final_zip_path dest) (Some 0%Z) ∈ rest /\
  List.last rest ev = EvReport e temp_dir (Some final_zip_path) /\
  Forall (fun ev' => ~ is_rotation ev') rest.
Proof.
  intros Hrest Hev Hfail. destruct Hrest as [rc e0 Hrc|e0|e0|unl rot o Hunl Hrot Ho].
  - apply list_elem_of_In in Hev. simpl in Hev.
    destruct Hev as [<-|[<-|[]]]; done.
  - apply list_elem_of_In in Hev. simpl in Hev.
    destruct Hev as [<-|[<-|[<-|[]]]]; try done. simpl in Hfail. subst e0.
    split_and!; [done|set_solver|done|].
    repeat constructor; by intros [].
  - apply list_elem_of_In in Hev. simpl in Hev.
    destruct Hev as [<-|[<-|[<-|[<-|[]]]]]; try done. simpl in Hfail. subst e0.
    split_and!; [done|set_solver|done|].
    repeat constructor; by intros [].
  - exfalso. rewrite !elem_of_app in Hev.
    destruct Hev as [Hev|[Hev|[Hev|Hev]]].
    + apply list_elem_of_In in Hev. simpl in Hev.
      destruct Hev as [<-|[<-|[]]]; done.
    + destruct Hunl as [-> | ->]; [by apply elem_of_nil in Hev|].
      apply list_elem_of_singleton in Hev as ->. done.
    + rewrite Forall_forall in Hrot. apply Hrot in Hev.
      by destruct ev as [[] []|? ?|[]| | |].
    + destruct o; simpl in Hev; try by apply elem_of_nil in Hev.
      apply list_elem_of_singleton in Hev as ->. done.
Qed.

(** C8, amended: a failure while deleting the staging directory or the
    local final bundle, which can only happen after a successful upload,
    ends the run with that error: the error and the preserved paths are
    reported last, and rotation is not attempted. *)
Theorem C8_cleanup_failure_aborts_run
    (E : env) (project_dir : path) (remote remote_path : string) (keep : Z)
    (w : world) (evs : list event) (ev : event) (e : exn) :
  let r := backup_project E project_dir remote remote_path keep w in
  trace r.2 = trace w ++ evs ->
  ev ∈ evs -> cleanup_failure ev e ->
  r.1 = Exc e /\
  (exists final_zip_path,
     EvRun (RcloneCopy final_zip_path (remote_target remote remote_path)) (Some 0%Z)
       ∈ evs /\
     List.last evs ev
     = EvReport e (staging_dir project_dir (clock E (trace w))) (Some final_zip_path)) /\
  Forall (fun ev' => ~ is_rotation ev') evs.
Proof.
  intros r Ht Hev Hfail.
  destruct (backup_project_trace E project_dir remote remote_path keep w)
    as (evs' & Ht' & Hcases). cbv zeta in Ht', Hcases. fold r in Ht', Hcases.
  rewrite Ht in Ht'. apply app_inv_head in Ht'. subst evs'.
  destruct Hcases as [Hquiet|(pre & rest & final & -> & Hpre & Hrest)].
  - rewrite Forall_forall in Hquiet. apply Hquiet in Hev.
    by destruct ev as [[] []|? ?|[]| | |].
  - apply elem_of_app in Hev as [Hev|Hev].
    { rewrite Forall_forall in Hpre. apply Hpre in Hev.
      by destruct ev as [[] []|? ?|[]| | |]. }
    destruct (upload_onwards_cleanup_failure _ _ _ _ _ _ _ Hrest Hev Hfail)
      as (Ho & Hcopy & Hlast & Hrot).
    split_and!; [done| |].
    + exists final. split; [set_solver|].
      rewrite <- Hlast. apply last_app_ne.
      intros ->. by apply elem_of_nil in Hev.
    + apply Forall_app. split; [|done].
      eapply Forall_impl; [done|].
      intros ev' H1 H2. by destruct ev' as [[] ?|? ?|[]| | |].
Qed.

(** ** The batch *)

Lemma run_projects_cons {A} (run_project : path -> M A) p rest failures w :
  run_projects run_project (p :: rest) failures w =
  match run_project p (started p w) with
  | (Ret _, w1) => run_projects run_project rest failures w1
  | (Exc e, w1) =>
      run_projects run_project rest (failures ++ [(p, e)]) (recorded p e w1)
  | (Exit c, w1) => (Exit c, w1)
  end.
Proof.
  simpl. unfold bind, emit, try_except, bind, ret, started, recorded.
  cbn [fs trace]. by destruct (run_project p _) as [[a|e|c] w1].
Qed.

Lemma run_projects_app {A} (run_project : path -> M A) pre l failures w :
  run_projects run_project (pre ++ l) failures w =
  match run_projects run_project pre failures w with
  | (Ret failures', w1) => run_projects run_project l failures' w1
  | r => r
  end.
Proof.
  revert failures w. induction pre as [|p pre IH]; intros failures w; [done|].
  rewrite <- app_comm_cons, !run_projects_cons.
  destruct (run_project p _) as [[a|e|c] w1]; auto.
Qed.

Lemma batch_runs_nil {A} (run_project : path -> M A) w results w' :
  batch_runs run_project [] w results w' -> results = [].
Proof. by inversion 1. Qed.

Lemma run_projects_results {A} (run_project : path -> M A) dirs failures w :
  (forall c, (run_projects run_project dirs failures w).1 <> Exit c) ->
  exists results,
    batch_runs run_project dirs w results (run_projects run_project dirs failures w).2 /\
    results.*1 = dirs /\
    (run_projects run_project dirs failures w).1
    = Ret (failures ++ omap (fun r => (fun e => (fst r, e)) <$> snd r) results).
Proof.
  revert failures w. induction dirs as [|p rest IH]; intros failures w Hne.
  - exists []. simpl. rewrite app_nil_r. split_and!; [constructor|done|done].
  - rewrite run_projects_cons in Hne |- *.
    destruct (run_project p (started p w)) as [[a|e|c] w1] eqn:Hp.
    + destruct (IH failures w1 Hne) as (results & Hruns & Hdirs & Hret).
      exists ((p, None) :: results). split_and!.
      * by eapply batch_succeeded.
      * by rewrite fmap_cons, Hdirs.
      * done.
    + destruct (IH (failures ++ [(p, e)]) (recorded p e w1) Hne)
        as (results & Hruns & Hdirs & Hret).
      exists ((p, Some e) :: results). split_and!.
      * by eapply batch_failed.
      * by rewrite fmap_cons, Hdirs.
      * rewrite Hret. simpl. by rewrite <- app_assoc.
    + by destruct (Hne c).
Qed.

Lemma summary_of_failed results :
  summary_of (omap (fun r : path * option exn => (fun e => (fst r, e)) <$> snd r) results)
  = failed_projects results.
Proof.
  unfold summary_of, failed_projects.
  induction results as [|[p [e|]] results IH]; simpl; [done| |exact IH].
  f_equal. exact IH.
Qed.

(** The project directories are the directories right below the root, by
    name. *)
Lemma child_names_elem f root name :
  name ∈ child_names f root <-> is_Some (f !! (root ++ [name])).
Proof.
  unfold child_names. rewrite list_elem_of_omap. split.
  - intros (p & Hp & Hname).
    apply list_elem_of_fmap in Hp as ([q n] & -> & Hq). simpl in *.
    apply elem_of_map_to_list in Hq.
    case_bool_decide as Hc; [|done]. injection Hname as <-.
    destruct Hc as [Hne <-]. unfold path_parent, path_name.
    rewrite <- (app_removelast_last "" Hne). eauto.
  - intros [n Hn]. exists (root ++ [name]). split.
    + apply list_elem_of_fmap. exists (root ++ [name], n). split; [done|].
      by apply elem_of_map_to_list.
    + rewrite bool_decide_eq_true_2.
      * unfold path_name. by rewrite last_last.
      * split; [by destruct root|]. unfold path_parent. by rewrite removelast_last.
Qed.

Lemma iter_project_dirs_elem f root p :
  p ∈ iter_project_dirs f root <->
  is_dir f p = true /\ p <> [] /\ path_parent p = root.
Proof.
  unfold iter_project_dirs. rewrite list_elem_of_filter, list_elem_of_fmap. split.
  - intros [Hd (name & -> & Hname)]. split_and!.
    + by apply Is_true_true.
    + unfold path_join. by destruct root.
    + unfold path_parent, path_join. by rewrite removelast_last.
  - intros (Hd & Hne & <-). split; [by apply Is_true_true|].
    exists (path_name p). unfold path_join, path_parent, path_name. split.
    + by apply app_removelast_last.
    + rewrite merge_sort_Permutation. apply child_names_elem.
      rewrite <- (app_removelast_last "" Hne).
      unfold is_dir in Hd. destruct (f !! p); [eauto|done].
Qed.

Lemma iter_project_dirs_sorted f root :
  StronglySorted String.le (map path_name (iter_project_dirs f root)).
Proof.
  unfold iter_project_dirs.
  assert (Hs : StronglySorted String.le (merge_sort String.le (child_names f root))).
  { apply StronglySorted_merge_sort; apply _. }
  induction Hs as [|name names Hs IH Hall]; [constructor|].
  rewrite fmap_cons, filter_cons. case_decide; [|done].
  rewrite fmap_cons. constructor; [done|].
  unfold path_name at 1, path_join. rewrite last_last.
  apply Forall_forall. intros x Hx.
  apply list_elem_of_fmap in Hx as (q & -> & Hq).
  apply list_elem_of_filter in Hq as [_ Hq].
  apply list_elem_of_fmap in Hq as (n' & -> & Hn').
  unfold path_name, path_join. rewrite last_last.
  rewrite Forall_forall in Hall. by apply Hall.
Qed.

(** C9, amended: over a root that is a directory with at least one
    immediate subdirectory, and as long as no project run terminates the
    process, the workflow is run for every immediate subdirectory, by
    name, each after the other; an exception of a project is recorded and
    the next project runs; the batch returns when no project failed and
    otherwise raises the aggregate of every failed project's name and
    error.  A root without subdirectories raises [FileNotFoundError]. *)
Theorem C9_batch_isolates_exceptions
    (E : env) (remote remote_path : string) (root : path) (w : world) :
  is_dir (fs w) root = true ->
  let dirs := iter_project_dirs (fs w) root in
  let r := backup_all_projects E remote remote_path root w in
  (forall c, r.1 <> Exit c) ->
  (forall p, p ∈ dirs <-> is_dir (fs w) p = true /\ p <> [] /\ path_parent p = root) /\
  StronglySorted String.le (map path_name dirs) /\
  (dirs = [] -> r = (Exc FileNotFoundError, w)) /\
  (dirs <> [] -> batch_isolates_failures E remote remote_path root w).
Proof.
  intros Hroot dirs r Hne.
  split_and!; [apply iter_project_dirs_elem|apply iter_project_dirs_sorted| |].
  - intros Hd. subst r. unfold backup_all_projects, backup_all_with, bind, get_fs.
    rewrite Hroot. fold dirs. by rewrite Hd.
  - intros Hd. unfold batch_isolates_failures. fold r. fold dirs.
    assert (Hr : r = match run_projects
                           (fun p => backup_project E p remote remote_path 4) dirs [] w with
                     | (Ret [], w') => (Ret tt, w')
                     | (Ret failures, w') =>
                         (Exc (CompletedWithFailures (summary_of failures)), w')
                     | (Exc e, w') => (Exc e, w')
                     | (Exit c, w') => (Exit c, w')
                     end).
    { subst r. unfold backup_all_projects, backup_all_with, bind, get_fs.
      rewrite Hroot. fold dirs. cbn [negb].
      destruct dirs as [|d ds] eqn:Hdirs; [done|].
      unfold raise, ret.
      by destruct (run_projects _ _ _ _) as [[[|]|e|c] w']. }
    destruct (run_projects_results
                (fun p => backup_project E p remote remote_path 4) dirs [] w)
      as (results & Hruns & Hdirs & Hret).
    { intros c Hc. apply (Hne c). rewrite Hr.
      destruct (run_projects _ _ _ _) as [[[|]|e|c'] w']; simpl in *; congruence. }
    exists results.
    destruct (run_projects _ _ _ _) as [o w'] eqn:Hrun. simpl in Hret, Hruns.
    subst o. rewrite Hr. simpl. rewrite <- summary_of_failed.
    split; [by destruct (omap _ results)|].
    by destruct (omap _ results).
Qed.

(** *** A staging directory that already exists *)

Lemma collision_exits E project_dir remote remote_path keep w :
  let ts := clock E (trace w) in
  let zip := tree_archive project_dir ts in
  let temp_dir := staging_dir project_dir ts in
  is_dir (fs w) project_dir = true ->
  io_fails E (trace w) (OpMakeArchive zip project_dir) = false ->
  exists_ (fs w) temp_dir = true ->
  backup_project E project_dir remote remote_path keep w =
  (Exit 1,
   World (<[zip := File (ZipOf (tree_members (fs w) project_dir))]> (fs w))
     (trace w ++ [EvFs (OpMakeArchive zip project_dir) None;
                  EvArchived zip (tree_members (fs w) project_dir);
                  EvFs (OpMkdir temp_dir) (Some FileExistsError)])).
Proof.
  intros ts zip temp_dir Hdir Hio Hex.
  rewrite backup_project_unfold. cbv zeta. fold ts. fold zip. fold temp_dir.
  rewrite Hdir, Hio.
  assert (exists_ (<[zip:=File (ZipOf (tree_members (fs w) project_dir))]> (fs w))
            temp_dir = true) as ->.
  { unfold exists_ in *. destruct (decide (zip = temp_dir)) as [->|Hne].
    - by rewrite lookup_insert_eq.
    - by rewrite lookup_insert_ne. }
  by rewrite <- app_assoc.
Qed.

(** C10: when the staging directory of a run exists already, the run ends
    in [sys.exit(1)] right after the failed [mkdir], leaving the tree
    archive it has just written in the parent directory of the project;
    in the batch, where the projects before have returned or raised, the
    whole batch ends there with the same exit, and no later project is
    started. *)
Theorem C10_staging_collision_exits (E : env) (remote remote_path : string) :
  (forall project_dir keep w,
     let ts := clock E (trace w) in
     let zip := tree_archive project_dir ts in
     let temp_dir := staging_dir project_dir ts in
     is_dir (fs w) project_dir = true ->
     io_fails E (trace w) (OpMakeArchive zip project_dir) = false ->
     exists_ (fs w) temp_dir = true ->
     let r := backup_project E project_dir remote remote_path keep w in
     r.1 = Exit 1 /\
     trace r.2 = trace w ++ [EvFs (OpMakeArchive zip project_dir) None;
                             EvArchived zip (tree_members (fs w) project_dir);
                             EvFs (OpMkdir temp_dir) (Some FileExistsError)] /\
     fs r.2 !! zip = Some (File (ZipOf (tree_members (fs w) project_dir))) /\
     path_parent zip = path_parent project_dir)
  /\
  (forall root w before p after failures w1,
     is_dir (fs w) root = true ->
     iter_project_dirs (fs w) root = before ++ p :: after ->
     run_projects (fun d => backup_project E d remote remote_path 4) before [] w
     = (Ret failures, w1) ->
     let w2 := started p w1 in
     let ts := clock E (trace w2) in
     let zip := tree_archive p ts in
     let temp_dir := staging_dir p ts in
     is_dir (fs w2) p = true ->
     io_fails E (trace w2) (OpMakeArchive zip p) = false ->
     exists_ (fs w2) temp_dir = true ->
     let r := backup_all_projects E remote remote_path root w in
     r.1 = Exit 1 /\
     trace r.2 = trace w1 ++ [EvStart p;
                              EvFs (OpMakeArchive zip p) None;
                              EvArchived zip (tree_members (fs w1) p);
                              EvFs (OpMkdir temp_dir) (Some FileExistsError)] /\
     fs r.2 !! zip = Some (File (ZipOf (tree_members (fs w1) p)))).
Proof.
  split.
  - intros project_dir keep w ts zip temp_dir Hdir Hio Hex r. subst r.
    rewrite (collision_exits E project_dir remote remote_path keep w Hdir Hio Hex).
    cbn [fst snd fs trace]. fold ts. fold zip. fold temp_dir.
    split_and!; [done|done|apply lookup_insert_eq|].
    unfold zip, tree_archive, path_join, path_parent. by rewrite removelast_last.
  - intros root w before p after failures w1 Hroot Hdirs Hbefore w2 ts zip
      temp_dir Hdir Hio Hex r. subst r.
    unfold backup_all_projects, backup_all_with, bind, get_fs.
    rewrite Hroot, Hdirs. cbn [negb].
    destruct (before ++ p :: after) as [|d ds] eqn:Hl; [by destruct before|].
    rewrite <- Hl, run_projects_app, Hbefore, run_projects_cons.
    fold w2.
    rewrite (collision_exits E p remote remote_path 4 w2 Hdir Hio Hex).
    cbn [fst snd fs trace]. fold ts. fold zip. fold temp_dir.
    split_and!; [done| |apply lookup_insert_eq].
    change (trace w2) with (trace w1 ++ [EvStart p]).
    change (fs w2) with (fs w1). by rewrite <- app_assoc.
Qed.

(** ** Retention *)

(** *** The sort by modification time *)

Lemma datetime_lt_same_kind a b :
  same_kind a b = true ->
  exists lt, datetime_lt a b = Ok lt /\
             (lt = true -> datetime_le a b /\ a <> b) /\
             (lt = false -> datetime_le b a).
Proof.
  destruct a as [x|x], b as [y|y]; simpl; try done; intros _.
  - exists (x <? y)%N. split; [done|]. split.
    + intros H%N.ltb_lt. split; [lia|]. intros [= ->]. lia.
    + intros H%N.ltb_ge. done.
  - exists (x <? y)%Z. split; [done|]. split.
    + intros H%Z.ltb_lt. split; [lia|]. intros [= ->]. lia.
    + intros H%Z.ltb_ge. done.
Qed.

Lemma datetime_lt_other_kind a b :
  same_kind a b = false -> datetime_lt a b = Raise TypeError.
Proof. by destruct a, b. Qed.

Lemma datetime_le_trans a b c : datetime_le a b -> datetime_le b c -> datetime_le a c.
Proof. destruct a, b, c; simpl; try done; lia. Qed.

Lemma same_kind_trans a b c :
  same_kind a b = true -> same_kind b c = true -> same_kind a c = true.
Proof. by destruct a, b, c. Qed.

Lemma same_kind_sym a b : same_kind a b = same_kind b a.
Proof. by destruct a, b. Qed.

Global Instance key_le_trans : Transitive key_le.
Proof. intros x y z. apply datetime_le_trans. Qed.

Lemma filter_none {A} (P : A -> Prop) `{!forall x, Decision (P x)} (l : list A) :
  Forall (fun x => ~ P x) l -> filter P l = [].
Proof.
  induction 1 as [|x l Hx Hl IH]; [done|]. by rewrite filter_cons_False.
Qed.

Lemma insert_by_key_sorted x l :
  of_kind (fst x) l -> StronglySorted key_le l ->
  exists r,
    insert_by_key x l = Ok r /\ r ≡ₚ x :: l /\ StronglySorted key_le r /\
    (forall k, with_key k r = with_key k l ++ with_key k [x]).
Proof.
  intros Hk Hs. induction Hs as [|y l Hs IH Hall].
  - exists [x]. split_and!; [done|done|repeat constructor|done].
  - apply Forall_cons in Hk as [Hxy Hk]. simpl.
    destruct (datetime_lt_same_kind _ _ Hxy) as (lt & -> & Htrue & Hfalse).
    simpl. destruct lt.
    + destruct (Htrue eq_refl) as [Hle Hne].
      exists (x :: y :: l). split_and!; [done|done| |].
      * constructor; [by constructor|].
        constructor; [done|].
        eapply Forall_impl; [exact Hall|]. intros z Hz. by etrans.
      * intros k. unfold with_key. rewrite !filter_cons, filter_nil.
        destruct (decide (fst x = k)) as [Hxk|Hxk]; [|by rewrite app_nil_r].
        (* every entry from [y] on is later than [x] *)
        assert (Hnone : filter (fun z : datetime * pyval => z.1 = k) (y :: l) = []).
        { apply filter_none. constructor.
          - simpl. intros Hyk. apply Hne. congruence.
          - eapply Forall_impl; [exact Hall|]. intros z Hz Hzk. simpl in Hzk.
            apply Hne. subst k.
            unfold key_le in Hz. rewrite Hzk in Hz.
            destruct (fst x), (fst y); simpl in *; try done; f_equal; lia. }
        rewrite filter_cons in Hnone. rewrite Hnone. done.
    + destruct (IH Hk) as (r & -> & Hp & Hsr & Hst). simpl.
      exists (y :: r). split_and!; [done| | |].
      * rewrite Hp. apply Permutation_swap.
      * constructor; [done|]. rewrite Hp. constructor; [by apply Hfalse|done].
      * intros k. unfold with_key in *. rewrite !filter_cons. rewrite Hst.
        by destruct (decide (fst y = k)).
Qed.

Lemma sort_by_key_sorted k done todo :
  of_kind k done -> of_kind k todo -> StronglySorted key_le done ->
  exists r,
    sort_by_key done todo = Ok r /\ r ≡ₚ done ++ todo /\
    StronglySorted key_le r /\
    (forall k', with_key k' r = with_key k' done ++ with_key k' todo).
Proof.
  revert done. induction todo as [|x todo IH]; intros done Hd Ht Hs.
  - exists done. rewrite app_nil_r. split_and!; [done|done|done|].
    intros k'. unfold with_key. by rewrite filter_nil, app_nil_r.
  - apply Forall_cons in Ht as [Hx Ht]. simpl.
    destruct (insert_by_key_sorted x done) as (d & -> & Hp & Hsd & Hst); [|done|].
    { eapply Forall_impl; [exact Hd|]. intros y Hy. simpl in *.
      rewrite same_kind_sym in Hx. by eapply same_kind_trans. }
    simpl. destruct (IH d) as (r & -> & Hp' & Hsr & Hst'); [|done|done|].
    { unfold of_kind. rewrite Hp. by constructor. }
    exists r. split_and!; [done| |done|].
    + rewrite Hp', Hp. simpl. apply Permutation_middle.
    + intros k'. rewrite Hst', Hst. unfold with_key.
      rewrite (filter_cons _ x todo), filter_cons, filter_nil.
      destruct (decide (fst x = k')); by rewrite <- ?app_assoc, ?app_nil_r.
Qed.

(** The sort of keys that do not all have the same kind raises. *)
Lemma insert_by_key_raises x y l :
  same_kind (fst x) (fst y) = false ->
  insert_by_key x (y :: l) = Raise TypeError.
Proof. intros H. simpl. by rewrite datetime_lt_other_kind. Qed.

Lemma sort_by_key_mixed_raises k done todo :
  done <> [] -> of_kind k done -> StronglySorted key_le done ->
  ~ of_kind k todo ->
  sort_by_key done todo = Raise TypeError.
Proof.
  revert done. induction todo as [|x todo IH]; intros done Hne Hd Hs Hmixed.
  - destruct Hmixed. constructor.
  - simpl. destruct (same_kind k (fst x)) eqn:Hx.
    + destruct (insert_by_key_sorted x done) as (d & -> & Hp & Hsd & _); [|done|].
      { eapply Forall_impl; [exact Hd|]. intros y Hy. simpl in *.
        rewrite same_kind_sym in Hx. by eapply same_kind_trans. }
      simpl. apply IH; [| |done|].
      * intros ->. by apply Permutation_nil_cons in Hp.
      * unfold of_kind. rewrite Hp. by constructor.
      * intros Ht. apply Hmixed. by constructor.
    + destruct done as [|y done]; [done|].
      apply Forall_cons in Hd as [Hy _].
      rewrite insert_by_key_raises; [done|].
      destruct (fst x), (fst y), k; done.
Qed.

Lemma sort_mixed_raises x y middle rest :
  same_kind (fst x) (fst y) = false ->
  sort_by_key [] (x :: middle ++ y :: rest) = Raise TypeError.
Proof.
  intros Hxy. simpl.
  apply (sort_by_key_mixed_raises (fst x)); [done| |repeat constructor|].
  - constructor; [by destruct (fst x)|constructor].
  - intros H. apply Forall_app in H as [_ H]. apply Forall_cons in H as [H _].
    simpl in H. congruence.
Qed.

(** *** The entries that are deleted *)

Lemma select_backups_filter l backups :
  select_backups l = Ok backups ->
  backups = filter (fun e => is_zip_file e = true) l /\
  Forall (fun e => exists m, e = PDict m) l.
Proof.
  revert backups. induction l as [|entry rest IH]; intros backups H.
  - injection H as <-. by split.
  - simpl in H. destruct entry as [| | | | |m]; try done. simpl in H.
    destruct (select_backups rest) as [rest'|] eqn:Hrest.
    2:{ by destruct (truthy _). }
    destruct (IH rest' eq_refl) as [-> Hall].
    rewrite filter_cons.
    assert (Hz : is_zip_file (PDict m)
                 = if truthy (default PNone (assoc m "IsDir")) then false
                   else ends_with ".zip" (py_str (default (PStr "") (assoc m "Path")))).
    { simpl. by destruct (truthy _). }
    rewrite Hz.
    destruct (truthy (default PNone (assoc m "IsDir"))); simpl in H;
      injection H as <-; (split; [|constructor; eauto]).
    + by rewrite decide_False.
    + destruct (ends_with ".zip" _); [by rewrite decide_True|by rewrite decide_False].
Qed.

Lemma with_keys_entries E backups keyed :
  with_keys E backups = Ok keyed -> keyed.*2 = backups.
Proof.
  revert keyed. induction backups as [|e rest IH]; intros keyed.
  - by intros [= <-].
  - simpl. destruct (py_get e "ModTime" PNone) as [m|]; simpl; [|done].
    destruct (_parse_time E m) as [k|]; simpl; [|done].
    destruct (with_keys E rest) as [rest'|]; simpl; [|done].
    intros [= <-]. rewrite fmap_cons. f_equal. by apply IH.
Qed.

(** Where the keys of the selected entries are all naive or all aware,
    the entries are sorted by modification time, entries with the same
    time keeping their order; with [n] entries, none is deleted when
    [n <= keep], and otherwise the first [n - keep] of the sorted list
    are, which are not later than any of the [keep] entries that stay. *)
Lemma backups_to_delete_oldest E entries l backups keyed k keep :
  py_iter entries = Ok l ->
  select_backups l = Ok backups ->
  with_keys E backups = Ok keyed ->
  of_kind k keyed ->
  (1 <= keep)%Z ->
  let n := length backups in
  exists sorted,
    sort_by_key [] keyed = Ok sorted /\
    sorted ≡ₚ keyed /\ StronglySorted key_le sorted /\
    (forall k', with_key k' sorted = with_key k' keyed) /\
    let deleted := take (n - Z.to_nat keep) sorted in
    let kept := drop (n - Z.to_nat keep) sorted in
    backups_to_delete E entries keep = Ok deleted.*2 /\
    length deleted = n - Z.to_nat keep /\
    (Z.to_nat keep < n -> length kept = Z.to_nat keep) /\
    (forall d r, d ∈ deleted -> r ∈ kept -> key_le d r).
Proof.
  intros Hl Hsel Hkeys Hkind Hkeep n.
  destruct (sort_by_key_sorted k [] keyed) as (sorted & Hsort & Hp & Hs & Hst);
    [constructor|done|constructor|].
  simpl in Hp.
  assert (Hlen : length sorted = n).
  { rewrite Hp. subst n. rewrite <- (with_keys_entries _ _ _ Hkeys).
    by rewrite length_fmap. }
  exists sorted. split_and!; [done|done|done|done|].
  intros deleted kept. split_and!.
  - unfold backups_to_delete, sort_backups. rewrite Hl. simpl.
    rewrite Hsel. simpl. rewrite Hkeys. simpl. rewrite Hsort. simpl.
    rewrite length_map, Hlen.
    destruct (Z.of_nat n <=? keep)%Z eqn:Hn.
    + apply Z.leb_le in Hn. subst deleted.
      replace (n - Z.to_nat keep) with 0 by lia. done.
    + subst deleted. by rewrite <- fmap_take.
  - subst deleted. rewrite length_take. lia.
  - intros Hlt. subst kept. rewrite length_drop. lia.
  - intros d r Hd Hr.
    rewrite <- (take_drop (n - Z.to_nat keep) sorted) in Hs.
    by eapply StronglySorted_app_1_elem_of.
Qed.

(** *** The deletions *)

Lemma contains_char_rev_app c s acc :
  contains_char c (String.rev_app s acc) = contains_char c s || contains_char c acc.
Proof.
  revert acc. induction s as [|a s IH]; intros acc; simpl; [done|].
  rewrite IH. simpl. by destruct (Ascii.eqb a c), (contains_char c s).
Qed.

Lemma ends_with_zip_contains_p s :
  ends_with ".zip" s = true -> contains_char "p"%char s = true.
Proof.
  unfold ends_with. intros H.
  assert (Hr : contains_char "p"%char (String.rev s) = true).
  { change (String.rev ".zip") with "piz." in H.
    destruct (String.rev s) as [|a r]; [done|].
    change (String.prefix "piz." (String a r))
      with (if Ascii.ascii_dec "p" a then String.prefix "iz." r else false) in H.
    destruct (Ascii.ascii_dec "p" a) as [<-|Hne]; done. }
  unfold String.rev in Hr. rewrite contains_char_rev_app in Hr.
  simpl in Hr. by rewrite orb_false_r in Hr.
Qed.

Lemma string_of_uint_no_p d :
  contains_char "p"%char (NilEmpty.string_of_uint d) = false.
Proof. induction d; simpl; done. Qed.

Lemma string_of_int_no_p i :
  contains_char "p"%char (NilZero.string_of_int i) = false.
Proof.
  destruct i as [d|d]; simpl; unfold NilZero.string_of_uint;
    destruct d; simpl; try done; apply string_of_uint_no_p.
Qed.

(** An entry that is selected has a string as [Path], which is not
    empty. *)
Lemma is_zip_file_path e :
  is_zip_file e = true ->
  exists m s, e = PDict m /\ assoc m "Path" = Some (PStr s) /\
              truthy (PStr s) = true.
Proof.
  destruct e as [| | | | |m]; simpl; try done.
  intros [_ H]%andb_true_iff. exists m.
  destruct (assoc m "Path") as [[|[]|z|s| |]|]; simpl in H; try done.
  - apply ends_with_zip_contains_p in H. by rewrite string_of_int_no_p in H.
  - exists s. split_and!; [done|done|]. by destruct s.
Qed.

(** When every [rclone deletefile] succeeds, the entries are deleted one
    after the other, in the order of the list. *)
Lemma delete_backups_all E remote remote_path to_delete w :
  (forall t target, run E t (RcloneDeletefile target) = Some 0%Z) ->
  Forall (fun e => is_zip_file e = true) to_delete ->
  delete_backups E remote remote_path to_delete w
  = (Ret tt, World (fs w) (trace w ++ map (deletion remote remote_path) to_delete)).
Proof.
  intros Hrun Hall. revert w. induction Hall as [|e rest He Hall IH]; intros w.
  - simpl. unfold ret. rewrite app_nil_r. by destruct w.
  - destruct (is_zip_file_path e He) as (m & s & -> & Hpath & Hs).
    simpl. unfold bind, lift, run_cmd, bind, subprocess_run, get_fs, set_fs, ret.
    simpl. rewrite Hpath. simpl. simpl in Hs. repeat (rewrite Hs; simpl).
    rewrite Hrun. simpl. rewrite IH. cbn [fs trace].
    unfold deletion at 2, entry_path. rewrite Hpath. simpl.
    by rewrite <- app_assoc.
Qed.

(** ** The claims on worked inputs *)

(** The project of the specification: two named volumes, the second
    under its external name, and two exports under these names. *)
Example shop_volumes : named_volumes_of shop = Ok [PStr "data"; PStr "shop_dbdata"].
Proof. reflexivity. Qed.

Example shop_exports :
  let r := backup_project E_ok ["srv"; "shop"] "remote" "backups" 4 (World fs_shop []) in
  r.1 = Ret ["srv"; "shop"; "shop-20240101-120000.zip"] /\
  omap (fun ev => match ev with
                  | EvRun (DockerExport _ _ archive_name) _ => Some archive_name
                  | _ => None
                  end) (trace r.2)
  = ["volume-data-20240101-120000.tar.gz"; "volume-shop_dbdata-20240101-120000.tar.gz"].
Proof. vm_compute. done. Qed.

(** Six archives among eight entries, four to keep: the two oldest are
    deleted, the older first. *)
Example six_archives_keep_four :
  let r := rotate_project_backups (E_listing listing_six) "remote" "backups" 4
             (World ∅ []) in
  r.1 = Ret tt /\ deletions (trace r.2) = ["remote:backups/a.zip"; "remote:backups/b.zip"].
Proof. vm_compute. done. Qed.

(** C3, on a listing of three archives of which one has a time that
    [fromisoformat] rejects, with one to keep: the three entries are all selected, so
    two are to be deleted; the sort raises [TypeError], rotation ends
    with it after the listing, and no entry is deleted. *)
Theorem C3_rotation_deletes_nothing_on_unparseable_time :
  let E := E_listing listing_unparseable_time in
  let r := rotate_project_backups E "remote" "backups" 1 (World ∅ []) in
  (exists l, py_iter listing_unparseable_time = Ok l /\
             select_backups l = Ok l /\ length l = 3) /\
  backups_to_delete E listing_unparseable_time 1 = Raise TypeError /\
  r.1 = Exc TypeError /\
  trace r.2 = [EvRun (RcloneLsjson "remote:backups") (Some 0%Z)] /\
  deletions (trace r.2) = [].
Proof. vm_compute. split_and!; eauto. Qed.

(** C4, on a listing of an archive without a time and an archive with a
    valid RFC 3339 time: the key of the first is the naive
    [datetime.min], the key of the second is aware, and the sort raises
    [TypeError] instead of putting the first before the second. *)
Theorem C4_sort_raises_on_missing_and_valid_time :
  let E := E_listing listing_missing_time in
  let a := remote_entry "a.zip" "" in
  let b := remote_entry "b.zip" "2024-01-01T00:00:00Z" in
  with_keys E [a; b] = Ok [(datetime_min, a); (january 1, b)] /\
  sort_backups E [a; b] = Raise TypeError /\
  (rotate_project_backups E "remote" "backups" 1 (World ∅ [])).1 = Exc TypeError.
Proof. vm_compute. done. Qed.

(** C6, on a project directory named [my.app]: every step succeeds and
    the run returns, yet the one file it uploads is [my.zip], not
    [my.app-20240101-120000.zip], and the tree archive and the final
    bundle it has written are still there. *)
Theorem C6_dotted_name_uploads_other_file :
  let r := backup_project E_ok ["srv"; "my.app"] "remote" "backups" 4
             (World fs_dotted []) in
  r.1 = Ret ["srv"; "my.app"; "my.zip"] /\
  uploads (trace r.2) = [["srv"; "my.app"; "my.zip"]] /\
  fs r.2 !! ["srv"; "my.app-project-20240101-120000.zip"]
  = Some (File (ZipOf (tree_members fs_dotted ["srv"; "my.app"]))) /\
  is_file (fs r.2) ["srv"; "my.app"; "my.app-20240101-120000.zip"] = true /\
  exists_ (fs r.2) dotted_staging = false.
Proof. vm_compute. done. Qed.

(** C7, on the same project when the export of the second volume fails:
    the services were stopped once and not started, the staging
    directory holds the export of the first volume, but not the tree
    archive, which is still in the parent directory; what was moved into
    the staging directory is the file [my.zip] that lay there. *)
Theorem C7_dotted_name_tree_archive_not_staged :
  let r := backup_project E_export_fails ["srv"; "my.app"] "remote" "backups" 4
             (World fs_dotted []) in
  r.1 = Exc (CommandFailed 1
               (DockerExport "logs" dotted_staging "volume-logs-20240101-120000.tar.gz")) /\
  stops (trace r.2) = 1 /\ starts (trace r.2) = 0 /\
  fs r.2 !! dotted_staging = Some Dir /\
  fs r.2 !! (dotted_staging ++ ["volume-data-20240101-120000.tar.gz"])
  = Some (File (TarOf "data")) /\
  fs r.2 !! (dotted_staging ++ ["my.app-project-20240101-120000.zip"]) = None /\
  fs r.2 !! (dotted_staging ++ ["my.zip"]) = Some (File Blob) /\
  is_file (fs r.2) ["srv"; "my.app-project-20240101-120000.zip"] = true.
Proof. vm_compute. done. Qed.

(** C8 as stated fails: when the staging directory cannot be removed
    after the upload, no rotation follows. *)
Lemma C8_counterexample :
  ~ cleanup_failure_not_escalated E_rmtree_fails ["srv"; "shop"] "remote" "backups" 4
      (World fs_shop []).
Proof.
  intros H.
  pose (ev := EvFs (OpRmtree ["srv"; "shop"; ".docker-backup-temp-20240101-120000"])
                (Some OSError)).
  let t := eval vm_compute in
    (trace (backup_project E_rmtree_fails ["srv"; "shop"] "remote" "backups" 4
              (World fs_shop [])).2) in
  assert (Ht : trace (backup_project E_rmtree_fails ["srv"; "shop"] "remote" "backups" 4
                        (World fs_shop [])).2 = [] ++ t)
    by (vm_compute; reflexivity);
  destruct (H t ev OSError Ht) as (target & rc & Hin).
  - apply list_elem_of_In. simpl. tauto.
  - exact eq_refl.
  - apply list_elem_of_In in Hin. simpl in Hin.
    repeat (destruct Hin as [Hin|Hin]; [discriminate Hin|]). done.
Qed.

Lemma C8_witness :
  let r := backup_project E_rmtree_fails ["srv"; "shop"] "remote" "backups" 4
             (World fs_shop []) in
  r.1 = Exc OSError /\ Forall (fun ev => ~ is_rotation ev) (trace r.2).
Proof.
  intros r.
  pose (ev := EvFs (OpRmtree ["srv"; "shop"; ".docker-backup-temp-20240101-120000"])
                (Some OSError)).
  let t := eval vm_compute in (trace r.2) in
  assert (Ht : trace r.2 = [] ++ t) by (vm_compute; reflexivity);
  destruct (C8_cleanup_failure_aborts_run E_rmtree_fails ["srv"; "shop"] "remote"
              "backups" 4 (World fs_shop []) t ev OSError Ht)
    as (Ho & _ & Hrot).
  - apply list_elem_of_In. simpl. tauto.
  - exact eq_refl.
  - split; [exact Ho|]. rewrite Ht. exact Hrot.
Defined.

(** C9 as stated fails on two inputs: with the staging directory of
    project [a] in place, the batch ends in [sys.exit(1)] without
    starting project [b]; and over a root without subdirectories it
    raises although no project has failed. *)
Lemma C9_counterexample :
  (~ batch_isolates_failures E_ok "remote" "backups" ["srv"] (World fs_collision []) /\
   let r := backup_all_projects E_ok "remote" "backups" ["srv"] (World fs_collision []) in
   iter_project_dirs fs_collision ["srv"] = [["srv"; "a"]; ["srv"; "b"]] /\
   r.1 = Exit 1 /\ EvStart ["srv"; "b"] ∉ trace r.2)
  /\
  (~ batch_isolates_failures E_ok "remote" "backups" ["srv"] (World fs_no_projects []) /\
   backup_all_projects E_ok "remote" "backups" ["srv"] (World fs_no_projects [])
   = (Exc FileNotFoundError, World fs_no_projects [])).
Proof.
  split; split.
  - intros (results & _ & Hr).
    assert (Hexit : (backup_all_projects E_ok "remote" "backups" ["srv"]
                       (World fs_collision [])).1 = Exit 1) by (vm_compute; done).
    rewrite Hexit in Hr. destruct (failed_projects results); discriminate Hr.
  - cbv zeta. split_and!.
    + by vm_compute.
    + by vm_compute.
    + intros Hin. apply list_elem_of_In in Hin. vm_compute in Hin.
      repeat (destruct Hin as [Hin|Hin]; [discriminate Hin|]). done.
  - intros (results & Hruns & Hr).
    assert (Hdirs : iter_project_dirs (fs (World fs_no_projects [])) ["srv"] = [])
      by (vm_compute; done).
    rewrite Hdirs in Hruns. apply batch_runs_nil in Hruns. subst results.
    vm_compute in Hr. discriminate Hr.
  - by vm_compute.
Qed.

Lemma C9_witness :
  batch_isolates_failures E_ok "remote" "backups" ["srv"] (World fs_two_projects []) /\
  (backup_all_projects E_ok "remote" "backups" ["srv"] (World fs_two_projects [])).1
  = Exc (CompletedWithFailures [("a", FileNotFoundError)]).
Proof.
  split; [|by vm_compute].
  apply (C9_batch_isolates_exceptions E_ok "remote" "backups" ["srv"]
           (World fs_two_projects [])).
  - by vm_compute.
  - intros c. by vm_compute.
  - by vm_compute.
Defined.

Lemma C1_witness :
  classify_mount (PDict [("./conf", PDict [("name", PStr "conf")])])
    (PStr "./conf:/etc/conf") = Ok Skipped.
Proof.
  apply (proj1 C1_host_paths_and_sourceless_mounts_excluded). reflexivity.
Defined.

Lemma C2_witness :
  exists l : list string,
    named_volumes_of shop = Ok (map PStr l) /\
    Sorted String.le l /\ NoDup l /\ (forall n, n ∈ l <-> referenced shop n).
Proof. apply (C2_sorted_distinct_resolved_names shop). reflexivity. Defined.

Lemma C5_witness :
  fs_wf fs_shop = true /\
  exists evs,
    trace (backup_project E_ok ["srv"; "shop"] "remote" "backups" 4 (World fs_shop [])).2
    = [] ++ evs /\
    (Forall (fun ev => ~ creates_dir ev) evs \/
     exists rest,
       evs = EvFs (OpMakeArchive (tree_archive ["srv"; "shop"] stamp) ["srv"; "shop"]) None
             :: EvArchived (tree_archive ["srv"; "shop"] stamp)
                  (tree_members fs_shop ["srv"; "shop"])
             :: EvFs (OpMkdir (staging_dir ["srv"; "shop"] stamp)) None :: rest /\
       ~ ["srv"; "shop"] `prefix_of` tree_archive ["srv"; "shop"] stamp /\
       (forall m, m ∈ tree_members fs_shop ["srv"; "shop"] ->
                  ~ staging_dir ["srv"; "shop"] stamp `prefix_of` m) /\
       Forall (fun ev => ~ creates_dir ev) rest).
Proof.
  split; [by vm_compute|].
  apply (C5_tree_archive_before_staging E_ok ["srv"; "shop"] "remote" "backups" 4
           (World fs_shop [])); [by vm_compute|done].
Defined.

Lemma C10_witness :
  (backup_project E_ok ["srv"; "a"] "remote" "backups" 4 (World fs_collision [])).1
  = Exit 1 /\
  (backup_all_projects E_ok "remote" "backups" ["srv"] (World fs_collision [])).1
  = Exit 1.
Proof.
  destruct (C10_staging_collision_exits E_ok "remote" "backups") as [Hone Hall].
  split.
  - destruct (Hone ["srv"; "a"] 4%Z (World fs_collision [])) as (H & _);
      [vm_compute; reflexivity..|exact H].
  - destruct (Hall ["srv"] (World fs_collision []) [] ["srv"; "a"] [["srv"; "b"]] []
                (World fs_collision [])) as (H & _);
      [vm_compute; reflexivity..|exact H].
Defined.

(** ** Nothing local is deleted before the upload has succeeded *)

Lemma upload_onwards_head temp_dir final_zip_path dest rest o l ev post :
  upload_onwards temp_dir final_zip_path dest rest o ->
  rest = l ++ ev :: post -> local_deletion ev ->
  EvRun (RcloneCopy final_zip_path dest) (Some 0%Z) ∈ l.
Proof.
  intros Hrest Heq Hdel.
  assert (Hhead : forall x tl, rest = x :: tl -> ~ local_deletion x ->
                               x ∈ l).
  { intros x tl Hx Hnot. rewrite Hx in Heq. destruct l as [|y l'].
    - simpl in Heq. injection Heq as -> _. done.
    - simpl in Heq. injection Heq as -> _. left. }
  destruct Hrest as [rc e Hrc|e|e|unl rot o Hunl Hrot Ho].
  - exfalso.
    assert (Hin : ev ∈ [EvRun (RcloneCopy final_zip_path dest) rc;
                        EvReport e temp_dir (Some final_zip_path)])
      by (rewrite Heq; set_solver).
    apply list_elem_of_In in Hin. simpl in Hin.
    destruct Hin as [<-|[<-|[]]]; done.
  - eapply Hhead; [done|]. by intros [].
  - eapply Hhead; [done|]. by intros [].
  - eapply Hhead; [done|]. by intros [].
Qed.

(** X11: the staging directory and the local bundle are deleted, or
    their deletion is attempted, only after the upload of the run has
    succeeded. *)
Theorem deletions_follow_upload E project_dir remote remote_path keep w pre ev post :
  trace (backup_project E project_dir remote remote_path keep w).2
  = trace w ++ pre ++ ev :: post ->
  local_deletion ev ->
  exists final_zip_path,
    EvRun (RcloneCopy final_zip_path (remote_target remote remote_path)) (Some 0%Z)
      ∈ pre.
Proof.
  intros Ht Hdel.
  destruct (backup_project_trace E project_dir remote remote_path keep w)
    as (evs & Ht' & Hcases). cbv zeta in Ht', Hcases.
  rewrite Ht in Ht'. apply app_inv_head in Ht'. subst evs.
  destruct Hcases as [Hquiet|(pre0 & rest & final & Heq & Hpre & Hrest)].
  - apply Forall_app in Hquiet as [_ Hquiet].
    apply Forall_cons in Hquiet as [Hev _].
    by destruct ev as [[] ?|? ?|[]| | |].
  - exists final. apply app_eq_app in Heq as [l [[-> Hr]|[-> Hr]]].
    + apply elem_of_app. right. by eapply upload_onwards_head.
    + (* the deletion would lie before the upload *)
      exfalso. destruct l as [|x l].
      * simpl in Hr. subst rest.
        pose proof (upload_onwards_head _ _ _ _ _ [] ev post Hrest eq_refl Hdel) as H.
        by apply elem_of_nil in H.
      * simpl in Hr. injection Hr as <- _.
        apply Forall_app in Hpre as [_ Hpre].
        apply Forall_cons in Hpre as [Hev _].
        by destruct ev as [[] ?|? ?|[]| | |].
Qed.

(** ** Further properties of the scripts *)

(** *** [find_compose_file] *)

Lemma filter_head {A} (P : A -> Prop) `{!forall x, Decision (P x)} (l : list A) x rest :
  filter P l = x :: rest ->
  exists before after,
    l = before ++ x :: after /\ P x /\ Forall (fun y => ~ P y) before.
Proof.
  induction l as [|y l IH]; [done|]. rewrite filter_cons.
  destruct (decide (P y)) as [Hy|Hy].
  - intros [= -> <-]. exists [], l. by split_and!.
  - intros (before & after & -> & Hx & Hb)%IH.
    exists (y :: before), after. split_and!; [done|done|by constructor].
Qed.

(** X1: [find_compose_file] gives the first of the four conventional
    names, in their order, that is a file of the project directory, and
    raises [FileNotFoundError] exactly when none is; it changes nothing. *)
Theorem find_compose_file_first (project_dir : path) (w : world) :
  match find_compose_file project_dir w with
  | (Ret p, w') =>
      w' = w /\
      exists before name after,
        candidates = before ++ name :: after /\
        p = path_join project_dir name /\
        is_file (fs w) p = true /\
        Forall (fun n => is_file (fs w) (path_join project_dir n) = false) before
  | (Exc e, w') =>
      w' = w /\ e = FileNotFoundError /\
      Forall (fun n => is_file (fs w) (path_join project_dir n) = false) candidates
  | (Exit _, _) => False
  end.
Proof.
  unfold find_compose_file.
  destruct (filter _ candidates) as [|name rest] eqn:Hf; cbv beta iota.
  - split_and!; [done|done|].
    apply Forall_forall. intros n Hn.
    destruct (is_file (fs w) (path_join project_dir n)) eqn:Hfile; [|done].
    assert (n ∈ filter (fun name => is_file (fs w) (path_join project_dir name))
                  candidates) as Hin.
    { apply list_elem_of_filter. split; [by apply Is_true_true|done]. }
    rewrite Hf in Hin. by apply elem_of_nil in Hin.
  - split; [done|].
    apply filter_head in Hf as (before & after & Hc & Hname & Hb).
    exists before, name, after. split_and!; [done|done|by apply Is_true_true|].
    eapply Forall_impl; [exact Hb|]. intros n Hn.
    destruct (is_file (fs w) (path_join project_dir n)) eqn:Hfile; [|done].
    exfalso. apply Hn. by rewrite Hfile.
Qed.

(** *** Volume discovery does not depend on the order of the services *)

Lemma named_volumes_of_descriptor (s t : list (string * pyval)) :
  forallb (fun kv => wf_service (snd kv)) s = true ->
  forallb (fun kv => wf_volume_def (snd kv)) t = true ->
  named_volumes_of (descriptor s t)
  = py_sorted (map PStr (foldl add_name []
                           (mount_names t (concat (map service_mounts s.*2))))).
Proof.
  intros Hs Ht. unfold named_volumes_of, descriptor, or_empty_dict. simpl.
  change [] with (map PStr []) at 1.
  by rewrite (scan_services_wf t s [] Ht Hs).
Qed.

Lemma mount_names_elem_services (t s : list (string * pyval)) (n : string) :
  n ∈ mount_names t (concat (map service_mounts s.*2)) <->
  exists svc v k, svc ∈ s.*2 /\ v ∈ service_mounts svc /\
                  volume_key v = Some k /\ resolved_name t k = n.
Proof.
  unfold mount_names. rewrite list_elem_of_omap. split.
  - intros (v & Hv & Hn).
    apply list_elem_of_In, in_concat in Hv as (l & Hl & Hv).
    apply list_elem_of_In in Hl, Hv.
    apply list_elem_of_fmap in Hl as (svc & -> & Hsvc).
    destruct (volume_key v) as [k|] eqn:Hk; simpl in Hn; [|done].
    injection Hn as <-. by exists svc, v, k.
  - intros (svc & v & k & Hsvc & Hv & Hk & Hn).
    exists v. rewrite Hk. simpl. split; [|by rewrite Hn].
    apply list_elem_of_In, in_concat. exists (service_mounts svc).
    rewrite <- !list_elem_of_In. split; [|done].
    apply list_elem_of_fmap. eauto.
Qed.

(** X2: for services and volume definitions of the specification's
    shape, listing the services in another order gives the same result. *)
Theorem discovery_ignores_service_order (s s' t : list (string * pyval)) :
  forallb (fun kv => wf_service (snd kv)) s = true ->
  forallb (fun kv => wf_volume_def (snd kv)) t = true ->
  s ≡ₚ s' ->
  named_volumes_of (descriptor s' t) = named_volumes_of (descriptor s t).
Proof.
  intros Hs Ht Hp.
  assert (Hs' : forallb (fun kv => wf_service (snd kv)) s' = true).
  { rewrite forallb_forall in Hs |- *. intros x Hx. apply Hs.
    apply list_elem_of_In. rewrite Hp. by apply list_elem_of_In. }
  rewrite !named_volumes_of_descriptor by done.
  set (ns := foldl add_name [] (mount_names t (concat (map service_mounts s.*2)))).
  set (ns' := foldl add_name [] (mount_names t (concat (map service_mounts s'.*2)))).
  assert (Hnd : NoDup ns) by (apply foldl_add_name_NoDup; constructor).
  assert (Hnd' : NoDup ns') by (apply foldl_add_name_NoDup; constructor).
  assert (Hsame : forall n, n ∈ ns' <-> n ∈ ns).
  { intros n. subst ns ns'. rewrite !foldl_add_name_elem, !mount_names_elem_services.
    rewrite !elem_of_nil. setoid_rewrite Hp. done. }
  destruct (py_sorted_names ns Hnd) as (l & -> & Hsl & Hndl & Hel).
  destruct (py_sorted_names ns' Hnd') as (l' & -> & Hsl' & Hndl' & Hel').
  do 2 f_equal. apply (Sorted_unique String.le); [done|done|].
  apply NoDup_Permutation; [done|done|]. intros n. by rewrite Hel, Hel', Hsame.
Qed.

(** *** [detect_docker_compose_command] *)

(** X3: the plugin is chosen exactly when [docker compose version]
    returns 0, and then [docker-compose] is not probed; otherwise
    [docker-compose] is chosen exactly when its probe returns 0; a missing
    executable counts as a failed probe, and with two failed probes a
    [RuntimeError] is raised.  Only probes are run. *)
Theorem detect_prefers_plugin (E : env) (w : world) :
  let rc1 := run E (trace w) (ComposeVersion true) in
  let t1 := trace w ++ [EvRun (ComposeVersion true) rc1] in
  let rc2 := run E t1 (ComposeVersion false) in
  let r := detect_docker_compose_command E w in
  fs r.2 = fs w /\
  (rc1 = Some 0%Z -> r.1 = Ret true /\ trace r.2 = t1) /\
  (rc1 <> Some 0%Z ->
   trace r.2 = t1 ++ [EvRun (ComposeVersion false) rc2] /\
   (rc2 = Some 0%Z -> r.1 = Ret false) /\
   (rc2 <> Some 0%Z -> exists msg, r.1 = Exc (RuntimeError msg))).
Proof.
  intros rc1 t1 rc2 r. subst r.
  unfold detect_docker_compose_command, bind, subprocess_run, ret, raise.
  cbn [fs trace]. fold rc1. fold t1.
  destruct rc1 as [[|p|p]|] eqn:H1; cbn [fs trace fst snd]; fold rc2;
    try (destruct rc2 as [[|q|q]|] eqn:H2; cbn [fs trace fst snd]);
    split_and!; try done; intros; split_and!; try done; intros; eauto.
Qed.

(** *** The path [create_project_zip] returns *)

Lemma split_last_dot_app s b e :
  split_last_dot s = Some (b, e) -> s = b +:+ String dot e.
Proof.
  revert b e. induction s as [|a s IH]; intros b e; simpl; [done|].
  destruct (split_last_dot s) as [[b' e']|].
  - intros [= <- <-]. rewrite (IH b' e' eq_refl) at 1. done.
  - destruct (Ascii.eqb a dot) eqn:Ha; [|done].
    apply Ascii.eqb_eq in Ha. intros [= <- <-]. by subst a.
Qed.

Lemma with_suffix_zip_same name :
  with_suffix_zip name = name +:+ ".zip" <-> inner_dot name = false.
Proof.
  unfold with_suffix_zip, inner_dot.
  destruct (split_last_dot name) as [[[|a b] [|c e]]|] eqn:Hs; try done.
  split; [|done]. intros H. exfalso.
  apply split_last_dot_app in Hs. rewrite Hs in H.
  apply (f_equal String.length) in H.
  repeat (rewrite ?string_app_length in H; simpl in H). lia.
Qed.

(** X4: when the archive can be written, [create_project_zip] writes it
    to [<name>-project-<timestamp>.zip] in the parent directory, from the
    project tree, and returns a path; that path is the archive exactly
    when [<name>-project-<timestamp>] has no inner dot. *)
Theorem create_project_zip_returns_archive
    (E : env) (project_dir : path) (ts : string) (w : world) :
  let zip := tree_archive project_dir ts in
  io_fails E (trace w) (OpMakeArchive zip project_dir) = false ->
  let r := create_project_zip E project_dir ts w in
  exists p,
    r.1 = Ret p /\
    fs r.2 = <[zip := File (ZipOf (tree_members (fs w) project_dir))]> (fs w) /\
    (p = zip <-> inner_dot (path_name project_dir +:+ "-project-" +:+ ts) = false).
Proof.
  intros zip Hio r. subst r.
  unfold create_project_zip, make_archive, bind, get_fs, fs_attempt, emit, ret.
  cbv beta zeta. cbn [fs trace]. fold (tree_archive project_dir ts). fold zip.
  rewrite Hio. cbn [fs trace fst snd].
  eexists. split_and!; [done|done|].
  rewrite <- with_suffix_zip_same. unfold zip, tree_archive, path_join. split.
  - intros H. by apply app_inj_tail in H as [_ H].
  - by intros ->.
Qed.

(** *** The exports *)

Lemma export_volume_run (E : env) (vol : string) (temp_dir : path) (ts : string)
    (w : world) :
  let cmd := export_cmd temp_dir ts vol in
  let rc := run E (trace w) cmd in
  let t := trace w ++ [EvRun cmd rc] in
  export_volume E vol temp_dir ts w =
    if decide (rc = Some 0%Z)
    then (Ret (path_div temp_dir ("volume-" +:+ vol +:+ "-" +:+ ts +:+ ".tar.gz")),
          World (<[path_div temp_dir ("volume-" +:+ vol +:+ "-" +:+ ts +:+ ".tar.gz")
                   := File (TarOf vol)]> (fs w)) t)
    else (Exc (cmd_error cmd rc), World (fs w) t).
Proof.
  intros cmd rc t. subst t rc.
  unfold export_volume, run_cmd, bind, subprocess_run, get_fs, set_fs, ret, raise.
  cbv beta zeta. cbn [fs trace]. fold (export_cmd temp_dir ts vol). fold cmd.
  destruct (run E (trace w) cmd) as [c|]; cbn [fs trace]; [|done].
  destruct (Z.eqb_spec c 0) as [->|Hc]; cbn [fs trace].
  - by rewrite decide_True.
  - rewrite decide_False; [done|]. by intros [= ->].
Qed.

(** The volumes are exported one after the other, in the order of the
    list; the first export that fails ends the loop with its error. *)
Lemma export_volumes_run (E : env) (names : list string) (temp_dir : path)
    (ts : string) (w : world) :
  let r := export_volumes E names temp_dir ts w in
  (exists paths,
     r.1 = Ret paths /\ length paths = length names /\
     trace r.2 = trace w ++ map (exported temp_dir ts) names)
  \/
  (exists before vol after rc,
     names = before ++ vol :: after /\ rc <> Some 0%Z /\
     r.1 = Exc (cmd_error (export_cmd temp_dir ts vol) rc) /\
     trace r.2 = trace w ++ map (exported temp_dir ts) before
                   ++ [EvRun (export_cmd temp_dir ts vol) rc]).
Proof.
  revert w. induction names as [|vol rest IH]; intros w; cbv zeta.
  - left. exists []. simpl. by rewrite app_nil_r.
  - cbn [export_volumes]. unfold bind, ret. rewrite export_volume_run.
    destruct (decide (run E (trace w) (export_cmd temp_dir ts vol) = Some 0%Z))
      as [Hrun|Hrun].
    2:{ right. exists [], vol, rest, (run E (trace w) (export_cmd temp_dir ts vol)).
        by split_and!. }
    rewrite Hrun.
    match goal with |- context [export_volumes E rest temp_dir ts ?w1] =>
      specialize (IH w1); cbv zeta in IH;
      destruct (export_volumes E rest temp_dir ts w1) as [o w2] end.
    cbn [fs trace fst snd] in IH.
    destruct IH as [(paths & -> & Hlen & Ht)
                   |(before & v & after & rc & -> & Hrc & -> & Ht)];
      cbn [fs trace fst snd].
    + left. eexists. split_and!; [done|by cbn [length]; rewrite Hlen|].
      cbn [fs trace fst snd map]. rewrite Ht. cbn [fs trace]. by rewrite <- app_assoc.
    + right. exists (vol :: before), v, after, rc. split_and!; [done|done|done|].
      cbn [fs trace fst snd map]. rewrite Ht. cbn [fs trace map app].
      by rewrite <- !app_assoc.
Qed.

(** *** Lines 299-328: stop, export, start, bundle *)

Lemma run_cmd_run (E : env) (cmd : command) (w : world) :
  let rc := run E (trace w) cmd in
  let w1 := World (fs w) (trace w ++ [EvRun cmd rc]) in
  run_cmd E cmd (fun f => f) w =
    if decide (rc = Some 0%Z) then (Ret tt, w1) else (Exc (cmd_error cmd rc), w1).
Proof.
  cbv zeta. unfold run_cmd, bind, subprocess_run, get_fs, set_fs, ret, raise.
  cbv beta zeta. cbn [fs trace].
  destruct (run E (trace w) cmd) as [c|]; cbn [fs trace]; [|done].
  destruct (Z.eqb_spec c 0) as [->|Hc]; cbn [fs trace].
  - by rewrite decide_True.
  - rewrite decide_False; [done|]. by intros [= ->].
Qed.

(** What comes before the services are touched: the compose file is
    found and read, and the compose command is probed for. *)
Lemma stage_setup_run (E : env) (project_dir : path) (w : world) :
  let m := (compose_file <- find_compose_file project_dir ;;
            volumes <- extract_named_volumes E compose_file ;;
            names <- lift (join_names volumes) ;;
            docker_compose_cmd <- detect_docker_compose_command E ;;
            ret (names, docker_compose_cmd))%M in
  exists setup,
    trace (m w).2 = trace w ++ setup /\ Forall setup_event setup /\
    forall c, (m w).1 <> Exit c.
Proof.
  cbv zeta. destruct w as [f t].
  unfold find_compose_file, extract_named_volumes, detect_docker_compose_command,
    bind, lift, subprocess_run, fs_attempt, get_fs, ret, raise.
  cbv beta zeta. cbn [fs trace].
  destruct (filter _ candidates) as [|name _]; cbn [fs trace fst snd].
  { exists []. by rewrite app_nil_r. }
  destruct (io_fails E t _); cbn [fs trace fst snd].
  { eexists [_]. split_and!; [done|by repeat constructor|done]. }
  destruct (safe_load _) as [data|e]; cbn [fs trace fst snd].
  2:{ eexists [_]. split_and!; [done|by repeat constructor|done]. }
  destruct (named_volumes_of data) as [vols|e]; cbn [fs trace fst snd].
  2:{ eexists [_]. split_and!; [done|by repeat constructor|done]. }
  destruct (join_names vols) as [names|e]; cbn [fs trace fst snd].
  2:{ eexists [_]. split_and!; [done|by repeat constructor|done]. }
  destruct (run E _ (ComposeVersion true)) as [[| |]|]; cbn [fs trace fst snd].
  1:{ eexists [_; _]. rewrite <- !app_assoc.
      split_and!; [done|by repeat constructor|done]. }
  all: destruct (run E _ (ComposeVersion false)) as [[| |]|]; cbn [fs trace fst snd];
    eexists [_; _; _]; rewrite <- !app_assoc;
    (split_and!; [done|by repeat constructor|done]).
Qed.

Lemma stop_export_start_bundle_split (E : env) (project_dir temp_dir : path)
    (ts : string) (w : world) :
  stop_export_start_bundle E project_dir temp_dir ts w =
  match (compose_file <- find_compose_file project_dir ;;
         volumes <- extract_named_volumes E compose_file ;;
         names <- lift (join_names volumes) ;;
         docker_compose_cmd <- detect_docker_compose_command E ;;
         ret (names, docker_compose_cmd))%M w with
  | (Ret (names, docker_compose_cmd), w1) =>
      (run_cmd E (ComposeDown docker_compose_cmd project_dir) (fun f => f) ;;
       export_volumes E names temp_dir ts ;;
       run_cmd E (ComposeUp docker_compose_cmd project_dir) (fun f => f) ;;
       create_final_zip_from_temp E project_dir temp_dir ts)%M w1
  | (Exc e, w1) => (Exc e, w1)
  | (Exit c, w1) => (Exit c, w1)
  end.
Proof.
  unfold stop_export_start_bundle, bind, ret.
  destruct (find_compose_file project_dir w) as [[cf|e|c] w1]; [|done|done].
  destruct (extract_named_volumes E cf w1) as [[vols|e|c] w2]; [|done|done].
  destruct (lift (join_names vols) w2) as [[names|e|c] w3]; [|done|done].
  by destruct (detect_docker_compose_command E w3) as [[plugin|e|c] w4].
Qed.

Lemma create_final_zip_run (E : env) (project_dir temp_dir : path) (ts : string)
    (w : world) :
  let zip := final_bundle project_dir ts in
  create_final_zip_from_temp E project_dir temp_dir ts w =
    if io_fails E (trace w) (OpMakeArchive zip temp_dir)
    then (Exc OSError,
          World (fs w) (trace w ++ [EvFs (OpMakeArchive zip temp_dir) (Some OSError)]))
    else (Ret (final_zip project_dir ts),
          World (<[zip := File (ZipOf (tree_members (fs w) temp_dir))]> (fs w))
            (trace w ++ [EvFs (OpMakeArchive zip temp_dir) None;
                         EvArchived zip (tree_members (fs w) temp_dir)])).
Proof.
  cbv zeta.
  unfold create_final_zip_from_temp, make_archive, bind, get_fs, fs_attempt, emit, ret.
  cbv beta zeta. cbn [fs trace]. fold (final_bundle project_dir ts).
  destruct (io_fails E (trace w) _); cbn [fs trace]; [done|].
  by rewrite <- app_assoc.
Qed.

(** Lines 299-328 run in this order: the services are stopped, the
    volumes are exported one after the other, the services are started,
    the bundle is written; the first step that fails ends the stage. *)
Lemma stop_export_start_bundle_run (E : env) (project_dir temp_dir : path)
    (ts : string) (w : world) :
  let r := stop_export_start_bundle E project_dir temp_dir ts w in
  exists evs,
    trace r.2 = trace w ++ evs /\ stage_run project_dir temp_dir ts evs r.1.
Proof.
  cbv zeta. rewrite stop_export_start_bundle_split.
  destruct (stage_setup_run E project_dir w) as (setup & Ht & Hsetup & Hne).
  cbv zeta in Ht, Hne.
  match type of Ht with trace (?m w).2 = _ =>
    destruct (m w) as [[[names plugin]|e|c] w1] end; cbn [fst snd] in *.
  2:{ exists setup. split; [done|]. by apply stage_setup_failed. }
  2:{ by destruct (Hne c). }
  clear Hne. destruct w1 as [f1 t1]. cbn [trace] in Ht. subst t1.
  unfold bind. rewrite run_cmd_run. cbn [fs trace].
  destruct (decide (run E (trace w ++ setup) (ComposeDown plugin project_dir)
                    = Some 0%Z)) as [Hdown|Hdown]; cbn [fst snd trace].
  2:{ eexists. rewrite <- app_assoc. split; [done|].
      by apply stage_down_failed. }
  rewrite Hdown.
  match goal with |- context [export_volumes E names temp_dir ts ?w2] =>
    pose proof (export_volumes_run E names temp_dir ts w2) as Hexp;
    cbv zeta in Hexp;
    destruct (export_volumes E names temp_dir ts w2) as [o w3] end.
  destruct w3 as [f3 t3]. cbn [fst snd fs trace] in Hexp.
  destruct Hexp as [(paths & -> & _ & Ht3)
                   |(before & vol & after & rc & -> & Hrc & -> & Ht3)].
  2:{ cbn [fst snd trace]. eexists. rewrite Ht3, <- !app_assoc. split; [done|].
      by apply stage_export_failed. }
  subst t3. rewrite run_cmd_run. cbn [fs trace].
  match goal with |- context [decide (?rc = Some 0%Z)] =>
    generalize rc; intros rcu;
    destruct (decide (rcu = Some 0%Z)) as [Hup|Hup] end; cbn [fst snd trace].
  2:{ eexists. rewrite <- !app_assoc. split; [done|].
      by apply stage_up_failed. }
  rewrite Hup, create_final_zip_run. cbn [fs trace].
  destruct (io_fails E _ _); cbn [fst snd trace].
  - eexists. rewrite <- !app_assoc. split; [done|].
    by apply stage_bundle_failed.
  - eexists. rewrite <- !app_assoc. split; [done|].
    by apply stage_bundled.
Qed.

Lemma stage_run_no_exit project_dir temp_dir ts evs c :
  ~ stage_run project_dir temp_dir ts evs (Exit c).
Proof. intros H. inversion H. Qed.

(** The whole run: file operations first; then, once the tree archive is
    staged, lines 299-328, and after them the report of their error or
    the upload onwards. *)
Lemma backup_project_stages E project_dir remote remote_path keep w :
  let r := backup_project E project_dir remote remote_path keep w in
  let ts := clock E (trace w) in
  let temp_dir := staging_dir project_dir ts in
  exists pre stage post,
    trace r.2 = trace w ++ pre ++ stage ++ post /\
    Forall local_event pre /\
    ((stage = [] /\ post = [] /\ forall p, r.1 <> Ret p) \/
     exists o,
       stage_run project_dir temp_dir ts stage o /\
       after_stage temp_dir (remote_target remote remote_path) o post r.1).
Proof.
  intros r ts temp_dir. subst r. rewrite backup_project_unfold.
  cbv zeta. fold ts. fold temp_dir.
  set (zip := tree_archive _ _).
  destruct (is_dir (fs w) project_dir).
  2:{ exists [], [], []. rewrite app_nil_r. split_and!; [done|done|]. by left. }
  destruct (io_fails E (trace w) (OpMakeArchive zip project_dir)).
  { eexists [_], [], []. split_and!; [done|by repeat constructor|]. by left. }
  destruct (exists_ _ temp_dir).
  { eexists [_; _; _], [], []. cbn [snd trace]. rewrite <- !app_assoc.
    split_and!; [done|by repeat constructor|]. by left. }
  destruct (io_fails E _ (OpMkdir temp_dir)).
  { eexists [_; _; _], [], []. cbn [snd trace]. rewrite <- !app_assoc.
    split_and!; [done|by repeat constructor|]. by left. }
  set (pre3 := [EvFs (OpMakeArchive zip project_dir) None;
                EvArchived zip (tree_members (fs w) project_dir);
                EvFs (OpMkdir temp_dir) None]).
  assert (Hpre3 : Forall local_event pre3) by by repeat constructor.
  match goal with |- context [staged_backup _ _ _ ?z _ _ _ _ ?w1] =>
    set (returned := z);
    assert (Hw1 : trace w1 = trace w ++ pre3)
      by (cbn [trace]; by rewrite <- !app_assoc);
    generalize dependent w1 end.
  intros w1 Hw1.
  destruct (staged_backup _ _ _ _ _ _ _ _ w1) as [o w4] eqn:Hr. cbn [fst snd].
  unfold staged_backup in Hr. unfold bind at 1 in Hr.
  assert (Hmove : emits local_event
            (move E returned (path_join temp_dir (path_name returned)))).
  { unfold move. by apply emits_fs_attempt. }
  destruct (Hmove w1) as (ev1 & Ht1 & Hev1).
  destruct (move E _ _ w1) as [[[]|e|c] w2]; cbn [fst snd] in *.
  2,3: injection Hr as <- <-; exists (pre3 ++ ev1), [], [];
       rewrite Ht1, Hw1, <- !app_assoc, !app_nil_r;
       (split_and!; [done|by apply Forall_app|by left]).
  unfold bind at 1 in Hr. unfold try_except at 1 in Hr.
  destruct (stop_export_start_bundle_run E project_dir temp_dir ts w2)
    as (stage & Ht2 & Hstage). cbv zeta in Ht2, Hstage.
  destruct (stop_export_start_bundle E project_dir temp_dir ts w2)
    as [[final_zip_path|e|c] w3]; cbn [fst snd] in *.
  - destruct (upload_onwards_run E temp_dir final_zip_path remote remote_path keep w3)
      as (rest & Ht3 & Hrest). cbv zeta in Ht3, Hrest.
    rewrite Hr in Ht3, Hrest. cbn [fst snd] in Ht3, Hrest.
    exists (pre3 ++ ev1), stage, rest. split_and!.
    + rewrite Ht3, Ht2, Ht1, Hw1. by rewrite <- !app_assoc.
    + by apply Forall_app.
    + right. by exists (Ret final_zip_path).
  - unfold report, bind, emit, raise in Hr. cbn [fs trace] in Hr.
    injection Hr as <- <-. cbn [trace].
    exists (pre3 ++ ev1), stage, [EvReport e temp_dir None]. split_and!.
    + rewrite Ht2, Ht1, Hw1. by rewrite <- !app_assoc.
    + by apply Forall_app.
    + right. by exists (Exc e).
  - by apply stage_run_no_exit in Hstage.
Qed.

(** *** The order of a run *)

Lemma split_at_event {A} (P : A -> Prop) (l1 l2 l : list A) (ev : A) (post : list A) :
  l1 ++ l2 = l ++ ev :: post -> P ev -> Forall (fun x => ~ P x) l1 ->
  exists s, l = l1 ++ s /\ l2 = s ++ ev :: post.
Proof.
  intros Heq Hev Hl1. apply app_eq_app in Heq as [k [[-> Hk]|[-> Hk]]].
  - destruct k as [|x k].
    + exists []. by rewrite !app_nil_r in *.
    + exfalso. injection Hk as <- _.
      apply Forall_app in Hl1 as [_ Hl1]. apply Forall_cons in Hl1 as [Hx _]. done.
  - by exists k.
Qed.

Lemma split_before_event {A} (P : A -> Prop) (l1 l2 l : list A) (ev : A)
    (post : list A) :
  l1 ++ l2 = l ++ ev :: post -> P ev -> Forall (fun x => ~ P x) l2 ->
  exists s, l1 = l ++ ev :: s /\ post = s ++ l2.
Proof.
  intros Heq Hev Hl2. apply app_eq_app in Heq as [k [[-> Hk]|[-> Hk]]].
  - destruct k as [|x k].
    + exfalso. simpl in Hk. subst l2. apply Forall_cons in Hl2 as [Hx _]. done.
    + injection Hk as <- ->. by exists k.
  - exfalso. subst l2. apply Forall_app in Hl2 as [_ Hl2].
    apply Forall_cons in Hl2 as [Hx _]. done.
Qed.

Lemma upload_onwards_no_stage temp_dir final_zip_path dest rest o :
  upload_onwards temp_dir final_zip_path dest rest o ->
  Forall (fun ev => ~ stage_event ev) rest.
Proof.
  intros [rc e Hrc|e|e|unl rot o' Hunl Hrot Ho].
  1-3: repeat constructor; by intros [].
  rewrite !Forall_app. split_and!.
  - repeat constructor; by intros [].
  - destruct Hunl as [-> | ->]; repeat constructor; by intros [].
  - eapply Forall_impl; [exact Hrot|]. by intros [[]|? ?|[]| | |] ? ?.
  - destruct o'; repeat constructor; by intros [].
Qed.

Lemma after_stage_no_stage temp_dir dest o post result :
  after_stage temp_dir dest o post result ->
  Forall (fun ev => ~ stage_event ev) post.
Proof.
  destruct o as [p|e|c]; simpl; [apply upload_onwards_no_stage| |done].
  intros [-> _]. repeat constructor; by intros [].
Qed.

(** The stage once the services are down: exports, then what follows
    them. *)
Lemma stage_run_shape project_dir temp_dir ts stage o :
  stage_run project_dir temp_dir ts stage o ->
  Forall (fun ev => ~ is_export ev /\ ~ is_up ev) stage \/
  exists setup plugin exps tail,
    stage = setup ++ down plugin project_dir :: exps ++ tail /\
    Forall setup_event setup /\
    Forall (fun ev => exists vol rc, ev = EvRun (export_cmd temp_dir ts vol) rc) exps /\
    Forall (fun ev => ~ is_export ev) tail.
Proof.
  assert (Hexp : forall names,
    Forall (fun ev => exists vol rc, ev = EvRun (export_cmd temp_dir ts vol) rc)
      (map (exported temp_dir ts) names)).
  { intros names. apply Forall_forall. intros ev Hev.
    apply list_elem_of_fmap in Hev as (vol & -> & _). by eexists _, _. }
  assert (Hsetup : forall setup,
    Forall setup_event setup ->
    Forall (fun ev => ~ is_export ev /\ ~ is_up ev) setup).
  { intros setup H. eapply Forall_impl; [exact H|].
    by intros [[]|? ?|[]| | |] ?; split; intros []. }
  intros [setup e Hs|setup plugin rc Hs Hrc|setup plugin before vol rc Hs Hrc
         |setup plugin names rc Hs Hrc|setup plugin names e Hs
         |setup plugin names members Hs].
  - left. by apply Hsetup.
  - left. apply Forall_app. split; [by apply Hsetup|].
    repeat constructor; by intros [].
  - right. exists setup, plugin,
      (map (exported temp_dir ts) before ++ [EvRun (export_cmd temp_dir ts vol) rc]), [].
    rewrite app_nil_r. split_and!; [done|done| |done].
    apply Forall_app. split; [apply Hexp|]. repeat constructor. by eexists _, _.
  - right. exists setup, plugin, (map (exported temp_dir ts) names),
      [EvRun (ComposeUp plugin project_dir) rc].
    split_and!; [done|done|apply Hexp|]. repeat constructor; by intros [].
  - right. eexists setup, plugin, (map (exported temp_dir ts) names), [_; _].
    split_and!; [done|done|apply Hexp|]. repeat constructor; by intros [].
  - right. eexists setup, plugin, (map (exported temp_dir ts) names), [_; _; _].
    split_and!; [done|done|apply Hexp|]. repeat constructor; by intros [].
Qed.

(** X5: every export of a volume runs after the services of the project
    were brought down with success and before any attempt to bring them
    up again, and it writes into the staging directory of the run. *)
Theorem exports_while_services_stopped
    (E : env) (project_dir : path) (remote remote_path : string) (keep : Z)
    (w : world) (l : list event) (ev : event) (post : list event) :
  let ts := clock E (trace w) in
  trace (backup_project E project_dir remote remote_path keep w).2
  = trace w ++ l ++ ev :: post ->
  is_export ev ->
  (exists plugin, down plugin project_dir ∈ l) /\
  Forall (fun ev' => ~ is_up ev') l /\
  exists vol rc, ev = EvRun (export_cmd (staging_dir project_dir ts) ts vol) rc.
Proof.
  intros ts Ht Hev.
  destruct (backup_project_stages E project_dir remote remote_path keep w)
    as (pre & stage & post0 & Ht' & Hpre & Hcases). cbv zeta in Ht', Hcases.
  fold ts in Hcases.
  rewrite Ht in Ht'. apply app_inv_head in Ht'. symmetry in Ht'.
  apply (split_at_event is_export) in Ht' as (s & -> & Hs); [|done|].
  2:{ eapply Forall_impl; [exact Hpre|]. by intros [[]|? ?|[]| | |] H; intros []. }
  destruct Hcases as [(-> & -> & _)|(o & Hstage & Hafter)].
  { by destruct s. }
  apply after_stage_no_stage in Hafter.
  apply (split_before_event is_export) in Hs as (s' & -> & ->); [|done|].
  2:{ eapply Forall_impl; [exact Hafter|]. intros [[]|? ?|[]| | |] H; try by intros [].
      all: intros _; by apply H. }
  apply stage_run_shape in Hstage as [Hnone|(setup & plugin & exps & tail & Heq & Hsetup & Hexps & Htail)].
  { apply Forall_app in Hnone as [_ Hnone]. apply Forall_cons in Hnone as [[Hx _] _].
    done. }
  symmetry in Heq.
  apply (split_at_event is_export) in Heq as (s2 & -> & Hs2); [|done|].
  2:{ eapply Forall_impl; [exact Hsetup|]. by intros [[]|? ?|[]| | |] H; intros []. }
  destruct s2 as [|d s2]; [injection Hs2 as <- _; by destruct Hev|].
  injection Hs2 as <- Hs2.
  apply (split_before_event is_export) in Hs2 as (s3 & -> & _); [|done|done].
  apply Forall_app in Hexps as [Hs2 Hexps]. apply Forall_cons in Hexps as [Hev' _].
  split_and!.
  - exists plugin. set_solver.
  - rewrite !Forall_app. split_and!.
    + eapply Forall_impl; [exact Hpre|]. by intros [[]|? ?|[]| | |] H; intros [].
    + eapply Forall_impl; [exact Hsetup|]. by intros [[]|? ?|[]| | |] H; intros [].
    + constructor; [by intros []|].
      eapply Forall_impl; [exact Hs2|]. by intros ? (vol & rc & ->) [].
  - exact Hev'.
Qed.

Lemma stage_run_events project_dir temp_dir ts stage o :
  stage_run project_dir temp_dir ts stage o -> Forall stage_event stage.
Proof.
  assert (Hexp : forall names, Forall stage_event (map (exported temp_dir ts) names)).
  { intros names. apply Forall_forall. intros ev Hev.
    by apply list_elem_of_fmap in Hev as (vol & -> & _). }
  assert (Hsetup : forall setup, Forall setup_event setup -> Forall stage_event setup).
  { intros setup H. eapply Forall_impl; [exact H|]. by intros [[]|? ?|[]| | |]. }
  intros [setup e Hs|setup plugin rc Hs Hrc|setup plugin before vol rc Hs Hrc
         |setup plugin names rc Hs Hrc|setup plugin names e Hs
         |setup plugin names members Hs];
    repeat (rewrite ?Forall_app, ?Forall_cons; split_and?); auto;
    by repeat constructor.
Qed.

Lemma stage_run_failed_export project_dir temp_dir ts stage o vol d a rc :
  stage_run project_dir temp_dir ts stage o ->
  EvRun (DockerExport vol d a) rc ∈ stage -> rc <> Some 0%Z ->
  o = Exc (cmd_error (DockerExport vol d a) rc) /\
  Forall (fun ev => ~ is_up ev) stage.
Proof.
  assert (Hexp : forall names,
            EvRun (DockerExport vol d a) rc ∈ map (exported temp_dir ts) names ->
            rc = Some 0%Z).
  { intros names Hev. apply list_elem_of_fmap in Hev as (v & Hv & _).
    by injection Hv as _ _ _ ->. }
  assert (Hsetup : forall setup, Forall setup_event setup ->
            ~ EvRun (DockerExport vol d a) rc ∈ setup).
  { intros setup H Hev. rewrite Forall_forall in H. by apply H in Hev. }
  assert (Hup : forall setup, Forall setup_event setup ->
            Forall (fun ev => ~ is_up ev) setup).
  { intros setup H. eapply Forall_impl; [exact H|]. by intros [[]|? ?|[]| | |] ? ?. }
  assert (Hexps : forall names,
            Forall (fun ev => ~ is_up ev) (map (exported temp_dir ts) names)).
  { intros names. apply Forall_forall. intros ev Hev.
    apply list_elem_of_fmap in Hev as (v & -> & _). by intros []. }
  intros [setup e Hs|setup plugin rc' Hs Hrc|setup plugin before vol' rc' Hs Hrc
         |setup plugin names rc' Hs Hrc|setup plugin names e Hs
         |setup plugin names members Hs] Hev Hfail;
    rewrite ?elem_of_app, ?elem_of_cons, ?elem_of_app, ?elem_of_cons, ?elem_of_nil
      in Hev.
  - by apply Hsetup in Hev.
  - destruct Hev as [Hev|[Hev|[]]]; [by apply Hsetup in Hev|done].
  - destruct Hev as [Hev|[Hev|[Hev|[Hev|[]]]]];
      [by apply Hsetup in Hev|done|by apply Hexp in Hev|].
    injection Hev as -> -> -> ->. split; [done|].
    rewrite !Forall_app, Forall_cons, Forall_app.
    split_and!; auto; repeat constructor; by intros [].
  - destruct Hev as [Hev|[Hev|[Hev|[Hev|[]]]]];
      [by apply Hsetup in Hev|done|by apply Hexp in Hev|done].
  - destruct Hev as [Hev|[Hev|[Hev|[Hev|[Hev|[]]]]]];
      [by apply Hsetup in Hev|done|by apply Hexp in Hev|done|done].
  - destruct Hev as [Hev|[Hev|[Hev|[Hev|[Hev|[Hev|[]]]]]]];
      [by apply Hsetup in Hev|done|by apply Hexp in Hev|done|done|done].
Qed.

(** X6: when the export of a volume fails, the run ends with the error
    of that command; the services are not brought up again, nothing is
    uploaded and nothing is deleted, locally or on the remote; the last
    thing the run does is to report the error and the staging directory
    it leaves behind. *)
Theorem failed_export_leaves_services_stopped
    (E : env) (project_dir : path) (remote remote_path : string) (keep : Z)
    (w : world) (evs : list event) (vol : string) (d : path) (a : string)
    (rc : option Z) :
  let r := backup_project E project_dir remote remote_path keep w in
  let e := cmd_error (DockerExport vol d a) rc in
  trace r.2 = trace w ++ evs ->
  EvRun (DockerExport vol d a) rc ∈ evs -> rc <> Some 0%Z ->
  r.1 = Exc e /\
  Forall (fun ev => ~ is_up ev) evs /\
  Forall before_upload evs /\
  last evs = Some (EvReport e (staging_dir project_dir (clock E (trace w))) None).
Proof.
  intros r e Ht Hev Hrc. subst r.
  destruct (backup_project_stages E project_dir remote remote_path keep w)
    as (pre & stage & post & Ht' & Hpre & Hcases). cbv zeta in Ht', Hcases.
  rewrite Ht in Ht'. apply app_inv_head in Ht'. subst evs.
  assert (Hnot : ~ EvRun (DockerExport vol d a) rc ∈ pre).
  { intros H. rewrite Forall_forall in Hpre. by apply Hpre in H. }
  destruct Hcases as [(-> & -> & _)|(o & Hstage & Hafter)].
  { rewrite !app_nil_r in Hev. done. }
  pose proof (after_stage_no_stage _ _ _ _ _ Hafter) as Hpost.
  rewrite !elem_of_app in Hev. destruct Hev as [Hev|[Hev|Hev]]; [done| |].
  2:{ rewrite Forall_forall in Hpost. apply Hpost in Hev. by destruct Hev. }
  destruct (stage_run_failed_export _ _ _ _ _ _ _ _ _ Hstage Hev Hrc) as [-> Hup].
  destruct Hafter as [-> ->]. fold e. split_and!.
  - done.
  - rewrite !Forall_app. split_and!; [|done|repeat constructor; by intros []].
    eapply Forall_impl; [exact Hpre|]. by intros [[]|? ?|[]| | |] ? ?.
  - rewrite !Forall_app. split_and!; [| |by repeat constructor].
    + eapply Forall_impl; [exact Hpre|]. by intros [[]|? ?|[]| | |].
    + eapply Forall_impl; [exact (stage_run_events _ _ _ _ _ Hstage)|].
      by intros [[]|? ?|[]| | |].
  - by rewrite !app_assoc, last_snoc.
Qed.

Lemma upload_onwards_upload temp_dir final_zip_path dest rest o :
  upload_onwards temp_dir final_zip_path dest rest o ->
  exists rc tl,
    rest = EvRun (RcloneCopy final_zip_path dest) rc :: tl /\
    Forall (fun ev => ~ is_upload ev) tl.
Proof.
  intros [rc e Hrc|e|e|unl rot o' Hunl Hrot Ho].
  1-3: eexists _, _; (split; [done|]); repeat constructor; by intros [].
  eexists _, _. split; [done|]. cbn [app]. constructor; [by intros []|].
  rewrite !Forall_app. split_and!.
  - destruct Hunl as [-> | ->]; repeat constructor; by intros [].
  - eapply Forall_impl; [exact Hrot|]. by intros [[]|? ?|[]| | |] ? ?.
  - destruct o'; repeat constructor; by intros [].
Qed.

(** X7: the upload is attempted once at most, of the path
    [create_final_zip_from_temp] gave back, to [remote:remote_path];
    before it, the services were brought up again with success after
    exports that all succeeded, and the bundle was written. *)
Theorem upload_follows_restart_and_bundle
    (E : env) (project_dir : path) (remote remote_path : string) (keep : Z)
    (w : world) (l : list event) (ev : event) (post : list event) :
  let ts := clock E (trace w) in
  let temp_dir := staging_dir project_dir ts in
  trace (backup_project E project_dir remote remote_path keep w).2
  = trace w ++ l ++ ev :: post ->
  is_upload ev ->
  (exists rc, ev = EvRun (RcloneCopy (final_zip project_dir ts)
                            (remote_target remote remote_path)) rc) /\
  (exists plugin members,
     up plugin project_dir ∈ l /\
     EvArchived (final_bundle project_dir ts) members ∈ l) /\
  Forall (fun ev' => is_export ev' -> exists vol, ev' = exported temp_dir ts vol) l /\
  Forall (fun ev' => ~ is_upload ev') (l ++ post).
Proof.
  intros ts temp_dir Ht Hev.
  destruct (backup_project_stages E project_dir remote remote_path keep w)
    as (pre & stage & post0 & Ht' & Hpre & Hcases). cbv zeta in Ht', Hcases.
  fold ts in Hcases. fold temp_dir in Hcases.
  rewrite Ht in Ht'. apply app_inv_head in Ht'. symmetry in Ht'.
  assert (Hpre' : Forall (fun x => ~ is_upload x) pre).
  { eapply Forall_impl; [exact Hpre|]. by intros [[]|? ?|[]| | |] ? ?. }
  destruct Hcases as [(-> & -> & _)|(o & Hstage & Hafter)].
  { exfalso. rewrite !app_nil_r in Ht'. subst pre.
    apply Forall_app in Hpre' as [_ H]. by apply Forall_cons in H as [H _]. }
  pose proof (stage_run_events _ _ _ _ _ Hstage) as Hevents.
  assert (Hstage' : Forall (fun x => ~ is_upload x) stage).
  { eapply Forall_impl; [exact Hevents|]. by intros [[]|? ?|[]| | |] ? ?. }
  rewrite app_assoc in Ht'.
  apply (split_at_event is_upload) in Ht' as (s & -> & Hs);
    [|done|by apply Forall_app].
  destruct o as [p|e0|c]; cbn [after_stage] in Hafter; [| |done].
  2:{ exfalso. destruct Hafter as [-> _]. destruct s as [|x [|y s]]; try done.
      injection Hs as <- _. done. }
  apply upload_onwards_upload in Hafter as (rc & tl & -> & Htl).
  destruct s as [|x s].
  2:{ exfalso. injection Hs as _ ->. apply Forall_app in Htl as [_ H].
      by apply Forall_cons in H as [H _]. }
  injection Hs as <- <-. rewrite app_nil_r.
  assert (Hall : Forall (fun x => ~ is_upload x) ((pre ++ stage) ++ tl))
    by (rewrite !Forall_app; done).
  inversion Hstage as [| | | | |setup plugin names members Hsetup Hstage_eq Hp].
  split_and!.
  - by exists rc.
  - exists plugin, members. set_solver.
  - rewrite !Forall_app, Forall_cons, Forall_app. split_and!.
    + eapply Forall_impl; [exact Hpre|]. by intros [[]|? ?|[]| | |] ? ?.
    + eapply Forall_impl; [exact Hsetup|]. by intros [[]|? ?|[]| | |] ? ?.
    + by intros [].
    + apply Forall_forall. intros x Hx.
      apply list_elem_of_fmap in Hx as (vol & -> & _). intros _. by exists vol.
    + repeat constructor; by intros [].
  - by rewrite Hstage_eq.
Qed.

(** *** What a run that returns leaves behind *)

Lemma delete_backups_fs E remote remote_path to_delete w :
  fs (delete_backups E remote remote_path to_delete w).2 = fs w.
Proof.
  revert w. induction to_delete as [|entry rest IH]; intros w; simpl; [done|].
  unfold bind, lift, run_cmd, bind, subprocess_run, get_fs, set_fs, ret, raise.
  destruct (py_get entry "Path" PNone) as [p|]; simpl; [|done].
  destruct (truthy p); simpl.
  - destruct (negb (truthy p)); simpl; [apply IH|].
    destruct (run E _ _) as [rc|]; simpl; [|done].
    destruct (rc =? 0)%Z; simpl; [by rewrite IH|done].
  - destruct (py_get entry "Name" PNone) as [n|]; simpl; [|done].
    destruct (negb (truthy n)); simpl; [apply IH|].
    destruct (run E _ _) as [rc|]; simpl; [|done].
    destruct (rc =? 0)%Z; simpl; [by rewrite IH|done].
Qed.

Lemma rotate_project_backups_fs E remote remote_path keep w :
  fs (rotate_project_backups E remote remote_path keep w).2 = fs w.
Proof.
  unfold rotate_project_backups.
  destruct (keep <? 1)%Z; [done|].
  unfold bind, subprocess_run, ask, raise, lift. simpl.
  destruct (run E _ _) as [rc|]; simpl; [|done].
  destruct (negb (rc =? 0)%Z); simpl; [done|].
  destruct (lsjson_stdout E _); simpl; [|done].
  destruct (backups_to_delete E _ keep); simpl; [|done].
  by rewrite delete_backups_fs.
Qed.

Lemma upload_cleanup_rotate_returns E temp_dir final_zip_path remote remote_path
    keep w p w' :
  upload_cleanup_rotate E temp_dir final_zip_path remote remote_path keep w
  = (Ret p, w') ->
  p = final_zip_path /\
  exists_ (fs w') final_zip_path = false /\
  forall q, temp_dir `prefix_of` q -> fs w' !! q = None.
Proof.
  destruct w as [f t].
  unfold upload_cleanup_rotate, rclone_copy_file, run_cmd, rmtree, unlink, bind,
    subprocess_run, fs_attempt, get_fs, set_fs, emit, ret, raise.
  cbv beta zeta. cbn [fs trace].
  destruct (run E t _) as [rc|]; cbn [fs trace]; [|done].
  destruct (rc =? 0)%Z; cbn [fs trace]; [|done].
  destruct (if exists_ f temp_dir then None else Some FileNotFoundError);
    cbn [fs trace]; [done|].
  destruct (io_fails E _ (OpRmtree temp_dir)); cbn [fs trace]; [done|].
  set (f1 := filter _ f).
  assert (Hgone : forall q, temp_dir `prefix_of` q -> f1 !! q = None).
  { intros q Hq. apply map_lookup_filter_None. right. intros x _ H. by apply H. }
  destruct (exists_ f1 final_zip_path) eqn:Hex; cbn [fs trace].
  - rewrite Hex. destruct (io_fails E _ (OpUnlink final_zip_path));
      cbn [fs trace]; [done|].
    match goal with |- context [rotate_project_backups ?a ?b ?c ?d ?w1] =>
      pose proof (rotate_project_backups_fs a b c d w1) as Hfs;
      destruct (rotate_project_backups a b c d w1) as [[[]|e|c0] w2] end;
      cbn [fs trace fst snd] in *; [|done|done].
    intros [= <- <-]. rewrite Hfs. split_and!; [done| |].
    + unfold exists_. by rewrite lookup_delete_eq.
    + intros q Hq. apply lookup_delete_None. right. by apply Hgone.
  - match goal with |- context [rotate_project_backups ?a ?b ?c ?d ?w1] =>
      pose proof (rotate_project_backups_fs a b c d w1) as Hfs;
      destruct (rotate_project_backups a b c d w1) as [[[]|e|c0] w2] end;
      cbn [fs trace fst snd] in *; [|done|done].
    intros [= <- <-]. rewrite Hfs. by split_and!.
Qed.

Lemma backup_project_returns E project_dir remote remote_path keep w p w' :
  let ts := clock E (trace w) in
  backup_project E project_dir remote remote_path keep w = (Ret p, w') ->
  exists w3,
    upload_cleanup_rotate E (staging_dir project_dir ts) (final_zip project_dir ts)
      remote remote_path keep w3 = (Ret p, w').
Proof.
  intros ts. rewrite backup_project_unfold. cbv zeta. fold ts.
  destruct (is_dir (fs w) project_dir); [|done].
  destruct (io_fails E (trace w) _); [done|].
  destruct (exists_ _ _); [done|].
  destruct (io_fails E _ (OpMkdir _)); [done|].
  unfold staged_backup. unfold bind at 1.
  destruct (move E _ _ _) as [[[]|e|c] w2]; [|done|done].
  unfold bind at 1. unfold try_except at 1.
  destruct (stop_export_start_bundle_run E project_dir
              (staging_dir project_dir ts) ts w2) as (stage & _ & Hstage).
  cbv zeta in Hstage.
  destruct (stop_export_start_bundle E project_dir _ ts w2)
    as [[final_zip_path|e|c] w3]; cbn [fst snd] in *.
  - inversion Hstage; subst. unfold try_except.
    destruct (upload_cleanup_rotate E _ _ remote remote_path keep w3)
      as [[q|e|c] w4] eqn:Hup; [|by unfold report, bind, emit, raise|done].
    intros [= <- <-]. by exists w3.
  - by unfold report, bind, emit, raise.
  - done.
Qed.

(** X8: a run that returns gives back the path
    [create_final_zip_from_temp] gave, no file is left at that path, and
    the staging directory is gone with everything below it. *)
Theorem returned_run_leaves_no_staging
    (E : env) (project_dir : path) (remote remote_path : string) (keep : Z)
    (w : world) (p : path) :
  let r := backup_project E project_dir remote remote_path keep w in
  let ts := clock E (trace w) in
  r.1 = Ret p ->
  p = final_zip project_dir ts /\
  exists_ (fs r.2) p = false /\
  forall q, staging_dir project_dir ts `prefix_of` q -> fs r.2 !! q = None.
Proof.
  intros r ts Hr. subst r.
  destruct (backup_project E project_dir remote remote_path keep w) as [o w'] eqn:Hrun.
  cbn [fst snd] in *. subst o.
  apply backup_project_returns in Hrun as (w3 & Hup).
  apply upload_cleanup_rotate_returns in Hup as (-> & Hgone & Hstaging).
  by split_and!.
Qed.

(** *** Rotation *)

Lemma insert_by_key_perm x l r : insert_by_key x l = Ok r -> r ≡ₚ x :: l.
Proof.
  revert r. induction l as [|y l IH]; intros r; simpl.
  - by intros [= <-].
  - destruct (datetime_lt (fst x) (fst y)) as [[]|]; simpl; [by intros [= <-]| |done].
    destruct (insert_by_key x l) as [r'|]; simpl; [|done].
    intros [= <-]. rewrite (IH r' eq_refl). apply Permutation_swap.
Qed.

Lemma sort_by_key_perm done todo r :
  sort_by_key done todo = Ok r -> r ≡ₚ done ++ todo.
Proof.
  revert done r. induction todo as [|x rest IH]; intros done r; simpl.
  - intros [= <-]. by rewrite app_nil_r.
  - destruct (insert_by_key x done) as [d|] eqn:Hd; simpl; [|done].
    intros H. rewrite (IH _ _ H), (insert_by_key_perm _ _ _ Hd).
    apply Permutation_middle.
Qed.

(** Whatever the sort makes of the times, the entries to delete are
    among the selected entries of the listing, and there are as many as
    exceed [keep]. *)
Lemma backups_to_delete_selected E entries keep to_delete :
  backups_to_delete E entries keep = Ok to_delete ->
  exists l,
    py_iter entries = Ok l /\
    to_delete ⊆ filter (fun e => is_zip_file e = true) l /\
    length to_delete
    = length (filter (fun e => is_zip_file e = true) l) - Z.to_nat keep.
Proof.
  unfold backups_to_delete, sort_backups.
  destruct (py_iter entries) as [l|]; simpl; [|done].
  destruct (select_backups l) as [backups|] eqn:Hsel; simpl; [|done].
  destruct (with_keys E backups) as [keyed|] eqn:Hkeys; simpl; [|done].
  destruct (sort_by_key [] keyed) as [sorted|] eqn:Hsort; simpl; [|done].
  apply select_backups_filter in Hsel as [Hsel _].
  apply with_keys_entries in Hkeys. apply sort_by_key_perm in Hsort. simpl in Hsort.
  assert (Hperm : sorted.*2 ≡ₚ filter (fun e => is_zip_file e = true) l).
  { by rewrite Hsort, Hkeys, Hsel. }
  rewrite length_map. intros H. exists l. split; [done|].
  rewrite <- Hperm, length_fmap.
  destruct (Z.of_nat (length sorted) <=? keep)%Z eqn:Hn; injection H as <-.
  - apply Z.leb_le in Hn. split; [set_solver|]. simpl. lia.
  - split.
    + apply subseteq_take.
    + rewrite length_take, length_fmap. lia.
Qed.

Lemma delete_backups_cons E remote remote_path m s rest w :
  assoc m "Path" = Some (PStr s) -> truthy (PStr s) = true ->
  let cmd := RcloneDeletefile (delete_target remote remote_path s) in
  let rc := run E (trace w) cmd in
  let w1 := World (fs w) (trace w ++ [EvRun cmd rc]) in
  delete_backups E remote remote_path (PDict m :: rest) w =
    if decide (rc = Some 0%Z) then delete_backups E remote remote_path rest w1
    else (Exc (cmd_error cmd rc), w1).
Proof.
  intros Hpath Hs cmd rc w1.
  pose proof (run_cmd_run E cmd w) as Hrun. cbv zeta in Hrun. fold rc w1 in Hrun.
  simpl. unfold bind, lift, ret. simpl. rewrite Hpath. simpl. simpl in Hs.
  repeat (rewrite Hs; simpl). fold cmd. rewrite Hrun.
  by destruct (decide (rc = Some 0%Z)).
Qed.

(** The deletions run one after the other, in the order of the list; the
    first that fails ends them with its error. *)
Lemma delete_backups_run E remote remote_path to_delete w :
  Forall (fun e => is_zip_file e = true) to_delete ->
  let r := delete_backups E remote remote_path to_delete w in
  (r.1 = Ret tt /\
   trace r.2 = trace w ++ map (deletion remote remote_path) to_delete)
  \/
  (exists before e after rc,
     let cmd := RcloneDeletefile (delete_target remote remote_path (entry_path e)) in
     to_delete = before ++ e :: after /\ rc <> Some 0%Z /\
     r.1 = Exc (cmd_error cmd rc) /\
     trace r.2 = trace w ++ map (deletion remote remote_path) before ++ [EvRun cmd rc]).
Proof.
  intros Hall. revert w. induction Hall as [|e rest He Hall IH]; intros w; cbv zeta.
  - left. simpl. by rewrite app_nil_r.
  - destruct (is_zip_file_path e He) as (m & s & -> & Hpath & Hs).
    rewrite (delete_backups_cons _ _ _ _ _ _ _ Hpath Hs). cbv zeta.
    assert (Hentry : entry_path (PDict m) = s).
    { unfold entry_path. by rewrite Hpath. }
    rewrite <- Hentry.
    set (cmd := RcloneDeletefile _).
    destruct (decide (run E (trace w) cmd = Some 0%Z)) as [Hrun|Hrun].
    2:{ right. exists [], (PDict m), rest, (run E (trace w) cmd). by split_and!. }
    rewrite Hrun.
    match goal with |- context [delete_backups E remote remote_path rest ?w1] =>
      specialize (IH w1); cbv zeta in IH;
      destruct (delete_backups E remote remote_path rest w1) as [o w2] end.
    cbn [fs trace fst snd] in *.
    destruct IH as [[-> Ht]|(before & e' & after & rc & -> & Hrc & -> & Ht)].
    + left. split; [done|]. rewrite Ht. cbn [map]. by rewrite <- app_assoc.
    + right. exists (PDict m :: before), e', after, rc.
      split_and!; [done|done|done|]. rewrite Ht. cbn [map app].
      by rewrite <- !app_assoc.
Qed.

Lemma rotate_project_backups_listed E remote remote_path keep w entries :
  (1 <= keep)%Z ->
  let listed := EvRun (RcloneLsjson (remote_target remote remote_path)) (Some 0%Z) in
  run E (trace w) (RcloneLsjson (remote_target remote remote_path)) = Some 0%Z ->
  lsjson_stdout E (trace w ++ [listed]) = Some entries ->
  rotate_project_backups E remote remote_path keep w =
    match backups_to_delete E entries keep with
    | Ok to_delete =>
        delete_backups E remote remote_path to_delete
          (World (fs w) (trace w ++ [listed]))
    | Raise e => (Exc e, World (fs w) (trace w ++ [listed]))
    end.
Proof.
  intros Hkeep listed Hrun Hout. unfold rotate_project_backups.
  destruct (Z.ltb_spec keep 1) as [?|_]; [lia|].
  unfold bind, subprocess_run, ask, raise, lift, ret. cbn [fs trace].
  rewrite Hrun. cbn [negb Z.eqb fs trace]. fold listed. rewrite Hout.
  by destruct (backups_to_delete E entries keep).
Qed.

(** X9: whatever the remote lists and however the commands fare,
    rotation asks [rclone] to delete only [.zip] files of the listing of
    [remote:remote_path], and of [n] such files at most [n - keep]. *)
Theorem rotation_deletes_only_listed_zip_files
    (E : env) (remote remote_path : string) (keep : Z) (w : world)
    (evs : list event) (target : string) (rc : option Z) :
  let listed := EvRun (RcloneLsjson (remote_target remote remote_path)) (Some 0%Z) in
  trace (rotate_project_backups E remote remote_path keep w).2 = trace w ++ evs ->
  EvRun (RcloneDeletefile target) rc ∈ evs ->
  (1 <= keep)%Z /\
  exists entries l,
    lsjson_stdout E (trace w ++ [listed]) = Some entries /\
    py_iter entries = Ok l /\
    (exists e, e ∈ l /\ is_zip_file e = true /\
               target = delete_target remote remote_path (entry_path e)) /\
    length (deletions evs)
    <= length (filter (fun e => is_zip_file e = true) l) - Z.to_nat keep.
Proof.
  intros listed Ht Hev.
  assert (Hquiet : forall ev0 : event,
            ~ (exists t r, ev0 = EvRun (RcloneDeletefile t) r) ->
            trace (rotate_project_backups E remote remote_path keep w).2
            = trace w ++ [ev0] -> False).
  { intros ev0 Hne Ht0. rewrite Ht0 in Ht. apply app_inv_head in Ht. subst evs.
    apply list_elem_of_singleton in Hev. apply Hne. by eexists _, _. }
  assert (Hnone : trace (rotate_project_backups E remote remote_path keep w).2
                  = trace w -> False).
  { intros Ht0. rewrite Ht0 in Ht. rewrite <- (app_nil_r (trace w)) in Ht at 1.
    apply app_inv_head in Ht. subst evs. by apply elem_of_nil in Hev. }
  destruct (Z.ltb_spec keep 1) as [Hk|Hkeep].
  { exfalso. apply Hnone. unfold rotate_project_backups.
    destruct (Z.ltb_spec keep 1); [done|lia]. }
  split; [done|].
  destruct (run E (trace w) (RcloneLsjson (remote_target remote remote_path)))
    as [c|] eqn:Hrun.
  2:{ exfalso. eapply Hquiet; [|unfold rotate_project_backups;
        destruct (Z.ltb_spec keep 1); [lia|];
        unfold bind, subprocess_run, raise; cbn [fs trace]; rewrite Hrun; done].
      by intros (? & ? & ?). }
  destruct (Z.eqb_spec c 0) as [->|Hc].
  2:{ exfalso. eapply Hquiet; [|unfold rotate_project_backups;
        destruct (Z.ltb_spec keep 1); [lia|];
        unfold bind, subprocess_run, ask, raise; cbn [fs trace]; rewrite Hrun;
        destruct (Z.eqb_spec c 0); [done|]; cbn [negb fs trace]; done].
      by intros (? & ? & ?). }
  destruct (lsjson_stdout E (trace w ++ [listed])) as [entries|] eqn:Hout.
  2:{ exfalso. eapply Hquiet; [|unfold rotate_project_backups;
        destruct (Z.ltb_spec keep 1); [lia|];
        unfold bind, subprocess_run, ask, raise; cbn [fs trace]; rewrite Hrun;
        cbn [negb Z.eqb fs trace]; fold listed; rewrite Hout; done].
      by intros (? & ? & ?). }
  rewrite (rotate_project_backups_listed _ _ _ _ _ _ Hkeep Hrun Hout) in Ht.
  destruct (backups_to_delete E entries keep) as [to_delete|e] eqn:Hdel.
  2:{ exfalso. cbn [snd trace] in Ht. apply app_inv_head in Ht. subst evs.
      by apply list_elem_of_singleton in Hev. }
  apply backups_to_delete_selected in Hdel as (l & Hl & Hsub & Hlen).
  assert (Hall : Forall (fun e => is_zip_file e = true) to_delete).
  { apply Forall_forall. intros e He. apply Hsub in He.
    by apply list_elem_of_filter in He as [He _]. }
  pose proof (proj1 (Forall_forall _ _) Hall) as Hall'.
  assert (Hdels : forall es,
            deletions (map (deletion remote remote_path) es)
            = map (fun e => delete_target remote remote_path (entry_path e)) es).
  { induction es as [|x es IH]; [done|]. simpl. by rewrite <- IH. }
  assert (Happ : forall a b, deletions (a ++ b) = deletions a ++ deletions b).
  { intros a b. unfold deletions. apply omap_app. }
  exists entries, l. split; [done|]. split; [done|].
  destruct (delete_backups_run E remote remote_path to_delete
              (World (fs w) (trace w ++ [listed])) Hall)
    as [[_ Ht']|(before & e & after & rc' & Heq & _ & _ & Ht')];
    cbv zeta in Ht'; pose proof (eq_trans (eq_sym Ht) Ht') as Hevs;
    cbn [trace] in Hevs; rewrite <- app_assoc in Hevs;
    apply app_inv_head in Hevs; subst evs.
  - split.
    + apply elem_of_cons in Hev as [Hev|Hev]; [done|].
      apply list_elem_of_fmap in Hev as (e & Hev & He).
      injection Hev as -> _. exists e. split_and!; [|by apply Hall'|done].
      apply Hsub in He. by apply list_elem_of_filter in He as [_ He].
    + rewrite Happ, Hdels, length_app, length_map. simpl. lia.
  - subst to_delete. split.
    + assert (Hin : exists e0, e0 ∈ before ++ e :: after /\
                target = delete_target remote remote_path (entry_path e0)).
      { apply elem_of_cons in Hev as [Hev|Hev]; [done|].
        apply elem_of_app in Hev as [Hev|Hev].
        - apply list_elem_of_fmap in Hev as (e0 & Hev & He).
          injection Hev as -> _. exists e0. split; [set_solver|done].
        - apply list_elem_of_singleton in Hev. injection Hev as -> _.
          exists e. split; [set_solver|done]. }
      destruct Hin as (e0 & He0 & ->). exists e0.
      split_and!; [|by apply Hall'|done].
      apply Hsub in He0. by apply list_elem_of_filter in He0 as [_ He0].
    + rewrite !Happ, Hdels, !length_app, length_map. simpl.
      rewrite length_app in Hlen. simpl in Hlen. lia.
Qed.

(** X10: when the listing succeeds, the selected entries have times of
    one kind and every deletion succeeds, rotation sorts the [n] selected
    entries by time, entries of the same time keeping the order of the
    listing, deletes the first [n - keep] in that order and returns; the
    [keep] entries that stay (all, when [n <= keep]) are not older than
    any it deletes. *)
Theorem rotation_deletes_the_oldest
    (E : env) (remote remote_path : string) (keep : Z) (w : world)
    (entries : pyval) (l backups : list pyval) (keyed : list (datetime * pyval))
    (k : datetime) :
  let listed := EvRun (RcloneLsjson (remote_target remote remote_path)) (Some 0%Z) in
  (1 <= keep)%Z ->
  run E (trace w) (RcloneLsjson (remote_target remote remote_path)) = Some 0%Z ->
  lsjson_stdout E (trace w ++ [listed]) = Some entries ->
  py_iter entries = Ok l ->
  select_backups l = Ok backups ->
  with_keys E backups = Ok keyed ->
  of_kind k keyed ->
  (forall t target, run E t (RcloneDeletefile target) = Some 0%Z) ->
  exists sorted,
    sorted ≡ₚ keyed /\ StronglySorted key_le sorted /\
    (forall k', with_key k' sorted = with_key k' keyed) /\
    let n := length backups in
    let deleted := take (n - Z.to_nat keep) sorted in
    let kept := drop (n - Z.to_nat keep) sorted in
    rotate_project_backups E remote remote_path keep w
    = (Ret tt,
       World (fs w)
         (trace w ++ listed :: map (deletion remote remote_path) deleted.*2)) /\
    length kept = min n (Z.to_nat keep) /\
    (forall d r, d ∈ deleted -> r ∈ kept -> key_le d r).
Proof.
  intros listed Hkeep Hrun Hout Hl Hsel Hkeys Hkind Hdel.
  destruct (backups_to_delete_oldest E entries l backups keyed k keep
              Hl Hsel Hkeys Hkind Hkeep)
    as (sorted & Hsort & Hperm & Hsorted & Hstable & Hdeleted & Hlen & Hkept & Hle).
  exists sorted. split_and!; [done|done|done|]. cbv zeta. split_and!.
  - rewrite (rotate_project_backups_listed _ _ _ _ _ _ Hkeep Hrun Hout), Hdeleted.
    rewrite delete_backups_all; [|done|].
    + cbn [fs trace]. by rewrite <- app_assoc.
    + apply select_backups_filter in Hsel as [Hsel _].
      apply with_keys_entries in Hkeys.
      apply Forall_forall. intros e He.
      apply list_elem_of_fmap in He as (x & -> & Hx).
      apply subseteq_take in Hx.
      assert (Hin : x.2 ∈ backups).
      { rewrite <- Hkeys, <- Hperm. by apply list_elem_of_fmap_2. }
      rewrite Hsel in Hin. by apply list_elem_of_filter in Hin as [Hin _].
  - rewrite length_drop. rewrite Hperm.
    apply with_keys_entries in Hkeys. rewrite <- Hkeys, length_fmap. lia.
  - exact Hle.
Qed.

(** *** How a run can end *)

Lemma upload_onwards_no_exit temp_dir final_zip_path dest rest o c :
  upload_onwards temp_dir final_zip_path dest rest o -> o <> Exit c.
Proof.
  intros [rc e Hrc|e|e|unl rot o' Hunl Hrot [-> |[e ->]]]; done.
Qed.

Lemma staged_backup_no_exit E project_dir temp_dir zip ts remote remote_path keep w c :
  (staged_backup E project_dir temp_dir zip ts remote remote_path keep w).1 <> Exit c.
Proof.
  unfold staged_backup. unfold bind at 1.
  destruct (move E _ _ w) as [[[]|e|c'] w2] eqn:Hmove; [|done|].
  2:{ exfalso. unfold move, fs_attempt in Hmove.
      destruct (if exists_ _ _ then _ else _); [done|].
      by destruct (io_fails E _ _). }
  unfold bind at 1. unfold try_except at 1.
  destruct (stop_export_start_bundle_run E project_dir temp_dir ts w2)
    as (stage & _ & Hstage). cbv zeta in Hstage.
  destruct (stop_export_start_bundle E project_dir temp_dir ts w2)
    as [[final_zip_path|e|c'] w3]; cbn [fst snd] in *.
  - destruct (upload_onwards_run E temp_dir final_zip_path remote remote_path keep w3)
      as (rest & _ & Hrest). cbv zeta in Hrest.
    by eapply upload_onwards_no_exit.
  - by unfold report, bind, emit, raise.
  - by apply stage_run_no_exit in Hstage.
Qed.

Lemma backup_project_exit_code E project_dir remote remote_path keep w c :
  (backup_project E project_dir remote remote_path keep w).1 = Exit c -> c = 1%Z.
Proof.
  rewrite backup_project_unfold. cbv zeta.
  destruct (is_dir (fs w) project_dir); [|done].
  destruct (io_fails E (trace w) _); [done|].
  destruct (exists_ _ _); [by intros [= <-]|].
  destruct (io_fails E _ (OpMkdir _)); [done|].
  intros H. by apply staged_backup_no_exit in H.
Qed.

(** X12: the only way a run ends the interpreter is the collision of the
    staging directory: the status is 1, the tree archive has been written
    next to the project and stays there, and nothing else was done. *)
Theorem exit_only_on_staging_collision
    (E : env) (project_dir : path) (remote remote_path : string) (keep : Z)
    (w : world) (c : Z) :
  let r := backup_project E project_dir remote remote_path keep w in
  let ts := clock E (trace w) in
  let zip := tree_archive project_dir ts in
  let temp_dir := staging_dir project_dir ts in
  let f1 := <[zip := File (ZipOf (tree_members (fs w) project_dir))]> (fs w) in
  r.1 = Exit c ->
  c = 1%Z /\
  is_dir (fs w) project_dir = true /\
  exists_ f1 temp_dir = true /\
  r.2 = World f1
          (trace w ++ [EvFs (OpMakeArchive zip project_dir) None;
                       EvArchived zip (tree_members (fs w) project_dir);
                       EvFs (OpMkdir temp_dir) (Some FileExistsError)]).
Proof.
  intros r ts zip temp_dir f1. subst r. rewrite backup_project_unfold. cbv zeta.
  fold ts. fold zip. fold temp_dir. fold f1.
  destruct (is_dir (fs w) project_dir); [|done].
  destruct (io_fails E (trace w) _); [done|].
  destruct (exists_ f1 temp_dir) eqn:Hex.
  - intros [= <-]. cbn [snd]. split_and!; [done|done|done|].
    by rewrite <- app_assoc.
  - destruct (io_fails E _ (OpMkdir _)); [done|].
    intros H. by apply staged_backup_no_exit in H.
Qed.

(** *** The entry points *)

(** X13: [backup.py] ends with status 0 exactly when the workflow
    returned; every exception of the workflow becomes status 1, which is
    also the status of the staging collision; what was done is what the
    workflow did. *)
Theorem backup_main_status
    (E : env) (project_dir : path) (remote remote_path : string) (keep : Z)
    (w : world) :
  let r := backup.main E project_dir remote remote_path keep w in
  let b := backup_project E project_dir remote remote_path keep w in
  r.2 = b.2 /\
  (r.1 = Ret tt <-> exists p, b.1 = Ret p) /\
  (r.1 <> Ret tt <-> r.1 = Exit 1%Z).
Proof.
  cbv zeta. unfold backup.main, try_except, bind, ret, sys_exit.
  pose proof (backup_project_exit_code E project_dir remote remote_path keep w) as Hc.
  destruct (backup_project E project_dir remote remote_path keep w) as [[p|e|c] w'];
    cbn [fst snd] in *.
  - split_and!; [done| |done]. split; [by exists p|done].
  - split_and!; [done| |done]. split; [done|by intros [p ?]].
  - rewrite (Hc c eq_refl). split_and!; [done| |done].
    split; [done|by intros [p ?]].
Qed.

Lemma run_projects_exit_code {A} (run_project : path -> M A) dirs failures w c :
  (forall p w0 c0, (run_project p w0).1 = Exit c0 -> c0 = 1%Z) ->
  (run_projects run_project dirs failures w).1 = Exit c -> c = 1%Z.
Proof.
  intros Hrun. revert failures w. induction dirs as [|p rest IH]; intros failures w.
  - done.
  - rewrite run_projects_cons. pose proof (Hrun p (started p w)) as Hp.
    destruct (run_project p (started p w)) as [[a|e|c0] w1]; cbn [fst snd] in *.
    + apply IH.
    + apply IH.
    + intros [= <-]. by apply Hp.
Qed.

Lemma batch_runs_run_projects {A} (run_project : path -> M A) dirs w results w'
    failures :
  batch_runs run_project dirs w results w' ->
  run_projects run_project dirs failures w
  = (Ret (failures ++ omap (fun r => (fun e => (fst r, e)) <$> snd r) results), w').
Proof.
  intros H. revert failures.
  induction H as [w|p rest w a w1 results w' Hrun _ IH
                 |p rest w e w1 results w' Hrun _ IH]; intros failures.
  - simpl. unfold ret. by rewrite app_nil_r.
  - rewrite run_projects_cons, Hrun. apply IH.
  - rewrite run_projects_cons, Hrun, IH. cbn [omap fst snd fmap option_fmap option_map].
    by rewrite <- app_assoc.
Qed.

Lemma omap_all_returned dirs :
  omap (fun r : path * option exn => (fun e => (fst r, e)) <$> snd r)
    (all_returned dirs) = [].
Proof. induction dirs as [|p rest IH]; [done|]. simpl. exact IH. Qed.

(** X14: [backup_all.py] ends with status 0 or 1; with 0 exactly when
    [projects_dir] is a directory with at least one directory in it and
    the workflow returned for each of them, one after the other in the
    order of their names. *)
Theorem backup_all_main_status
    (E : env) (remote remote_path : string) (root : path) (w : world) :
  let r := backup_all.main E remote remote_path root w in
  let dirs := iter_project_dirs (fs w) root in
  (r.1 = Ret tt <->
   is_dir (fs w) root = true /\ dirs <> [] /\
   batch_runs (fun p => backup_project E p remote remote_path 4)
     dirs w (all_returned dirs) r.2) /\
  (r.1 <> Ret tt <-> r.1 = Exit 1%Z).
Proof.
  intros r dirs. subst r.
  unfold backup_all.main, try_except, backup_all_projects, backup_all_with,
    bind, get_fs, raise, ret, sys_exit.
  fold dirs. set (run := fun p => backup_project E p remote remote_path 4).
  destruct (is_dir (fs w) root); cbn [negb].
  2:{ cbn [fst snd]. split; [|done]. split; [done|]. by intros (? & _). }
  clearbody dirs. destruct dirs as [|d0 dirs0].
  { cbn [fst snd]. split; [|done]. split; [done|]. by intros (_ & ? & _). }
  assert (Hne : d0 :: dirs0 <> []) by done.
  revert Hne. generalize (d0 :: dirs0). clear d0 dirs0. intros dirs Hne.
  pose proof (run_projects_results run dirs [] w) as Hres.
  pose proof (run_projects_exit_code run dirs [] w) as Hexit.
  destruct (run_projects run dirs [] w) as [[failures|e|c] w1] eqn:Hrun;
    cbn [fst snd] in *.
  - destruct Hres as (results & Hruns & Hdirs & Hfail); [done|].
    injection Hfail as Hfail. cbn [app] in Hfail.
    destruct failures as [|f fs']; cbn [fst snd].
    + split; [|done]. split; [|done]. intros _. split_and!; [done|done|].
      assert (Hall : results = all_returned dirs).
      { clear Hruns Hrun Hexit Hne. revert dirs Hdirs.
        induction results as [|[p [e|]] results IH]; intros dirs Hdirs.
        - by subst dirs.
        - done.
        - subst dirs. cbn [omap fmap option_fmap option_map fst snd] in Hfail.
          cbn [fmap list_fmap fst all_returned map]. f_equal.
          by apply IH. }
      by rewrite <- Hall.
    + split; [|done]. split; [done|]. intros (_ & _ & Hall).
      apply (batch_runs_run_projects _ _ _ _ _ []) in Hall.
      rewrite omap_all_returned in Hall. cbn [app] in Hall.
      rewrite Hrun in Hall. cbn [snd] in Hall. done.
  - split; [|done]. split; [done|]. intros (_ & _ & Hall).
    apply (batch_runs_run_projects _ _ _ _ _ []) in Hall.
    rewrite Hrun in Hall. done.
  - rewrite (Hexit c); [|intros p w0 c0; apply backup_project_exit_code|done].
    split; [|done]. split; [done|]. intros (_ & _ & Hall).
    apply (batch_runs_run_projects _ _ _ _ _ []) in Hall.
    rewrite Hrun in Hall. done.
Qed.

(** *** The added properties on worked inputs *)

Lemma discovery_ignores_service_order_witness :
  named_volumes_of (descriptor (rev shop_services) shop_volume_defs)
  = named_volumes_of (descriptor shop_services shop_volume_defs).
Proof.
  apply (discovery_ignores_service_order shop_services (rev shop_services)
           shop_volume_defs); [reflexivity|reflexivity|apply Permutation_swap].
Defined.

Lemma detect_prefers_plugin_witness :
  (detect_docker_compose_command E_ok (World ∅ [])).1 = Ret true.
Proof.
  pose proof (detect_prefers_plugin E_ok (World ∅ [])) as H. cbv zeta in H.
  destruct H as (_ & H & _). exact (proj1 (H eq_refl)).
Defined.

Lemma create_project_zip_returns_archive_witness :
  exists p,
    (create_project_zip E_ok ["srv"; "shop"] stamp (World fs_shop [])).1 = Ret p /\
    (p = tree_archive ["srv"; "shop"] stamp <->
     inner_dot (path_name ["srv"; "shop"] +:+ "-project-" +:+ stamp) = false).
Proof.
  destruct (create_project_zip_returns_archive E_ok ["srv"; "shop"] stamp
              (World fs_shop []) eq_refl) as (p & Hp & _ & Hiff).
  exists p. split; [exact Hp|exact Hiff].
Defined.

Lemma exports_while_services_stopped_witness :
  exists l ev post,
    trace (backup_project E_ok ["srv"; "shop"] "remote" "backups" 4
             (World fs_shop [])).2 = [] ++ l ++ ev :: post /\
    is_export ev /\
    (exists plugin, down plugin ["srv"; "shop"] ∈ l) /\
    Forall (fun ev' => ~ is_up ev') l.
Proof.
  let t := eval vm_compute in
    (trace (backup_project E_ok ["srv"; "shop"] "remote" "backups" 4
              (World fs_shop [])).2) in
  let l := eval vm_compute in (take 8 t) in
  let rest := eval vm_compute in (drop 8 t) in
  match rest with
  | ?ev :: ?post =>
      assert (Ht : trace (backup_project E_ok ["srv"; "shop"] "remote" "backups" 4
                            (World fs_shop [])).2 = [] ++ l ++ ev :: post)
        by (vm_compute; reflexivity);
      exists l, ev, post; split; [exact Ht|]; split; [exact I|];
      destruct (exports_while_services_stopped E_ok ["srv"; "shop"] "remote"
                  "backups" 4 (World fs_shop []) l ev post Ht I) as (H1 & H2 & _);
      split; [exact H1|exact H2]
  end.
Defined.

Lemma failed_export_leaves_services_stopped_witness :
  let r := backup_project E_export_fails ["srv"; "blog"] "remote" "backups" 4
             (World fs_blog []) in
  r.1 = Exc (CommandFailed 1
               (DockerExport "logs" (staging_dir ["srv"; "blog"] stamp)
                  "volume-logs-20240101-120000.tar.gz")) /\
  Forall (fun ev => ~ is_up ev) (trace r.2) /\
  Forall before_upload (trace r.2).
Proof.
  intros r.
  let t := eval vm_compute in (trace r.2) in
  assert (Ht : trace r.2 = [] ++ t) by (vm_compute; reflexivity);
  destruct (failed_export_leaves_services_stopped E_export_fails ["srv"; "blog"]
              "remote" "backups" 4 (World fs_blog []) t "logs"
              (staging_dir ["srv"; "blog"] stamp)
              "volume-logs-20240101-120000.tar.gz" (Some 1%Z) Ht)
    as (Ho & Hup & Hbefore & _).
  - apply list_elem_of_In. simpl. tauto.
  - discriminate.
  - split; [exact Ho|]. rewrite Ht. split; [exact Hup|exact Hbefore].
Defined.

Lemma upload_follows_restart_and_bundle_witness :
  exists l ev post,
    trace (backup_project E_ok ["srv"; "shop"] "remote" "backups" 4
             (World fs_shop [])).2 = [] ++ l ++ ev :: post /\
    is_upload ev /\
    (exists plugin members,
       up plugin ["srv"; "shop"] ∈ l /\
       EvArchived (final_bundle ["srv"; "shop"] stamp) members ∈ l) /\
    Forall (fun ev' => ~ is_upload ev') (l ++ post).
Proof.
  let t := eval vm_compute in
    (trace (backup_project E_ok ["srv"; "shop"] "remote" "backups" 4
              (World fs_shop [])).2) in
  let l := eval vm_compute in (take 12 t) in
  let rest := eval vm_compute in (drop 12 t) in
  match rest with
  | ?ev :: ?post =>
      assert (Ht : trace (backup_project E_ok ["srv"; "shop"] "remote" "backups" 4
                            (World fs_shop [])).2 = [] ++ l ++ ev :: post)
        by (vm_compute; reflexivity);
      exists l, ev, post; split; [exact Ht|]; split; [exact I|];
      destruct (upload_follows_restart_and_bundle E_ok ["srv"; "shop"] "remote"
                  "backups" 4 (World fs_shop []) l ev post Ht I)
        as (_ & H1 & _ & H2);
      split; [exact H1|exact H2]
  end.
Defined.

Lemma returned_run_leaves_no_staging_witness :
  let r := backup_project E_ok ["srv"; "shop"] "remote" "backups" 4
             (World fs_shop []) in
  exists_ (fs r.2) (final_zip ["srv"; "shop"] stamp) = false /\
  forall q, staging_dir ["srv"; "shop"] stamp `prefix_of` q -> fs r.2 !! q = None.
Proof.
  intros r.
  destruct (returned_run_leaves_no_staging E_ok ["srv"; "shop"] "remote" "backups" 4
              (World fs_shop []) (final_zip ["srv"; "shop"] stamp))
    as (_ & Hgone & Hstaging); [vm_compute; reflexivity|].
  split; [exact Hgone|exact Hstaging].
Defined.

Lemma rotation_deletes_only_listed_zip_files_witness :
  exists entries l,
    lsjson_stdout (E_listing listing_six)
      ([] ++ [EvRun (RcloneLsjson (remote_target "remote" "backups")) (Some 0%Z)])
    = Some entries /\
    py_iter entries = Ok l /\
    exists e, e ∈ l /\ is_zip_file e = true /\
              "remote:backups/a.zip" = delete_target "remote" "backups" (entry_path e).
Proof.
  let t := eval vm_compute in
    (trace (rotate_project_backups (E_listing listing_six) "remote" "backups" 4
              (World ∅ [])).2) in
  assert (Ht : trace (rotate_project_backups (E_listing listing_six) "remote"
                        "backups" 4 (World ∅ [])).2 = [] ++ t)
    by (vm_compute; reflexivity);
  destruct (rotation_deletes_only_listed_zip_files (E_listing listing_six) "remote"
              "backups" 4 (World ∅ []) t "remote:backups/a.zip" (Some 0%Z) Ht)
    as (_ & entries & l & H1 & H2 & H3 & _).
  - apply list_elem_of_In. simpl. tauto.
  - exists entries, l. split; [exact H1|]. split; [exact H2|exact H3].
Defined.

Lemma rotation_deletes_the_oldest_witness :
  exists sorted,
    StronglySorted key_le sorted /\
    rotate_project_backups (E_listing listing_six) "remote" "backups" 4 (World ∅ [])
    = (Ret tt,
       World ∅
         ([] ++ EvRun (RcloneLsjson (remote_target "remote" "backups")) (Some 0%Z)
             :: map (deletion "remote" "backups") (take (6 - 4) sorted).*2)).
Proof.
  let l := eval vm_compute in
    (match py_iter listing_six with Ok l => l | Raise _ => [] end) in
  let backups := eval vm_compute in
    (match select_backups l with Ok b => b | Raise _ => [] end) in
  let keyed := eval vm_compute in
    (match with_keys (E_listing listing_six) backups with
     | Ok k => k | Raise _ => [] end) in
  destruct (rotation_deletes_the_oldest (E_listing listing_six) "remote" "backups" 4
              (World ∅ []) listing_six l backups keyed (january 1))
    as (sorted & _ & Hsorted & _ & Hrun & _).
  - lia.
  - reflexivity.
  - reflexivity.
  - reflexivity.
  - vm_compute. reflexivity.
  - vm_compute. reflexivity.
  - repeat constructor.
  - reflexivity.
  - exists sorted. split; [exact Hsorted|exact Hrun].
Defined.

Lemma deletions_follow_upload_witness :
  exists pre ev post final_zip_path,
    trace (backup_project E_ok ["srv"; "shop"] "remote" "backups" 4
             (World fs_shop [])).2 = [] ++ pre ++ ev :: post /\
    local_deletion ev /\
    EvRun (RcloneCopy final_zip_path (remote_target "remote" "backups")) (Some 0%Z)
      ∈ pre.
Proof.
  let t := eval vm_compute in
    (trace (backup_project E_ok ["srv"; "shop"] "remote" "backups" 4
              (World fs_shop [])).2) in
  let l := eval vm_compute in (take 13 t) in
  let rest := eval vm_compute in (drop 13 t) in
  match rest with
  | ?ev :: ?post =>
      assert (Ht : trace (backup_project E_ok ["srv"; "shop"] "remote" "backups" 4
                            (World fs_shop [])).2 = [] ++ l ++ ev :: post)
        by (vm_compute; reflexivity);
      destruct (deletions_follow_upload E_ok ["srv"; "shop"] "remote" "backups" 4
                  (World fs_shop []) l ev post Ht I) as (p & Hp);
      exists l, ev, post, p; split; [exact Ht|]; split; [exact I|exact Hp]
  end.
Defined.

Lemma exit_only_on_staging_collision_witness :
  let r := backup_project E_ok ["srv"; "a"] "remote" "backups" 4
             (World fs_collision []) in
  trace r.2
  = [] ++ [EvFs (OpMakeArchive (tree_archive ["srv"; "a"] stamp) ["srv"; "a"]) None;
           EvArchived (tree_archive ["srv"; "a"] stamp)
             (tree_members fs_collision ["srv"; "a"]);
           EvFs (OpMkdir (staging_dir ["srv"; "a"] stamp)) (Some FileExistsError)].
Proof.
  intros r.
  destruct (exit_only_on_staging_collision E_ok ["srv"; "a"] "remote" "backups" 4
              (World fs_collision []) 1%Z) as (_ & _ & _ & H);
    [vm_compute; reflexivity|].
  exact (f_equal trace H).
Defined.
